(** * smart-dns: zone loader, zone store, response cache and query engine

    A shallow embedding of the Go sources
      internal/zone/loader.go (zone store, directory loader, zone model),
      internal/cache/rrcache.go, internal/dnsserver/handler.go and
      cmd/smart-dns/main.go (start-up of the store, the reload coordinator),
    followed by the properties of the specification stated over it and by
    further properties of the loader, the store, the caches and the query
    engine.

    Conventions.
    - Go strings are byte strings ([string]); [strings.ToLower] and
      [strings.ToUpper] are modelled on the ASCII letters (DNS names are
      ASCII; bytes outside A-Z / a-z are left as they are).
    - Go maps are [gmap]s; a map whose iteration order the code depends on
      is iterated through [map_to_list] and the result is shown not to
      depend on that order.
    - [uint16]/[uint32]/[int] values are [Z]; no arithmetic on them can
      wrap in the modelled code except where written out.
    - A Go [(value, error)] result is a [Result]; a panic is an explicit
      outcome.
    - Functions of the Go standard library and of the two third-party
      libraries that the code calls but that are not part of the
      repository (net.ParseIP, float64 conversion, dns.Fqdn,
      dns.SplitDomainName) are fields of the class [GoLibs]; every
      general theorem holds for all their possible behaviours. *)

From Stdlib Require Import ZArith Ascii String.
From stdpp Require Import base gmap strings list fin_maps sorting.

Local Open Scope Z_scope.
Set Warnings "-register-all".
Set Default Proof Using "Type".


(* ===================================================================== *)
(** * Go strings *)
(* ===================================================================== *)

Module GoStr.

Definition lower_ascii (c : ascii) : ascii :=
  let n := N_of_ascii c in
  if ((65 <=? n) && (n <=? 90))%N then ascii_of_N (n + 32) else c.

Definition upper_ascii (c : ascii) : ascii :=
  let n := N_of_ascii c in
  if ((97 <=? n) && (n <=? 122))%N then ascii_of_N (n - 32) else c.

(** strings.ToLower / strings.ToUpper *)
Fixpoint ToLower (s : string) : string :=
  match s with
  | EmptyString => EmptyString
  | String c s' => String (lower_ascii c) (ToLower s')
  end.

Fixpoint ToUpper (s : string) : string :=
  match s with
  | EmptyString => EmptyString
  | String c s' => String (upper_ascii c) (ToUpper s')
  end.

(** len(s) *)
Definition len (s : string) : nat := String.length s.

(** strings.HasSuffix:
    [len(s) >= len(suffix) && s[len(s)-len(suffix):] == suffix] *)
Definition HasSuffix (s suffix : string) : bool :=
  (len suffix <=? len s)%nat
  && String.eqb (String.substring (len s - len suffix) (len suffix) s) suffix.

(** strings.Join *)
Fixpoint Join (elems : list string) (sep : string) : string :=
  match elems with
  | [] => ""
  | [e] => e
  | e :: rest => e +:+ sep +:+ Join rest sep
  end.

End GoStr.
Export GoStr.

(* ===================================================================== *)
(** * Results of fallible functions *)
(* ===================================================================== *)

Inductive Result (A : Type) : Type :=
| Ok (a : A)
| Err (msg : string).
Arguments Ok {A} a.
Arguments Err {A} msg.

Definition bindR {A B} (r : Result A) (k : A → Result B) : Result B :=
  match r with
  | Ok a => k a
  | Err e => Err e
  end.

Notation "x ← r ;;; k" := (bindR r (λ x, k))
  (at level 20, r at level 100, k at level 200, right associativity,
   format "x  ←  r  ;;;  '/' k").

(** A loop [for _, x := range xs { ... return nil, err ... }] whose body
    updates an accumulator or returns an error. *)
Fixpoint foldR {A S} (f : S → A → Result S) (xs : list A) (s : S) : Result S :=
  match xs with
  | [] => Ok s
  | x :: xs' => s' ← f s x ;;; foldR f xs' s'
  end.

Fixpoint mapR {A B} (f : A → Result B) (xs : list A) : Result (list B) :=
  match xs with
  | [] => Ok []
  | x :: xs' => y ← f x ;;; ys ← mapR f xs' ;;; Ok (y :: ys)
  end.

(* ===================================================================== *)
(** * net.IP *)
(* ===================================================================== *)

(** net.IP is a byte slice; [nil] results are [None]. *)
Definition IP := list Z.

Definition isZeros (p : list Z) : bool := forallb (Z.eqb 0) p.

(** net.IP.To4 *)
Definition To4 (ip : IP) : option IP :=
  if (length ip =? 4)%nat then Some ip
  else if (length ip =? 16)%nat
          && isZeros (take 10 ip)
          && bool_decide (ip !! 10%nat = Some 255)
          && bool_decide (ip !! 11%nat = Some 255)
       then Some (drop 12 ip)
       else None.

(** net.IP.To16 *)
Definition To16 (ip : IP) : option IP :=
  if (length ip =? 4)%nat
  then Some ([0;0;0;0;0;0;0;0;0;0;255;255] ++ ip)
  else if (length ip =? 16)%nat then Some ip else None.

(* ===================================================================== *)
(** * Library functions outside the repository *)
(* ===================================================================== *)

Class GoLibs := {
  (** the Go type float64 (JSON numbers decode to it) *)
  float64 : Type;
  (** the conversion [uint16(f)] *)
  uint16_of_float64 : float64 → Z;
  (** net.ParseIP; [None] is the nil result *)
  ParseIP : string → option IP;
  (** github.com/miekg/dns: dns.Fqdn and dns.SplitDomainName *)
  Fqdn : string → string;
  SplitDomainName : string → list string;
}.

(* ===================================================================== *)
(** * internal/zone/model.go: the zone file and the zone index *)
(* ===================================================================== *)

Record SOA := {
  MName : string;
  RName : string;
  Refresh : Z;
  Retry : Z;
  Expire : Z;
  NegativeTTL : Z;
}.

Record MX := { Preference : Z; Host : string }.

Record SRV := { Priority : Z; Weight : Z; Port : Z; Target : string }.

(** [type RRType string] with its seven constants. *)
Abbreviation RRType := string (only parsing).
Definition TypeA : RRType := "A".
Definition TypeAAAA : RRType := "AAAA".
Definition TypeCNAME : RRType := "CNAME".
Definition TypeMX : RRType := "MX".
Definition TypeNS : RRType := "NS".
Definition TypeTXT : RRType := "TXT".
Definition TypeSRV : RRType := "SRV".

Record RRSet := {
  rs_Type : RRType;
  rs_TTL : Z;
  rs_A : list IP;
  rs_AAAA : list IP;
  rs_CNAME : string;
  rs_NS : list string;
  rs_TXT : list string;
  rs_MX : list MX;
  rs_SRV : list SRV;
}.

(** [&RRSet{Type: t, TTL: ttl}]: the other fields are zero values. *)
Definition newRRSet (t : RRType) (ttl : Z) : RRSet :=
  {| rs_Type := t; rs_TTL := ttl; rs_A := []; rs_AAAA := []; rs_CNAME := "";
     rs_NS := []; rs_TXT := []; rs_MX := []; rs_SRV := [] |}.

Record ZoneIndex := {
  ZoneFQDN : string;
  Serial : Z;
  zi_SOA : SOA;
  TTLDef : Z;
  (** name (lowercase FQDN) -> type -> RRSet *)
  ByName : gmap string (gmap string RRSet);
}.

Section Model.
Context `{GoLibs}.

(** A decoded JSON value of static type [any]: the decoder yields nil,
    bool, float64, string, []any and map[string]any. *)
Inductive JSON : Type :=
| JNull
| JBool (b : bool)
| JNumber (f : float64)
| JString (s : string)
| JArray (elems : list JSON)
| JObject (fields : gmap string JSON).

Record RawRecord := {
  raw_Name : string;
  raw_Type : string;
  raw_TTL : option Z;      (* *uint32 *)
  raw_Value : string;      (* for CNAME only *)
  raw_Values : JSON;       (* []string or []struct depending on type *)
}.

Record ZoneFile := {
  zf_Zone : string;
  zf_Serial : Z;
  zf_TTLDefault : Z;
  zf_SOA : SOA;
  zf_NS : list string;
  zf_Records : list RawRecord;
}.

Definition set_Zone (z : ZoneFile) (zone : string) : ZoneFile :=
  {| zf_Zone := zone; zf_Serial := zf_Serial z; zf_TTLDefault := zf_TTLDefault z;
     zf_SOA := zf_SOA z; zf_NS := zf_NS z; zf_Records := zf_Records z |}.

(** [Validate] has a pointer receiver: it may be nil, and on the way it
    appends the missing trailing dot to [z.Zone] in place.  The result
    carries the zone file as it is after the call. *)
Definition Validate (z : option ZoneFile) : Result ZoneFile :=
  match z with
  | None => Err "nil zone"
  | Some z =>
    if String.eqb (zf_Zone z) "" then Err "zone is required" else
    let z := if HasSuffix (zf_Zone z) "." then z
             else set_Zone z (zf_Zone z +:+ ".") in
    if String.eqb (MName (zf_SOA z)) "" || String.eqb (RName (zf_SOA z)) ""
    then Err "soa.mname and soa.rname required"
    else if (length (zf_NS z) =? 0)%nat then Err "at least one NS required"
    else Ok z
  end.

Definition NormalizeFQDN (name zone : string) : string :=
  if String.eqb name "@" || String.eqb name "" then ToLower zone
  else if HasSuffix name "." then ToLower name
  else ToLower (name +:+ "." +:+ zone).

Definition MustFQDN (name : string) : string :=
  if String.eqb name "" then name
  else if HasSuffix name "." then name
  else name +:+ ".".

Definition ensureTTL (ttl : option Z) (def : Z) : Z :=
  match ttl with
  | None => def
  | Some t => if t =? 0 then def else t
  end.

Definition ttlOrDef (ttl : option Z) (def : Z) : Z := ensureTTL ttl def.

Definition normalizeFQDNs (v : list string) : list string :=
  map (λ s, ToLower (MustFQDN s)) v.

(** [ensureName] returns the inner map stored at [name], creating an
    empty one first when there is none.  The Go function returns a
    reference into [by]; here the caller writes the updated inner map
    back (see [store_name]). *)
Definition ensureName (by_ : gmap string (gmap string RRSet)) (name : string)
  : gmap string (gmap string RRSet) * gmap string RRSet :=
  match by_ !! name with
  | Some m => (by_, m)
  | None => (<[name := ∅]> by_, ∅)
  end.

Definition store_name (by_ : gmap string (gmap string RRSet)) (name : string)
  (m : gmap string RRSet) : gmap string (gmap string RRSet) :=
  <[name := m]> by_.

Definition set_TTL (rs : RRSet) (ttl : Z) : RRSet :=
  {| rs_Type := rs_Type rs; rs_TTL := ttl; rs_A := rs_A rs; rs_AAAA := rs_AAAA rs;
     rs_CNAME := rs_CNAME rs; rs_NS := rs_NS rs; rs_TXT := rs_TXT rs;
     rs_MX := rs_MX rs; rs_SRV := rs_SRV rs |}.

(** [appendRRSet] creates the RRset when absent, lowers its TTL to [ttl]
    when that is smaller, and returns it (with the updated map). *)
Definition appendRRSet (m : gmap string RRSet) (t : RRType) (ttl : Z)
  : gmap string RRSet * RRSet :=
  let rs := match m !! t with
            | Some rs => rs
            | None => newRRSet t ttl
            end in
  let rs := if ttl <? rs_TTL rs then set_TTL rs ttl else rs in
  (<[t := rs]> m, rs).

Definition hasOtherTypes (m : gmap string RRSet) : bool :=
  if (size m =? 0)%nat then false
  else if (size m =? 1)%nat then bool_decide (is_Some (m !! TypeCNAME))
  else true.

Definition toStringSlice (v : JSON) : Result (list string) :=
  match v with
  | JArray x =>
      mapR (λ e, match e with
                 | JString s => Ok s
                 | _ => Err "expected string in values"
                 end) x
  | JNull => Err "values missing"
  | _ => Err "invalid values type"
  end.

Definition toMXSlice (v : JSON) : Result (list MX) :=
  match v with
  | JArray arr =>
      mapR (λ e, match e with
                 | JObject m =>
                     match m !! "preference", m !! "host" with
                     | Some (JNumber prefF), Some (JString hostS) =>
                         Ok {| Preference := uint16_of_float64 prefF; Host := hostS |}
                     | _, _ => Err "MX requires preference and host"
                     end
                 | _ => Err "MX value must be object"
                 end) arr
  | _ => Err "values must be array for MX"
  end.

Definition toSRVSlice (v : JSON) : Result (list SRV) :=
  match v with
  | JArray arr =>
      mapR (λ e, match e with
                 | JObject s =>
                     match s !! "priority", s !! "weight", s !! "port", s !! "target" with
                     | Some (JNumber prio), Some (JNumber w), Some (JNumber p),
                       Some (JString target) =>
                         Ok {| Priority := uint16_of_float64 prio;
                               Weight := uint16_of_float64 w;
                               Port := uint16_of_float64 p;
                               Target := target |}
                     | _, _, _, _ => Err "SRV requires priority, weight, port, target"
                     end
                 | _ => Err "SRV value must be object"
                 end) arr
  | _ => Err "values must be array for SRV"
  end.

(** Field updates of the RRset that [appendRRSet] returned. *)
Definition set_A (rs : RRSet) (v : list IP) : RRSet :=
  {| rs_Type := rs_Type rs; rs_TTL := rs_TTL rs; rs_A := v; rs_AAAA := rs_AAAA rs;
     rs_CNAME := rs_CNAME rs; rs_NS := rs_NS rs; rs_TXT := rs_TXT rs;
     rs_MX := rs_MX rs; rs_SRV := rs_SRV rs |}.
Definition set_AAAA (rs : RRSet) (v : list IP) : RRSet :=
  {| rs_Type := rs_Type rs; rs_TTL := rs_TTL rs; rs_A := rs_A rs; rs_AAAA := v;
     rs_CNAME := rs_CNAME rs; rs_NS := rs_NS rs; rs_TXT := rs_TXT rs;
     rs_MX := rs_MX rs; rs_SRV := rs_SRV rs |}.
Definition set_CNAME (rs : RRSet) (v : string) : RRSet :=
  {| rs_Type := rs_Type rs; rs_TTL := rs_TTL rs; rs_A := rs_A rs; rs_AAAA := rs_AAAA rs;
     rs_CNAME := v; rs_NS := rs_NS rs; rs_TXT := rs_TXT rs;
     rs_MX := rs_MX rs; rs_SRV := rs_SRV rs |}.
Definition set_NS (rs : RRSet) (v : list string) : RRSet :=
  {| rs_Type := rs_Type rs; rs_TTL := rs_TTL rs; rs_A := rs_A rs; rs_AAAA := rs_AAAA rs;
     rs_CNAME := rs_CNAME rs; rs_NS := v; rs_TXT := rs_TXT rs;
     rs_MX := rs_MX rs; rs_SRV := rs_SRV rs |}.
Definition set_TXT (rs : RRSet) (v : list string) : RRSet :=
  {| rs_Type := rs_Type rs; rs_TTL := rs_TTL rs; rs_A := rs_A rs; rs_AAAA := rs_AAAA rs;
     rs_CNAME := rs_CNAME rs; rs_NS := rs_NS rs; rs_TXT := v;
     rs_MX := rs_MX rs; rs_SRV := rs_SRV rs |}.
Definition set_MX (rs : RRSet) (v : list MX) : RRSet :=
  {| rs_Type := rs_Type rs; rs_TTL := rs_TTL rs; rs_A := rs_A rs; rs_AAAA := rs_AAAA rs;
     rs_CNAME := rs_CNAME rs; rs_NS := rs_NS rs; rs_TXT := rs_TXT rs;
     rs_MX := v; rs_SRV := rs_SRV rs |}.
Definition set_SRV (rs : RRSet) (v : list SRV) : RRSet :=
  {| rs_Type := rs_Type rs; rs_TTL := rs_TTL rs; rs_A := rs_A rs; rs_AAAA := rs_AAAA rs;
     rs_CNAME := rs_CNAME rs; rs_NS := rs_NS rs; rs_TXT := rs_TXT rs;
     rs_MX := rs_MX rs; rs_SRV := v |}.

(** The address loops of the A and AAAA cases. *)
Definition parseA (ips : list string) : Result (list IP) :=
  mapR (λ s, match ParseIP s with
             | None => Err ("invalid A ip " +:+ s)
             | Some ip => match To4 ip with
                          | None => Err ("invalid A ip " +:+ s)
                          | Some ip4 => Ok ip4
                          end
             end) ips.

Definition parseAAAA (ips : list string) : Result (list IP) :=
  mapR (λ s, match ParseIP s with
             | None => Err ("invalid AAAA ip " +:+ s)
             | Some ip => match To16 ip, To4 ip with
                          | Some _, None => Ok ip
                          | _, _ => Err ("invalid AAAA ip " +:+ s)
                          end
             end) ips.

(** One iteration of the record loop of [ToIndex]: the index map after
    the record, or the error that rejects the zone. *)
Definition addRecord (zoneFQDN : string) (ttlDefault : Z)
  (by0 : gmap string (gmap string RRSet)) (r : RawRecord)
  : Result (gmap string (gmap string RRSet)) :=
  let rt := ToUpper (raw_Type r) in
  let fqdn := NormalizeFQDN (raw_Name r) zoneFQDN in
  let '(by_, m) := ensureName by0 fqdn in
  let ttl := ensureTTL (raw_TTL r) ttlDefault in
  if String.eqb rt TypeCNAME then
    if String.eqb (raw_Value r) "" then Err ("CNAME requires value for " +:+ fqdn)
    else if hasOtherTypes m then Err ("CNAME must be unique at name " +:+ fqdn)
    else Ok (store_name by_ fqdn
               (<[TypeCNAME := set_CNAME (newRRSet TypeCNAME ttl)
                                 (NormalizeFQDN (raw_Value r) zoneFQDN)]> m))
  else if String.eqb rt TypeA then
    ips ← toStringSlice (raw_Values r) ;;;
    l ← parseA ips ;;;
    let '(m, rs) := appendRRSet m TypeA ttl in
    Ok (store_name by_ fqdn (<[TypeA := set_A rs (rs_A rs ++ l)]> m))
  else if String.eqb rt TypeAAAA then
    ips ← toStringSlice (raw_Values r) ;;;
    l ← parseAAAA ips ;;;
    let '(m, rs) := appendRRSet m TypeAAAA ttl in
    Ok (store_name by_ fqdn (<[TypeAAAA := set_AAAA rs (rs_AAAA rs ++ l)]> m))
  else if String.eqb rt TypeTXT then
    vals ← toStringSlice (raw_Values r) ;;;
    let '(m, rs) := appendRRSet m TypeTXT ttl in
    Ok (store_name by_ fqdn (<[TypeTXT := set_TXT rs (rs_TXT rs ++ vals)]> m))
  else if String.eqb rt TypeNS then
    vals ← toStringSlice (raw_Values r) ;;;
    let '(m, rs) := appendRRSet m TypeNS ttl in
    Ok (store_name by_ fqdn
          (<[TypeNS := set_NS rs (rs_NS rs ++ normalizeFQDNs vals)]> m))
  else if String.eqb rt TypeMX then
    mxs ← toMXSlice (raw_Values r) ;;;
    let mxs := map (λ x, {| Preference := Preference x;
                            Host := ToLower (MustFQDN (Host x)) |}) mxs in
    let '(m, rs) := appendRRSet m TypeMX ttl in
    Ok (store_name by_ fqdn (<[TypeMX := set_MX rs (rs_MX rs ++ mxs)]> m))
  else if String.eqb rt TypeSRV then
    srvs ← toSRVSlice (raw_Values r) ;;;
    let srvs := map (λ x, {| Priority := Priority x; Weight := Weight x;
                             Port := Port x;
                             Target := ToLower (MustFQDN (Target x)) |}) srvs in
    let '(m, rs) := appendRRSet m TypeSRV ttl in
    Ok (store_name by_ fqdn (<[TypeSRV := set_SRV rs (rs_SRV rs ++ srvs)]> m))
  else Err ("unsupported type: " +:+ raw_Type r).

(** The NS RRset installed at the apex before the records are read. *)
Definition apexNS (z : ZoneFile) (zoneFQDN : string)
  : gmap string (gmap string RRSet) :=
  if (0 <? length (zf_NS z))%nat then
    let name := ToLower zoneFQDN in
    let '(by_, m) := ensureName ∅ name in
    store_name by_ name
      (<[TypeNS := set_NS (newRRSet TypeNS (ttlOrDef None (zf_TTLDefault z)))
                     (normalizeFQDNs (zf_NS z))]> m)
  else ∅.

Definition ToIndex (z : ZoneFile) : Result ZoneIndex :=
  z ← Validate (Some z) ;;;
  let zoneFQDN := MustFQDN (zf_Zone z) in
  by_ ← foldR (addRecord zoneFQDN (zf_TTLDefault z)) (zf_Records z)
              (apexNS z zoneFQDN) ;;;
  Ok {| ZoneFQDN := ToLower zoneFQDN;
        Serial := zf_Serial z;
        zi_SOA := zf_SOA z;
        TTLDef := zf_TTLDefault z;
        ByName := by_ |}.

End Model.

(* ===================================================================== *)
(** * internal/zone/loader.go: the zone store *)
(* ===================================================================== *)

(** [Store.zones]: lowercase zone FQDN -> index.  The mutex is not
    modelled: every operation below runs under it as a whole. *)
Abbreviation Store := (gmap string ZoneIndex) (only parsing).

Definition NewStore : Store := ∅.

(** One iteration of the [range s.zones] loop of [GetZoneForName]; the
    state is the pair [(z, best)]. *)
Definition zoneStep (name : string) (acc : option ZoneIndex * string)
  (kv : string * ZoneIndex) : option ZoneIndex * string :=
  if HasSuffix name kv.1 then
    if (len acc.2 <? len kv.1)%nat then (Some kv.2, kv.1) else acc
  else acc.

(** The loop, run over the entries in the order [order] in which the Go
    runtime happens to enumerate the map. *)
Definition GetZoneForName_in (order : list (string * ZoneIndex)) (qname : string)
  : option ZoneIndex * string :=
  fold_left (zoneStep (ToLower qname)) order (None, "").

Definition GetZoneForName (s : Store) (qname : string)
  : option ZoneIndex * string :=
  GetZoneForName_in (map_to_list s) qname.

Definition SwapZone (s : Store) (newz : ZoneIndex) : Store :=
  <[ZoneFQDN newz := newz]> s.

Definition RemoveZone (s : Store) (zone : string) : Store :=
  delete (ToLower (MustFQDN zone)) s.

Definition Snapshot (s : Store) : Store := s.

(* ===================================================================== *)
(** * github.com/hashicorp/golang-lru/v2: the LRU cache the code uses *)
(* ===================================================================== *)

(** The library is a dependency (go.mod: v2.0.7), not part of the
    repository; this is its documented behaviour: a fixed positive
    capacity, [Add] and [Get] make the key the most recently used one,
    [Add] beyond the capacity evicts the least recently used entry,
    [Keys] lists the keys from oldest to newest. *)
Module lru.

Record Cache (K V : Type) := {
  cap : Z;
  items : list (K * V);   (* most recently used first *)
}.
Arguments cap {K V} c.
Arguments items {K V} c.

Definition New {K V} (size : Z) : Result (Cache K V) :=
  if size <=? 0 then Err "must provide a positive size"
  else Ok {| cap := size; items := [] |}.

Section Ops.
Context {K V : Type} `{EqDecision K}.

Fixpoint find (k : K) (l : list (K * V)) : option V :=
  match l with
  | [] => None
  | (k', v) :: l' => if decide (k' = k) then Some v else find k l'
  end.

Definition without (k : K) (l : list (K * V)) : list (K * V) :=
  filter (λ kv, kv.1 ≠ k) l.

Definition Contains (k : K) (c : Cache K V) : bool :=
  bool_decide (is_Some (find k (items c))).

Definition Get (k : K) (c : Cache K V) : option V * Cache K V :=
  match find k (items c) with
  | Some v => (Some v, {| cap := cap c; items := (k, v) :: without k (items c) |})
  | None => (None, c)
  end.

Definition Add (k : K) (v : V) (c : Cache K V) : Cache K V :=
  match find k (items c) with
  | Some _ => {| cap := cap c; items := (k, v) :: without k (items c) |}
  | None =>
      let l := (k, v) :: items c in
      {| cap := cap c;
         items := if cap c <? Z.of_nat (length l) then removelast l else l |}
  end.

Definition Remove (k : K) (c : Cache K V) : Cache K V :=
  {| cap := cap c; items := without k (items c) |}.

Definition Keys (c : Cache K V) : list K := reverse (map fst (items c)).

End Ops.
End lru.

(* ===================================================================== *)
(** * internal/cache/rrcache.go *)
(* ===================================================================== *)

(** [rrKey{Name, Type}] and [negKey{Name, Type, Rcode}] *)
Abbreviation rrKey := (string * Z)%type (only parsing).
Abbreviation negKey := (string * Z * Z)%type (only parsing).

Record rrValue (T : Type) := { ExpireAt : Z; Data : T }.
Arguments ExpireAt {T} r.
Arguments Data {T} r.

Record RRCaches (T : Type) := {
  pos : lru.Cache (string * Z) (rrValue T);
  neg : lru.Cache (string * Z * Z) (rrValue unit);
}.
Arguments pos {T} r.
Arguments neg {T} r.

(** time.Second in nanoseconds; a [time.Time] is a number of nanoseconds
    and [time.Now()] is the argument [now] of the operations below. *)
Definition Second : Z := 1000000000.

Section Cache.
Context {T : Type}.

Definition NewRRCaches (capacity : Z) : Result (RRCaches T) :=
  p ← lru.New capacity ;;;
  n ← lru.New (capacity ÷ 10) ;;;
  Ok {| pos := p; neg := n |}.

Definition key (name : string) (qtype : Z) : string * Z :=
  (ToLower name, qtype).

Definition GetPositive (c : RRCaches T) (name : string) (qtype : Z) (now : Z)
  : option T * RRCaches T :=
  match lru.Get (key name qtype) (pos c) with
  | (Some v, p) =>
      if now <? ExpireAt v then (Some (Data v), {| pos := p; neg := neg c |})
      else (None, {| pos := lru.Remove (key name qtype) p; neg := neg c |})
  | (None, p) => (None, {| pos := p; neg := neg c |})
  end.

Definition PutPositive (c : RRCaches T) (name : string) (qtype : Z) (data : T)
  (ttl : Z) (now : Z) : RRCaches T :=
  {| pos := lru.Add (key name qtype) {| ExpireAt := now + ttl; Data := data |} (pos c);
     neg := neg c |}.

Definition GetNegative (c : RRCaches T) (name : string) (qtype rcode : Z) (now : Z)
  : bool * RRCaches T :=
  let k := (ToLower name, qtype, rcode) in
  match lru.Get k (neg c) with
  | (Some v, n) =>
      if now <? ExpireAt v then (true, {| pos := pos c; neg := n |})
      else (false, {| pos := pos c; neg := lru.Remove k n |})
  | (None, n) => (false, {| pos := pos c; neg := n |})
  end.

Definition PutNegative (c : RRCaches T) (name : string) (qtype rcode : Z)
  (ttl : Z) (now : Z) : RRCaches T :=
  {| pos := pos c;
     neg := lru.Add (ToLower name, qtype, rcode)
                    {| ExpireAt := now + ttl; Data := tt |} (neg c) |}.

(** Invalidate all entries for a zone suffix. *)
Definition InvalidateZone (c : RRCaches T) (zone : string) : RRCaches T :=
  let zone := ToLower zone in
  {| pos := fold_left (λ p k, if HasSuffix k.1 zone then lru.Remove k p else p)
                      (lru.Keys (pos c)) (pos c);
     neg := fold_left (λ n k, if HasSuffix k.1.1 zone then lru.Remove k n else n)
                      (lru.Keys (neg c)) (neg c) |}.

End Cache.

(* ===================================================================== *)
(** * github.com/miekg/dns: the message types the handler builds *)
(* ===================================================================== *)

Module dns.

Definition TypeA : Z := 1.
Definition TypeNS : Z := 2.
Definition TypeCNAME : Z := 5.
Definition TypeSOA : Z := 6.
Definition TypeMX : Z := 15.
Definition TypeTXT : Z := 16.
Definition TypeAAAA : Z := 28.
Definition TypeSRV : Z := 33.
Definition TypeANY : Z := 255.

Definition ClassINET : Z := 1.
Definition OpcodeQuery : Z := 0.

Definition RcodeSuccess : Z := 0.
Definition RcodeFormatError : Z := 1.
Definition RcodeServerFailure : Z := 2.
Definition RcodeNameError : Z := 3.

Record RR_Header := {
  Name : string;
  Rrtype : Z;
  Class : Z;
  Ttl : Z;
}.

(** The [dns.RR] interface with the concrete record types in use. *)
Inductive RR : Type :=
| A (Hdr : RR_Header) (a : IP)
| AAAA (Hdr : RR_Header) (aaaa : IP)
| CNAME (Hdr : RR_Header) (Target : string)
| NS (Hdr : RR_Header) (Ns : string)
| TXT (Hdr : RR_Header) (Txt : list string)
| MX (Hdr : RR_Header) (Preference : Z) (Mx : string)
| SRV (Hdr : RR_Header) (Priority Weight Port : Z) (Target : string)
| SOA (Hdr : RR_Header) (Ns Mbox : string)
      (Serial Refresh Retry Expire Minttl : Z)
| Other (Hdr : RR_Header) (rdata : list Z).

(** [rr.Header()] *)
Definition Header (rr : RR) : RR_Header :=
  match rr with
  | A h _ | AAAA h _ | CNAME h _ | NS h _ | TXT h _ | MX h _ _
  | SRV h _ _ _ _ | SOA h _ _ _ _ _ _ _ | Other h _ => h
  end.

Record Question := {
  qName : string;
  Qtype : Z;
  Qclass : Z;
}.

Record Msg := {
  Id : Z;
  Response : bool;
  Opcode : Z;
  Authoritative : bool;
  Truncated : bool;
  RecursionDesired : bool;
  RecursionAvailable : bool;
  CheckingDisabled : bool;
  Rcode : Z;
  Questions : list Question;   (* the field [Question] *)
  Answer : list RR;
  Ns_ : list RR;               (* the field [Ns], the authority section *)
  Extra : list RR;
}.

(** [new(dns.Msg)] *)
Definition newMsg : Msg :=
  {| Id := 0; Response := false; Opcode := 0; Authoritative := false;
     Truncated := false; RecursionDesired := false; RecursionAvailable := false;
     CheckingDisabled := false; Rcode := 0; Questions := []; Answer := [];
     Ns_ := []; Extra := [] |}.

(** [m.SetReply(request)] *)
Definition SetReply (m request : Msg) : Msg :=
  {| Id := Id request;
     Response := true;
     Opcode := Opcode request;
     Authoritative := Authoritative m;
     Truncated := Truncated m;
     RecursionDesired := if Opcode request =? OpcodeQuery
                         then RecursionDesired request else RecursionDesired m;
     RecursionAvailable := RecursionAvailable m;
     CheckingDisabled := if Opcode request =? OpcodeQuery
                         then CheckingDisabled request else CheckingDisabled m;
     Rcode := RcodeSuccess;
     Questions := match Questions request with
                  | q :: _ => [q]
                  | [] => Questions m
                  end;
     Answer := Answer m; Ns_ := Ns_ m; Extra := Extra m |}.

Definition set_Rcode (m : Msg) (rcode : Z) : Msg :=
  {| Id := Id m; Response := Response m; Opcode := Opcode m;
     Authoritative := Authoritative m; Truncated := Truncated m;
     RecursionDesired := RecursionDesired m;
     RecursionAvailable := RecursionAvailable m;
     CheckingDisabled := CheckingDisabled m; Rcode := rcode;
     Questions := Questions m; Answer := Answer m; Ns_ := Ns_ m;
     Extra := Extra m |}.

(** [m.SetRcode(request, rcode)] *)
Definition SetRcode (m request : Msg) (rcode : Z) : Msg :=
  set_Rcode (SetReply m request) rcode.

Definition set_Id (m : Msg) (id : Z) : Msg :=
  {| Id := id; Response := Response m; Opcode := Opcode m;
     Authoritative := Authoritative m; Truncated := Truncated m;
     RecursionDesired := RecursionDesired m;
     RecursionAvailable := RecursionAvailable m;
     CheckingDisabled := CheckingDisabled m; Rcode := Rcode m;
     Questions := Questions m; Answer := Answer m; Ns_ := Ns_ m;
     Extra := Extra m |}.

Definition set_Authoritative (m : Msg) (b : bool) : Msg :=
  {| Id := Id m; Response := Response m; Opcode := Opcode m;
     Authoritative := b; Truncated := Truncated m;
     RecursionDesired := RecursionDesired m;
     RecursionAvailable := RecursionAvailable m;
     CheckingDisabled := CheckingDisabled m; Rcode := Rcode m;
     Questions := Questions m; Answer := Answer m; Ns_ := Ns_ m;
     Extra := Extra m |}.

Definition set_RecursionAvailable (m : Msg) (b : bool) : Msg :=
  {| Id := Id m; Response := Response m; Opcode := Opcode m;
     Authoritative := Authoritative m; Truncated := Truncated m;
     RecursionDesired := RecursionDesired m;
     RecursionAvailable := b;
     CheckingDisabled := CheckingDisabled m; Rcode := Rcode m;
     Questions := Questions m; Answer := Answer m; Ns_ := Ns_ m;
     Extra := Extra m |}.

Definition set_Answer (m : Msg) (rrs : list RR) : Msg :=
  {| Id := Id m; Response := Response m; Opcode := Opcode m;
     Authoritative := Authoritative m; Truncated := Truncated m;
     RecursionDesired := RecursionDesired m;
     RecursionAvailable := RecursionAvailable m;
     CheckingDisabled := CheckingDisabled m; Rcode := Rcode m;
     Questions := Questions m; Answer := rrs; Ns_ := Ns_ m;
     Extra := Extra m |}.

Definition set_Ns (m : Msg) (rrs : list RR) : Msg :=
  {| Id := Id m; Response := Response m; Opcode := Opcode m;
     Authoritative := Authoritative m; Truncated := Truncated m;
     RecursionDesired := RecursionDesired m;
     RecursionAvailable := RecursionAvailable m;
     CheckingDisabled := CheckingDisabled m; Rcode := Rcode m;
     Questions := Questions m; Answer := Answer m; Ns_ := rrs;
     Extra := Extra m |}.

Definition set_Extra (m : Msg) (rrs : list RR) : Msg :=
  {| Id := Id m; Response := Response m; Opcode := Opcode m;
     Authoritative := Authoritative m; Truncated := Truncated m;
     RecursionDesired := RecursionDesired m;
     RecursionAvailable := RecursionAvailable m;
     CheckingDisabled := CheckingDisabled m; Rcode := Rcode m;
     Questions := Questions m; Answer := Answer m; Ns_ := Ns_ m;
     Extra := rrs |}.

End dns.

(* ===================================================================== *)
(** * internal/dnsserver/handler.go: the query engine *)
(* ===================================================================== *)

(** The outcome of a Go call that can panic. *)
Inductive Outcome (A : Type) : Type :=
| Returns (a : A)
| Panics.
Arguments Returns {A} a.
Arguments Panics {A}.

Record Resolver := {
  Zones : gmap string ZoneIndex;
  Cache : RRCaches dns.Msg;
  EnableResolver : bool;
  RootServers : list string;
}.

Definition set_Cache (r : Resolver) (c : RRCaches dns.Msg) : Resolver :=
  {| Zones := Zones r; Cache := c; EnableResolver := EnableResolver r;
     RootServers := RootServers r |}.

Definition toRRType (qt : Z) : RRType :=
  if qt =? dns.TypeA then TypeA
  else if qt =? dns.TypeAAAA then TypeAAAA
  else if qt =? dns.TypeCNAME then TypeCNAME
  else if qt =? dns.TypeMX then TypeMX
  else if qt =? dns.TypeNS then TypeNS
  else if qt =? dns.TypeTXT then TypeTXT
  else if qt =? dns.TypeSRV then TypeSRV
  else "".

Definition mkHdr (name : string) (rrtype : Z) (ttl : Z) : dns.RR_Header :=
  {| dns.Name := name; dns.Rrtype := rrtype; dns.Class := dns.ClassINET;
     dns.Ttl := ttl |}.

Definition toRR (name : string) (rrset : RRSet) : list dns.RR :=
  let t := rs_Type rrset in
  if String.eqb t TypeA then
    map (λ ip, dns.A (mkHdr name dns.TypeA (rs_TTL rrset)) ip) (rs_A rrset)
  else if String.eqb t TypeAAAA then
    map (λ ip, dns.AAAA (mkHdr name dns.TypeAAAA (rs_TTL rrset)) ip) (rs_AAAA rrset)
  else if String.eqb t TypeCNAME then
    [dns.CNAME (mkHdr name dns.TypeCNAME (rs_TTL rrset)) (rs_CNAME rrset)]
  else if String.eqb t TypeNS then
    map (λ ns, dns.NS (mkHdr name dns.TypeNS (rs_TTL rrset)) ns) (rs_NS rrset)
  else if String.eqb t TypeTXT then
    map (λ s, dns.TXT (mkHdr name dns.TypeTXT (rs_TTL rrset)) [s]) (rs_TXT rrset)
  else if String.eqb t TypeMX then
    map (λ mx, dns.MX (mkHdr name dns.TypeMX (rs_TTL rrset))
                      (Preference mx) (Host mx)) (rs_MX rrset)
  else if String.eqb t TypeSRV then
    map (λ s, dns.SRV (mkHdr name dns.TypeSRV (rs_TTL rrset))
                      (Priority s) (Weight s) (Port s) (Target s)) (rs_SRV rrset)
  else [].

Definition makeSOA (zi : ZoneIndex) : dns.RR :=
  dns.SOA (mkHdr (ZoneFQDN zi) dns.TypeSOA (TTLDef zi))
    (MName (zi_SOA zi)) (RName (zi_SOA zi)) (Serial zi)
    (Refresh (zi_SOA zi)) (Retry (zi_SOA zi)) (Expire (zi_SOA zi))
    (NegativeTTL (zi_SOA zi)).

(** [min] of handler.go: a minimum in which 0 stands for "unset". *)
Definition minTTL (a b : Z) : Z :=
  if a =? 0 then b
  else if b =? 0 then a
  else if a <? b then a
  else b.

Definition hasName (zi : ZoneIndex) (name : string) : bool :=
  bool_decide (is_Some (ByName zi !! name)).

Section Handler.
Context `{GoLibs}.

(** The wildcard owners tried for a name with labels [labels]:
    [for i := 0; i < len(labels)-1; i++] builds
    ["*." + strings.Join(labels[i+1:], ".") + "."]. *)
Definition wildcardNames (labels : list string) : list string :=
  map (λ i, "*." +:+ Join (drop (S i) labels) "." +:+ ".")
      (seq 0 (length labels - 1)).

(** The wildcard loop of [findRRSet]; [None] is [ok == false]. *)
Fixpoint findWildcard (zi : ZoneIndex) (name : string) (qt : RRType)
  (wcs : list string) : option (list dns.RR * Z) :=
  match wcs with
  | [] => None
  | wc :: rest =>
      match ByName zi !! wc with
      | Some m =>
          match m !! qt with
          | Some rr => Some (toRR name rr, rs_TTL rr)
          | None =>
              match m !! TypeCNAME with
              | Some rr => Some (toRR name rr, rs_TTL rr)
              | None => findWildcard zi name qt rest
              end
          end
      | None => findWildcard zi name qt rest
      end
  end.

Definition findRRSet (zi : ZoneIndex) (name : string) (qtype : Z)
  : option (list dns.RR * Z) :=
  match ByName zi !! name ≫= (λ m, m !! toRRType qtype) with
  | Some rr => Some (toRR name rr, rs_TTL rr)
  | None =>
      findWildcard zi name (toRRType qtype) (wildcardNames (SplitDomainName name))
  end.

Definition hasWildcardCandidate (zi : ZoneIndex) (name : string) : bool :=
  existsb (λ wc, bool_decide (is_Some (ByName zi !! wc)))
          (wildcardNames (SplitDomainName name)).

Definition lookupAorAAAA (zi : ZoneIndex) (host : string) : list dns.RR :=
  let name := ToLower (Fqdn host) in
  match ByName zi !! name with
  | Some m =>
      (match m !! TypeA with Some rr => toRR name rr | None => [] end)
      ++ (match m !! TypeAAAA with Some rr => toRR name rr | None => [] end)
  | None => []
  end.

(** The loop of [addAdditionals], [extra] being its accumulator. *)
Definition addAdditionals (zi : ZoneIndex) (answers : list dns.RR) : list dns.RR :=
  fold_left (λ extra rr,
               match rr with
               | dns.MX _ _ mx => extra ++ lookupAorAAAA zi mx
               | dns.NS _ ns => extra ++ lookupAorAAAA zi ns
               | _ => extra
               end) answers [].

(** How the [for i := 0; i < maxCNAME; i++] loop of [lookup] ends: by one
    of its [return] statements, by a panic (the type assertion of
    [rrset[0]] to a CNAME record), or by leaving the loop ([break], or [i]
    reaching [maxCNAME]) with the local variables [cur], [ans], [ttl]. *)
Inductive LoopEnd : Type :=
| LoopReturn (ans addl : list dns.RR) (rcode : Z) (ttl : Z)
| LoopPanic
| LoopLeft (cur : string) (ans : list dns.RR) (ttl : Z).

Fixpoint lookupLoop (zi : ZoneIndex) (qtype : Z) (iters : nat) (cur : string)
  (visited : gset string) (ans : list dns.RR) (ttl : Z) : LoopEnd :=
  match iters with
  | O => LoopLeft cur ans ttl
  | S iters' =>
      match findRRSet zi cur qtype with
      | Some (rrset, t) =>
          LoopReturn (ans ++ rrset) (addAdditionals zi rrset) dns.RcodeSuccess t
      | None =>
          if decide (cur ∈ visited)
          then LoopReturn [] [] dns.RcodeServerFailure 0
          else
            let visited := {[cur]} ∪ visited in
            match findRRSet zi cur dns.TypeCNAME with
            | Some (rrset, t) =>
                match rrset with
                | dns.CNAME _ target :: _ =>
                    let ttl := minTTL ttl t in
                    let ttl := if ttl =? 0 then t else ttl in
                    lookupLoop zi qtype iters' (ToLower target) visited
                               (ans ++ rrset) ttl
                | _ => LoopPanic
                end
            | None => LoopLeft cur ans ttl
            end
      end
  end.

Definition maxCNAME : nat := 8.

Definition lookup (zi : ZoneIndex) (qname : string) (qtype : Z)
  : Outcome (list dns.RR * list dns.RR * Z * Z) :=
  let name := ToLower (Fqdn qname) in
  match lookupLoop zi qtype maxCNAME name ∅ [] 0 with
  | LoopReturn ans addl rcode ttl => Returns (ans, addl, rcode, ttl)
  | LoopPanic => Panics
  | LoopLeft _ _ _ =>
      (* NX or NODATA *)
      if hasName zi name || hasWildcardCandidate zi name
      then Returns ([], [], dns.RcodeSuccess, 0)
      else Returns ([], [], dns.RcodeNameError, 0)
  end.

(** [iterativeResolve] talks to the network; [net servers name qtype] is
    what its referral loop ends with when started from [servers]. *)
Definition iterativeResolve (net : list string → string → Z → option (dns.Msg * Z))
  (r : Resolver) (qname : string) (qtype : Z) : option (dns.Msg * Z) :=
  if (length (RootServers r) =? 0)%nat then None
  else net (RootServers r) (Fqdn qname) qtype.

(** The cached value is a [*dns.Msg]: what the handler assigns to the
    message it got from the cache is assigned to the cached message. *)
Definition mutateCached (c : RRCaches dns.Msg) (name : string) (qtype : Z)
  (f : dns.Msg → dns.Msg) : RRCaches dns.Msg :=
  {| pos := {| lru.cap := lru.cap (pos c);
               lru.items :=
                 map (λ kv : (string * Z) * rrValue dns.Msg,
                        if decide (kv.1 = key name qtype)
                        then (kv.1, {| ExpireAt := ExpireAt kv.2;
                                       Data := f (Data kv.2) |})
                        else kv) (lru.items (pos c)) |};
     neg := neg c |}.

(** [ServeDNS] returns the message it writes to [w] and the resolver
    with the caches as the call leaves them. *)
Definition ServeDNS (net : list string → string → Z → option (dns.Msg * Z))
  (r : Resolver) (req : dns.Msg) (now : Z) : Outcome (dns.Msg * Resolver) :=
  match dns.Questions req with
  | [] => Returns (dns.SetRcode dns.newMsg req dns.RcodeFormatError, r)
  | q :: _ =>
    let qname := Fqdn (dns.qName q) in
    let qtype := dns.Qtype q in
    if qtype =? dns.TypeANY then
      (* Minimal ANY: return SOA only. *)
      let resp := dns.set_Authoritative (dns.SetReply dns.newMsg req) true in
      let resp := match (GetZoneForName (Zones r) qname).1 with
                  | Some zi => dns.set_Ns resp (dns.Ns_ resp ++ [makeSOA zi])
                  | None => resp
                  end in
      Returns (resp, r)
    else
    match GetPositive (Cache r) qname qtype now with
    | (Some v, c) =>
        let upd m := dns.set_RecursionAvailable (dns.set_Id m (dns.Id req)) false in
        Returns (upd v, set_Cache r (mutateCached c qname qtype upd))
    | (None, c) =>
      let resp := dns.set_RecursionAvailable
                    (dns.set_Authoritative (dns.SetReply dns.newMsg req) true)
                    false in
      match (GetZoneForName (Zones r) qname).1 with
      | None =>
          let nx c := Returns (dns.set_Rcode resp dns.RcodeNameError, set_Cache r c) in
          if EnableResolver r then
            match GetPositive c qname qtype now with
            | (Some cached, c) =>
                let upd m := dns.set_Id m (dns.Id req) in
                Returns (upd cached, set_Cache r (mutateCached c qname qtype upd))
            | (None, c) =>
                match iterativeResolve net r qname qtype with
                | Some (m, ttl) =>
                    let m := dns.set_Id m (dns.Id req) in
                    let c :=
                      if (dns.Rcode m =? dns.RcodeSuccess)
                         && ((0 <? length (dns.Answer m))%nat
                             || (0 <? length (dns.Ns_ m))%nat)
                      then PutPositive c qname qtype m (ttl * Second) now
                      else c in
                    Returns (m, set_Cache r c)
                | None => nx c
                end
            end
          else nx c
      | Some zi =>
          match lookup zi qname qtype with
          | Panics => Panics
          | Returns (ans, addl, rcode, ttl) =>
              let resp := dns.set_Rcode resp rcode in
              let resp := if (0 <? length ans)%nat
                          then dns.set_Answer resp ans else resp in
              let resp := if (0 <? length addl)%nat
                          then dns.set_Extra resp (dns.Extra resp ++ addl)
                          else resp in
              if (rcode =? dns.RcodeSuccess) && (0 <? length ans)%nat then
                Returns (resp, set_Cache r
                           (PutPositive c qname qtype resp (ttl * Second) now))
              else if negb (rcode =? dns.RcodeSuccess) then
                let negttl := NegativeTTL (zi_SOA zi) * Second in
                let c := PutNegative c qname qtype rcode negttl now in
                (* Attach SOA in authority for negative answers *)
                Returns (dns.set_Ns resp (dns.Ns_ resp ++ [makeSOA zi]),
                         set_Cache r c)
              else Returns (resp, set_Cache r c)
          end
      end
    end
  end.

(* ===================================================================== *)
(** * cmd/smart-dns/main.go: the reload coordinator *)
(* ===================================================================== *)

Record zoneReloader := {
  store : gmap string ZoneIndex;
  cache : RRCaches dns.Msg;
}.

(** [file] is what reading and decoding the path gave ([readZonePath]). *)
Definition OnZoneUpdated (z : zoneReloader) (file : Result ZoneFile)
  : zoneReloader :=
  match file with
  | Err _ => z
  | Ok zf =>
      match ToIndex zf with
      | Err _ => z
      | Ok zi =>
          let swapped :=
            {| store := SwapZone (store z) zi;
               cache := InvalidateZone (cache z) (ZoneFQDN zi) |} in
          match (GetZoneForName (store z) (ZoneFQDN zi)).1 with
          | Some old => if Serial zi <=? Serial old then z else swapped
          | None => swapped
          end
      end
  end.

Definition OnZoneRemoved (z : zoneReloader) (zoneName : string) : zoneReloader :=
  {| store := RemoveZone (store z) (zoneName +:+ ".");
     cache := InvalidateZone (cache z) (zoneName +:+ ".") |}.

End Handler.

(* ===================================================================== *)
(** * An instance of the library functions, for running the model *)
(* ===================================================================== *)

(** The concrete inputs below are plain host names (no backslash escapes)
    and dotted-quad addresses; on those the functions of this instance
    agree with the libraries.  JSON numbers are integers here. *)

Fixpoint splitDot (s : string) : list string :=
  match s with
  | EmptyString => [""]
  | String c s' =>
      if Ascii.eqb c "." then "" :: splitDot s'
      else match splitDot s' with
           | l :: ls => String c l :: ls
           | [] => [String c ""]
           end
  end.

Definition plainFqdn (s : string) : string :=
  if HasSuffix s "." then s else s +:+ ".".

Definition plainSplitDomainName (s : string) : list string :=
  if String.eqb s "" || String.eqb s "." then []
  else if HasSuffix s "." then removelast (splitDot s) else splitDot s.

Fixpoint decimal (s : string) (acc : Z) : option Z :=
  match s with
  | EmptyString => Some acc
  | String c s' =>
      match Ascii.is_nat c with
      | Some d => decimal s' (10 * acc + Z.of_nat d)
      | None => None
      end
  end.

Definition octet (s : string) : option Z :=
  if String.eqb s "" then None
  else if (1 <? len s)%nat && HasSuffix (String.substring 0 1 s) "0" then None
  else match decimal s 0 with
       | Some n => if n <=? 255 then Some n else None
       | None => None
       end.

Definition plainParseIP (s : string) : option IP :=
  match splitDot s with
  | [a; b; c; d] =>
      match octet a, octet b, octet c, octet d with
      | Some a, Some b, Some c, Some d =>
          Some [0;0;0;0;0;0;0;0;0;0;255;255;a;b;c;d]
      | _, _, _, _ => None
      end
  | _ => None
  end.

Definition plainLibs : GoLibs :=
  {| float64 := Z;
     uint16_of_float64 := λ f, f `mod` 65536;
     ParseIP := plainParseIP;
     Fqdn := plainFqdn;
     SplitDomainName := plainSplitDomainName |}.

(* ===================================================================== *)
(** * Concrete zones and requests *)
(* ===================================================================== *)

Section Examples.
#[local] Existing Instance plainLibs.

Definition exSOA : SOA :=
  {| MName := "ns1.example.com."; RName := "hostmaster.example.com.";
     Refresh := 3600; Retry := 600; Expire := 604800; NegativeTTL := 300 |}.

Definition strs (l : list string) : JSON := JArray (map JString l).

Definition mx (preference : Z) (host : string) : JSON :=
  JObject {[ "preference" := JNumber preference; "host" := JString host ]}.

Definition rawRecord (name type : string) (ttl : Z) (value : string)
  (values : JSON) : RawRecord :=
  {| raw_Name := name; raw_Type := type; raw_TTL := Some ttl;
     raw_Value := value; raw_Values := values |}.

Definition mkZone (zone : string) (serial : Z) (records : list RawRecord)
  : ZoneFile :=
  {| zf_Zone := zone; zf_Serial := serial; zf_TTLDefault := 300;
     zf_SOA := exSOA; zf_NS := ["ns1.example.com."]; zf_Records := records |}.

(** A TXT record and then a CNAME at the same name. *)
Definition zoneTxtThenCname : ZoneFile :=
  mkZone "example.com." 1
    [ rawRecord "www" "TXT" 300 "" (strs ["hello"]);
      rawRecord "www" "CNAME" 300 "@" JNull ].

(** The same two records in the other order. *)
Definition zoneCnameThenTxt : ZoneFile :=
  mkZone "example.com." 1
    [ rawRecord "www" "CNAME" 300 "@" JNull;
      rawRecord "www" "TXT" 300 "" (strs ["hello"]) ].

(** A CNAME at the apex, where the loader has installed the NS RRset. *)
Definition zoneApexCname : ZoneFile :=
  mkZone "example.com." 1 [ rawRecord "@" "CNAME" 300 "www.example.net." JNull ].

(** A CNAME whose target is nowhere in the zone. *)
Definition zoneDangling : ZoneFile :=
  mkZone "example.com." 1
    [ rawRecord "www" "CNAME" 300 "gone.example.net." JNull ].

(** A chain of nine CNAMEs n0 -> n1 -> ... -> n9 that ends in an address. *)
Definition zoneChain : ZoneFile :=
  mkZone "example.com." 1
    [ rawRecord "n0" "CNAME" 300 "n1" JNull;
      rawRecord "n1" "CNAME" 300 "n2" JNull;
      rawRecord "n2" "CNAME" 300 "n3" JNull;
      rawRecord "n3" "CNAME" 300 "n4" JNull;
      rawRecord "n4" "CNAME" 300 "n5" JNull;
      rawRecord "n5" "CNAME" 300 "n6" JNull;
      rawRecord "n6" "CNAME" 300 "n7" JNull;
      rawRecord "n7" "CNAME" 300 "n8" JNull;
      rawRecord "n8" "CNAME" 300 "n9" JNull;
      rawRecord "n9" "A" 300 "" (strs ["192.0.2.9"]) ].

(** Two names that are aliases of each other. *)
Definition zoneLoop : ZoneFile :=
  mkZone "example.com." 1
    [ rawRecord "a" "CNAME" 300 "b" JNull;
      rawRecord "b" "CNAME" 300 "a" JNull ].

(** www is an alias (TTL 60) of the apex, which has an address (TTL 300). *)
Definition zoneWww : ZoneFile :=
  mkZone "example.com." 1
    [ rawRecord "@" "A" 300 "" (strs ["203.0.113.10"]);
      rawRecord "www" "CNAME" 60 "@" JNull ].

(** Two MX records that name the same mail host. *)
Definition zoneMail : ZoneFile :=
  mkZone "example.com." 1
    [ rawRecord "@" "MX" 600 ""
        (JArray [mx 10 "mail.example.com."; mx 20 "mail.example.com."]);
      rawRecord "mail" "A" 300 "" (strs ["192.0.2.5"]) ].

(** A record whose absolute name lies outside the zone. *)
Definition zoneOutside : ZoneFile :=
  mkZone "example.com." 1
    [ rawRecord "www.other.net." "TXT" 300 "" (strs ["elsewhere"]) ].

(** An installed zone and a new, not yet installed, child zone. *)
Definition zoneParent : ZoneFile :=
  mkZone "example.com." 2025103001
    [ rawRecord "@" "A" 300 "" (strs ["203.0.113.10"]) ].

Definition zoneChild : ZoneFile :=
  mkZone "sub.example.com." 1
    [ rawRecord "@" "A" 300 "" (strs ["203.0.113.30"]) ].

(** The index of a zone file the loader accepts (an empty index stands
    for a rejected file; the examples say which case they are in). *)
Definition indexOf (zf : ZoneFile) : ZoneIndex :=
  match ToIndex zf with
  | Ok zi => zi
  | Err _ => {| ZoneFQDN := ""; Serial := 0; zi_SOA := exSOA; TTLDef := 0;
                ByName := ∅ |}
  end.

Definition emptyCaches : RRCaches dns.Msg :=
  {| pos := {| lru.cap := 100; lru.items := [] |};
     neg := {| lru.cap := 10; lru.items := [] |} |}.

Definition query (name : string) (qtype : Z) : dns.Msg :=
  {| dns.Id := 4242; dns.Response := false; dns.Opcode := dns.OpcodeQuery;
     dns.Authoritative := false; dns.Truncated := false;
     dns.RecursionDesired := false; dns.RecursionAvailable := false;
     dns.CheckingDisabled := false; dns.Rcode := 0;
     dns.Questions := [ {| dns.qName := name; dns.Qtype := qtype;
                           dns.Qclass := dns.ClassINET |} ];
     dns.Answer := []; dns.Ns_ := []; dns.Extra := [] |}.

Definition resolverFor (zf : ZoneFile) : Resolver :=
  {| Zones := SwapZone NewStore (indexOf zf); Cache := emptyCaches;
     EnableResolver := false; RootServers := [] |}.

(** No upstream server answers. *)
Definition noNet : list string → string → Z → option (dns.Msg * Z) :=
  λ _ _ _, None.

(** A record of a type the zone model does not have. *)
Definition zoneBadType : ZoneFile :=
  mkZone "example.com." 1
    [ rawRecord "www" "A" 300 "" (strs ["203.0.113.10"]);
      rawRecord "4.3.2.1.in-addr.arpa." "ptr" 300 "" (strs ["www.example.com."]) ].

(** Two aliases at one name, with another record between them. *)
Definition zoneTwoCnames : ZoneFile :=
  mkZone "example.com." 1
    [ rawRecord "www" "CNAME" 300 "a" JNull;
      rawRecord "a" "A" 300 "" (strs ["203.0.113.10"]);
      rawRecord "WWW" "cname" 300 "b" JNull ].

(** Wildcards at two depths. *)
Definition zoneWild : ZoneFile :=
  mkZone "example.com." 1
    [ rawRecord "*" "A" 300 "" (strs ["203.0.113.1"]);
      rawRecord "*.apps" "A" 30 "" (strs ["203.0.113.20"]) ].

(** A zone name in mixed case without final dot, and a TXT record. *)
Definition zoneText : ZoneFile :=
  mkZone "Example.ORG" 7
    [ rawRecord "@" "txt" 120 "" (strs ["v=spf1 -all"; "hello"]) ].

(** A zone file whose [ns] list has an entry in capitals without final
    dot and an empty entry. *)
Definition zoneNsList : ZoneFile :=
  {| zf_Zone := "example.com."; zf_Serial := 1; zf_TTLDefault := 300;
     zf_SOA := exSOA; zf_NS := ["NS1.Example.COM"; ""; "ns2.example.com."];
     zf_Records := [] |}.

(** A record whose [values] field is a string, not an array. *)
Definition zoneValuesNoArray : ZoneFile :=
  mkZone "example.com." 1 [ rawRecord "www" "A" 300 "" (JString "203.0.113.10") ].

(** An index whose mail host has an A and an AAAA RRset. *)
Definition indexDualStack : ZoneIndex :=
  {| ZoneFQDN := "example.com."; Serial := 1; zi_SOA := exSOA; TTLDef := 300;
     ByName :=
       {[ "example.com." :=
            {[ TypeMX := {| rs_Type := TypeMX; rs_TTL := 600; rs_A := []; rs_AAAA := [];
                            rs_CNAME := ""; rs_NS := []; rs_TXT := [];
                            rs_MX := [ {| Preference := 10;
                                          Host := "mail.example.com." |} ];
                            rs_SRV := [] |} ]};
          "mail.example.com." :=
            {[ TypeA := {| rs_Type := TypeA; rs_TTL := 300;
                           rs_A := [[192; 0; 2; 5]]; rs_AAAA := [];
                           rs_CNAME := ""; rs_NS := []; rs_TXT := [];
                           rs_MX := []; rs_SRV := [] |};
               TypeAAAA := {| rs_Type := TypeAAAA; rs_TTL := 120; rs_A := [];
                              rs_AAAA := [[32; 1; 13; 184; 0; 0; 0; 0;
                                           0; 0; 0; 0; 0; 0; 0; 5]];
                              rs_CNAME := ""; rs_NS := []; rs_TXT := [];
                              rs_MX := []; rs_SRV := [] |} ]} ]} |}.

(** The RRsets at a name of an index, and the RRset of one type. *)
Definition namesAt (zi : ZoneIndex) (name : string) : gmap string RRSet :=
  default ∅ (ByName zi !! name).

Definition rrsetAt (zi : ZoneIndex) (name : string) (t : RRType) : RRSet :=
  default (newRRSet t 0) (namesAt zi name !! t).




End Examples.

(* ===================================================================== *)
(** * internal/zone/loader.go: loading a directory; main.go: start-up *)
(* ===================================================================== *)

(** What [filepath.WalkDir] hands to the callback for one entry. *)
Record DirEntry := {
  de_path : string;
  de_Name : string;
  de_IsDir : bool;
}.

Section LoadDir.
Context `{GoLibs}.

(** The paths collected by the walk callback: regular entries whose
    lowercased name ends in [.dns]. *)
Definition dnsEntries (ents : list DirEntry) : list string :=
  map de_path
      (filter (λ d, de_IsDir d = false
                    ∧ HasSuffix (ToLower (de_Name d)) ".dns" = true) ents).

(** One iteration of the loop over the sorted paths; [readZoneFile] is
    what reading and decoding a path gives. *)
Definition loadFile (readZoneFile : string → Result ZoneFile)
  (out : gmap string ZoneIndex) (f : string) : Result (gmap string ZoneIndex) :=
  match readZoneFile f with
  | Err e => Err (f +:+ ": " +:+ e)
  | Ok zf =>
      match ToIndex zf with
      | Err e => Err (f +:+ ": " +:+ e)
      | Ok zi => Ok (<[ZoneFQDN zi := zi]> out)
      end
  end.

(** [walk] is the outcome of [filepath.WalkDir]: the entries it visits,
    or the first error it meets.  [sort.Strings] is the sort by the
    bytewise order of strings. *)
Definition LoadZonesDir (walk : Result (list DirEntry))
  (readZoneFile : string → Result ZoneFile) : Result (gmap string ZoneIndex) :=
  ents ← walk ;;;
  let entries := merge_sort String.le (dnsEntries ents) in
  out ← foldR (loadFile readZoneFile) entries ∅ ;;;
  if (size out =? 0)%nat then Err "no zones loaded" else Ok out.

End LoadDir.

(** [main]: [store := zone.NewStore()] and then
    [for _, zi := range zonesMap { store.SwapZone(zi) }], the map being
    enumerated in the order [order]. *)
Definition initialStore (order : list (string * ZoneIndex)) : gmap string ZoneIndex :=
  fold_left (λ s kv, SwapZone s kv.2) order NewStore.

(* ===================================================================== *)
(** * internal/dnsserver/handler.go: TTL helpers of the resolver *)
(* ===================================================================== *)

Definition extractMinTTL (m : dns.Msg) : Z :=
  let ttl :=
    fold_left
      (λ ttl s, fold_left (λ ttl rr, minTTL ttl (dns.Ttl (dns.Header rr))) s ttl)
      [dns.Answer m; dns.Ns_ m; dns.Extra m] 0 in
  if ttl =? 0 then 60 else ttl.

Definition ternaryTTL (v def : Z) : Z := if v =? 0 then def else v.

(* ===================================================================== *)
(** * Relations used to state what the loader keeps *)
(* ===================================================================== *)

(** [new] is [old] after further records of the same name and type were
    read: the TTL may only have gone down and every list may only have
    grown at its end. *)
Definition RRSet_grown (old new : RRSet) : Prop :=
  rs_Type new = rs_Type old
  ∧ rs_TTL new ≤ rs_TTL old
  ∧ rs_A old `prefix_of` rs_A new
  ∧ rs_AAAA old `prefix_of` rs_AAAA new
  ∧ rs_CNAME new = rs_CNAME old
  ∧ rs_NS old `prefix_of` rs_NS new
  ∧ rs_TXT old `prefix_of` rs_TXT new
  ∧ rs_MX old `prefix_of` rs_MX new
  ∧ rs_SRV old `prefix_of` rs_SRV new.

(** A cache holds no more entries than its capacity. *)
Definition lru_bounded {K V} (c : lru.Cache K V) : Prop :=
  Z.of_nat (length (lru.items c)) ≤ lru.cap c.

Definition caches_bounded {T} (c : RRCaches T) : Prop :=
  lru_bounded (pos c) ∧ lru_bounded (neg c).

(** The seven RRset types of the zone model. *)
Definition zoneTypes : list string :=
  [TypeA; TypeAAAA; TypeCNAME; TypeMX; TypeNS; TypeTXT; TypeSRV].

(* ===================================================================== *)
(** * A zones directory for the examples *)
(* ===================================================================== *)

Section DirExamples.
#[local] Existing Instance plainLibs.

(** A zones directory with two zone files, a subdirectory and a file
    that is no zone file, and what reading its files gives. *)
Definition zonesDir : list DirEntry :=
  [ {| de_path := "dns"; de_Name := "dns"; de_IsDir := true |};
    {| de_path := "dns/sub.example.com.DNS"; de_Name := "sub.example.com.DNS";
       de_IsDir := false |};
    {| de_path := "dns/example.com.dns"; de_Name := "example.com.dns";
       de_IsDir := false |};
    {| de_path := "dns/README.md"; de_Name := "README.md"; de_IsDir := false |} ].

Definition zonesDirFiles (path : string) : Result ZoneFile :=
  if String.eqb path "dns/example.com.dns" then Ok zoneParent
  else if String.eqb path "dns/sub.example.com.DNS" then Ok zoneChild
  else Err "open: no such file".

(** The same directory with a zone file the loader rejects. *)
Definition zonesDirBroken (path : string) : Result ZoneFile :=
  if String.eqb path "dns/sub.example.com.DNS" then Ok zoneBadType
  else zonesDirFiles path.

Definition loadedOf (r : Result (gmap string ZoneIndex)) : gmap string ZoneIndex :=
  match r with
  | Ok m => m
  | Err _ => ∅
  end.

End DirExamples.

(* ===================================================================== *)
(** * Facts about Go strings *)
(* ===================================================================== *)

Lemma str_app_nil (t : string) : "" +:+ t = t.
Proof. reflexivity. Qed.

Lemma str_app_cons (c : ascii) (s t : string) :
  String c s +:+ t = String c (s +:+ t).
Proof. reflexivity. Qed.

Lemma str_app_assoc (s t u : string) : (s +:+ t) +:+ u = s +:+ (t +:+ u).
Proof.
  induction s as [|c s IH]; [done|]. rewrite !str_app_cons. by rewrite IH.
Qed.

Lemma len_app (s t : string) : len (s +:+ t) = (len s + len t)%nat.
Proof.
  unfold len. induction s as [|c s IH]; [done|].
  rewrite str_app_cons. simpl. by rewrite IH.
Qed.

Lemma ToLower_app (s t : string) : ToLower (s +:+ t) = ToLower s +:+ ToLower t.
Proof.
  induction s as [|c s IH]; [done|].
  rewrite str_app_cons. simpl. by rewrite IH, str_app_cons.
Qed.

Lemma len_ToLower (s : string) : len (ToLower s) = len s.
Proof. unfold len. induction s as [|c s IH]; simpl; [done | by rewrite IH]. Qed.

Lemma substring_whole (t : string) : String.substring 0 (String.length t) t = t.
Proof. induction t as [|c t IH]; simpl; [done | by rewrite IH]. Qed.

Lemma substring_app_r (p t : string) :
  String.substring (String.length p) (String.length t) (p +:+ t) = t.
Proof.
  induction p as [|c p IH]; [apply substring_whole|].
  rewrite str_app_cons. simpl. done.
Qed.

Lemma substring_split (s : string) (n m : nat) :
  (n + m)%nat = String.length s →
  s = String.substring 0 n s +:+ String.substring n m s.
Proof.
  revert n m. induction s as [|c s IH]; intros n m Hlen; simpl in *.
  - destruct n; destruct m; simpl in *; done.
  - destruct n as [|n]; simpl.
    + destruct m as [|m]; [done|]. rewrite str_app_nil. f_equal.
      injection Hlen as Hlen. rewrite Hlen. by rewrite substring_whole.
    + rewrite str_app_cons. f_equal. apply IH. lia.
Qed.

(** [strings.HasSuffix] is the suffix relation. *)
Lemma HasSuffix_spec (s t : string) :
  HasSuffix s t = true ↔ ∃ p, s = p +:+ t.
Proof.
  unfold HasSuffix, len. split.
  - intros [Hle Heq]%andb_true_iff.
    apply Nat.leb_le in Hle. apply String.eqb_eq in Heq.
    exists (String.substring 0 (String.length s - String.length t) s).
    etrans; [apply (substring_split s (String.length s - String.length t)
                     (String.length t)); lia|].
    by rewrite Heq.
  - intros [p ->]. pose proof (len_app p t) as Hl. unfold len in Hl.
    rewrite Hl. apply andb_true_iff. split.
    + apply Nat.leb_le. lia.
    + replace (String.length p + String.length t - String.length t)%nat
        with (String.length p) by lia.
      rewrite substring_app_r. apply String.eqb_refl.
Qed.

Lemma HasSuffix_refl (s : string) : HasSuffix s s = true.
Proof. apply HasSuffix_spec. by exists "". Qed.

Lemma HasSuffix_len (s t : string) : HasSuffix s t = true → (len t ≤ len s)%nat.
Proof. unfold HasSuffix. intros [Hle _]%andb_true_iff. by apply Nat.leb_le. Qed.

Lemma app_len_inj (p q s t : string) :
  p +:+ s = q +:+ t → len s = len t → s = t.
Proof.
  revert q. induction p as [|c p IH]; intros q Heq Hlen.
  - destruct q as [|d q]; [done|].
    exfalso. rewrite str_app_nil in Heq. subst s.
    rewrite len_app in Hlen. unfold len in Hlen. simpl in Hlen. lia.
  - destruct q as [|d q].
    + exfalso. rewrite str_app_nil in Heq. subst t.
      rewrite len_app in Hlen. unfold len in Hlen. simpl in Hlen. lia.
    + rewrite !str_app_cons in Heq. injection Heq as _ Heq. by eapply IH.
Qed.

(** Two suffixes of one string that have the same length are equal. *)
Lemma HasSuffix_same_len (s t u : string) :
  HasSuffix s t = true → HasSuffix s u = true → len t = len u → t = u.
Proof.
  intros [p Hp]%HasSuffix_spec [q Hq]%HasSuffix_spec Hlen.
  eapply app_len_inj; [|done]. by rewrite <- Hp, <- Hq.
Qed.

(* ===================================================================== *)
(** * The zone store: longest-suffix selection *)
(* ===================================================================== *)

Section StoreFacts.
Implicit Types (s : gmap string ZoneIndex) (l : list (string * ZoneIndex)).

(** The loop invariant of [GetZoneForName]: [best] is the key of an entry
    seen so far that is a suffix of the name, and no suffix seen so far
    is longer. *)
Lemma zone_loop_invariant (name : string) l :
  let r := fold_left (zoneStep name) l (None, "") in
  (r = (None, "")
   ∨ ∃ zi, r.1 = Some zi ∧ (r.2, zi) ∈ l ∧ HasSuffix name r.2 = true ∧ r.2 ≠ "")
  ∧ (∀ k v, (k, v) ∈ l → HasSuffix name k = true → (len k ≤ len r.2)%nat).
Proof.
  induction l as [|x l IH] using rev_ind; simpl.
  { split; [by left|]. intros k v Hin. by apply elem_of_nil in Hin. }
  rewrite fold_left_app. simpl.
  destruct IH as [IH1 IH2].
  set (r := fold_left (zoneStep name) l (None, "")) in *.
  unfold zoneStep.
  destruct (HasSuffix name x.1) eqn:Hsuf.
  - destruct (len r.2 <? len x.1)%nat eqn:Hlt.
    + apply Nat.ltb_lt in Hlt. simpl. split.
      * right. exists x.2. repeat split; [|done|].
        -- apply elem_of_app. right. destruct x. by apply list_elem_of_singleton.
        -- intros Heq. rewrite Heq in Hlt. unfold len in Hlt. simpl in Hlt. lia.
      * intros k v [Hin | Hin]%elem_of_app Hk.
        -- specialize (IH2 k v Hin Hk). lia.
        -- apply list_elem_of_singleton in Hin. subst x. simpl. lia.
    + apply Nat.ltb_ge in Hlt. split.
      * destruct IH1 as [IH1 | (zi & ? & ? & ? & ?)]; [by left|].
        right. exists zi. repeat split; [done| |done|done].
        apply elem_of_app. by left.
      * intros k v [Hin | Hin]%elem_of_app Hk; [by eapply IH2|].
        apply list_elem_of_singleton in Hin. by subst x.
  - split.
    + destruct IH1 as [IH1 | (zi & ? & ? & ? & ?)]; [by left|].
      right. exists zi. repeat split; [done| |done|done].
      apply elem_of_app. by left.
    + intros k v [Hin | Hin]%elem_of_app Hk; [by eapply IH2|].
      apply list_elem_of_singleton in Hin. subst x. simpl in *. congruence.
Qed.

(** What the loop returns, for every order in which the runtime
    enumerates the map. *)
Lemma GetZoneForName_in_spec s l (qname : string) :
  l ≡ₚ map_to_list s →
  match GetZoneForName_in l qname with
  | (Some z, best) =>
      s !! best = Some z ∧ best ≠ ""
      ∧ HasSuffix (ToLower qname) best = true
      ∧ ∀ k, is_Some (s !! k) → HasSuffix (ToLower qname) k = true →
             (len k ≤ len best)%nat
  | (None, best) =>
      best = ""
      ∧ ∀ k, is_Some (s !! k) → HasSuffix (ToLower qname) k = true → k = ""
  end.
Proof.
  intros Hperm. unfold GetZoneForName_in.
  destruct (zone_loop_invariant (ToLower qname) l) as [H1 H2].
  assert (Hbound : ∀ k, is_Some (s !! k) → HasSuffix (ToLower qname) k = true →
                        (len k ≤ len (fold_left (zoneStep (ToLower qname)) l (None, "")).2)%nat).
  { intros k [v Hv] Hk. apply (H2 k v); [|done].
    rewrite Hperm. by apply elem_of_map_to_list. }
  destruct (fold_left (zoneStep (ToLower qname)) l (None, "")) as [z best].
  simpl in *. destruct H1 as [H1 | (zi & -> & Hin & Hsuf & Hne)].
  - injection H1 as -> ->. split; [done|].
    intros k Hk Hsuf. specialize (Hbound k Hk Hsuf).
    destruct k; [done|]. unfold len in Hbound. simpl in Hbound. lia.
  - repeat split; [|done..].
    rewrite Hperm in Hin. by apply elem_of_map_to_list in Hin.
Qed.

(** Hence the result does not depend on the enumeration order. *)
Lemma GetZoneForName_order_irrelevant s l (qname : string) :
  l ≡ₚ map_to_list s → GetZoneForName_in l qname = GetZoneForName s qname.
Proof.
  intros Hperm. unfold GetZoneForName.
  pose proof (GetZoneForName_in_spec s l qname Hperm) as Hl.
  pose proof (GetZoneForName_in_spec s (map_to_list s) qname (reflexivity _)) as Hs.
  destruct (GetZoneForName_in l qname) as [[z|] best];
    destruct (GetZoneForName_in (map_to_list s) qname) as [[z'|] best'].
  - destruct Hl as (Hz & _ & Hsuf & Hmax), Hs as (Hz' & _ & Hsuf' & Hmax').
    assert (best = best') as <-.
    { eapply HasSuffix_same_len; [done..|].
      apply Nat.le_antisymm; [apply Hmax' | apply Hmax]; eauto. }
    congruence.
  - destruct Hl as (Hz & Hne & Hsuf & _), Hs as (_ & Hnone).
    destruct Hne. apply Hnone; eauto.
  - destruct Hs as (Hz & Hne & Hsuf & _), Hl as (_ & Hnone).
    destruct Hne. apply Hnone; eauto.
  - destruct Hl as [-> _], Hs as [-> _]. done.
Qed.

(** A query for the (non-empty) FQDN of an installed zone finds that
    very zone: a suffix need not be proper. *)
Lemma GetZoneForName_installed s (qname : string) (zi : ZoneIndex) :
  s !! ToLower qname = Some zi → ToLower qname ≠ "" →
  GetZoneForName s qname = (Some zi, ToLower qname).
Proof.
  intros Hz Hne.
  pose proof (GetZoneForName_in_spec s (map_to_list s) qname (reflexivity _)) as Hs.
  fold (GetZoneForName s qname) in Hs.
  destruct (GetZoneForName s qname) as [[z|] best].
  - destruct Hs as (Hbest & _ & Hsuf & Hmax).
    assert (best = ToLower qname) as ->; [|congruence].
    eapply HasSuffix_same_len; [done | apply HasSuffix_refl |].
    apply Nat.le_antisymm; [by apply HasSuffix_len|].
    apply Hmax; [eauto | apply HasSuffix_refl].
  - destruct Hs as (_ & Hnone). destruct Hne.
    apply Hnone; [eauto | apply HasSuffix_refl].
Qed.

End StoreFacts.

(* ===================================================================== *)
(** * The response cache: zone invalidation *)
(* ===================================================================== *)

Section LruFacts.
Context {K V : Type} `{EqDecision K}.
Implicit Types (k : K) (l : list (K * V)) (c : lru.Cache K V).

Lemma find_without_eq k l : lru.find k (lru.without k l) = None.
Proof.
  unfold lru.without. induction l as [|[k' v] l IH]; [done|].
  rewrite filter_cons. simpl. destruct (decide (k' ≠ k)) as [Hne|Heq]; [|done].
  simpl. by destruct (decide (k' = k)).
Qed.

Lemma find_without_None k k' l :
  lru.find k l = None → lru.find k (lru.without k' l) = None.
Proof.
  unfold lru.without. induction l as [|[k1 v] l IH]; [done|].
  simpl. destruct (decide (k1 = k)) as [->|Hne]; [done|]. intros Hl.
  rewrite filter_cons. simpl. destruct (decide (k1 ≠ k')); [|by apply IH].
  simpl. destruct (decide (k1 = k)); [done | by apply IH].
Qed.

Lemma find_not_key k l : k ∉ map fst l → lru.find k l = None.
Proof.
  induction l as [|[k1 v] l IH]; [done|]. simpl. intros Hnotin.
  destruct (decide (k1 = k)) as [->|Hne].
  - destruct Hnotin. by left.
  - apply IH. intros Hin. apply Hnotin. by right.
Qed.

(** Removing, key by key, the keys of [ks] that satisfy [P] leaves no
    entry under a key that satisfies [P]. *)
Lemma remove_matching_keys (P : K → bool) (ks : list K) c k :
  P k = true → k ∈ ks ∨ lru.find k (lru.items c) = None →
  lru.find k (lru.items
     (fold_left (λ p k', if P k' then lru.Remove k' p else p) ks c)) = None.
Proof.
  intros HP. revert c. induction ks as [|k' ks IH]; intros c Hk; simpl.
  - destruct Hk as [Hk | Hk]; [by apply elem_of_nil in Hk | done].
  - apply IH. destruct Hk as [[-> | Hk]%elem_of_cons | Hk].
    + right. rewrite HP. apply find_without_eq.
    + by left.
    + right. destruct (P k'); [|done]. simpl. by apply find_without_None.
Qed.

Lemma remove_matching_all (P : K → bool) c k :
  P k = true →
  lru.find k (lru.items
     (fold_left (λ p k', if P k' then lru.Remove k' p else p) (lru.Keys c) c))
  = None.
Proof.
  intros HP. apply remove_matching_keys; [done|].
  destruct (decide (k ∈ map fst (lru.items c))) as [Hin | Hnotin].
  - left. unfold lru.Keys. by apply elem_of_reverse.
  - right. by apply find_not_key.
Qed.

End LruFacts.

(** After [InvalidateZone(zone)] neither cache holds an entry whose
    name ends with the lowercased [zone]. *)
Lemma InvalidateZone_removes {T} (c : RRCaches T) (zone name : string)
  (qtype rcode : Z) :
  HasSuffix name (ToLower zone) = true →
  lru.find (name, qtype) (lru.items (pos (InvalidateZone c zone))) = None
  ∧ lru.find (name, qtype, rcode) (lru.items (neg (InvalidateZone c zone))) = None.
Proof.
  intros Hsuf. unfold InvalidateZone. simpl. split.
  - by apply (remove_matching_all (λ k : string * Z, HasSuffix k.1 (ToLower zone))).
  - by apply (remove_matching_all
                (λ k : string * Z * Z, HasSuffix k.1.1 (ToLower zone))).
Qed.

(* ===================================================================== *)
(** * Zone selection: the properties of the specification *)
(* ===================================================================== *)

Section ZoneSelection.
#[local] Existing Instance plainLibs.

(** C5 (amended).  [GetZoneForName] returns the zone whose FQDN is the
    longest suffix of the lowercased qname, the suffix being allowed to be
    the whole qname, and none exactly when no non-empty zone FQDN is a
    suffix of it; this holds for every order in which the map is
    enumerated.  A qname equal to the FQDN of an installed zone is
    matched by that zone itself. *)
Theorem GetZoneForName_longest_suffix (s : gmap string ZoneIndex)
  (order : list (string * ZoneIndex)) (qname : string) :
  order ≡ₚ map_to_list s →
  match GetZoneForName_in order qname with
  | (Some z, best) =>
      s !! best = Some z ∧ best ≠ ""
      ∧ HasSuffix (ToLower qname) best = true
      ∧ ∀ k, is_Some (s !! k) → HasSuffix (ToLower qname) k = true →
             (len k ≤ len best)%nat
  | (None, best) =>
      best = ""
      ∧ ∀ k, is_Some (s !! k) → HasSuffix (ToLower qname) k = true → k = ""
  end
  ∧ (∀ zi, s !! ToLower qname = Some zi → ToLower qname ≠ "" →
           GetZoneForName_in order qname = (Some zi, ToLower qname)).
Proof.
  intros Hperm. split; [by apply GetZoneForName_in_spec|].
  intros zi Hz Hne. rewrite (GetZoneForName_order_irrelevant s order qname Hperm).
  by apply GetZoneForName_installed.
Qed.

(** The theorem at a store with the one zone [example.com.] and a qname
    in mixed case below it. *)
Lemma GetZoneForName_longest_suffix_witness :
  GetZoneForName_in [("example.com.", indexOf zoneParent)] "WWW.Example.COM."
  = (Some (indexOf zoneParent), "example.com.").
Proof.
  pose proof (GetZoneForName_longest_suffix
                {[ "example.com." := indexOf zoneParent ]}
                [("example.com.", indexOf zoneParent)] "WWW.Example.COM.") as Hspec.
  destruct Hspec as [Hspec _].
  { by rewrite map_to_list_singleton. }
  destruct (GetZoneForName_in [("example.com.", indexOf zoneParent)]
              "WWW.Example.COM.") as [[z|] best].
  - destruct Hspec as (Hz & Hne & _ & _).
    destruct (decide (best = "example.com.")) as [->|Hk].
    + rewrite lookup_singleton_eq in Hz. congruence.
    + by rewrite lookup_singleton_ne in Hz.
  - destruct Hspec as (_ & Hnone).
    specialize (Hnone "example.com.").
    rewrite lookup_singleton_eq in Hnone.
    discriminate Hnone; [eauto | by vm_compute].
Defined.

(** C5 as stated fails: the zone found for a qname can be the qname
    itself, with no strictly shorter enclosing zone involved. *)
Lemma GetZoneForName_proper_suffix_counterexample :
  ¬ (∀ (s : gmap string ZoneIndex) (qname : string) z best,
       GetZoneForName s qname = (Some z, best) → best ≠ ToLower qname).
Proof.
  intros Hclaim.
  apply (Hclaim {[ "example.com." := indexOf zoneParent ]} "example.com."
                (indexOf zoneParent) "example.com."); by vm_compute.
Qed.

(** C10.  Zone matching is a test on raw string suffixes: with
    [example.com.] loaded, the name [notexample.com.] is neither that zone
    nor a subdomain of it, yet [GetZoneForName] assigns it to the zone and
    [InvalidateZone] of the zone removes its entries from both caches (an
    entry that was retrievable before is gone afterwards). *)
Theorem suffix_match_ignores_label_boundary :
  let z := "example.com." in
  let qname := "notexample.com." in
  let s := SwapZone NewStore (indexOf zoneParent) in
  s !! z = Some (indexOf zoneParent)
  ∧ qname ≠ z
  ∧ (∀ p, qname ≠ p +:+ "." +:+ z)
  ∧ GetZoneForName s qname = (Some (indexOf zoneParent), z)
  ∧ (∀ (c : RRCaches dns.Msg) (qtype rcode : Z),
       lru.find (key qname qtype) (lru.items (pos (InvalidateZone c z))) = None
       ∧ lru.find (ToLower qname, qtype, rcode)
                  (lru.items (neg (InvalidateZone c z))) = None)
  ∧ (∀ (m : dns.Msg) (now : Z),
       let c := PutPositive emptyCaches qname dns.TypeA m (300 * Second) now in
       (GetPositive c qname dns.TypeA now).1 = Some m
       ∧ (GetPositive (InvalidateZone c z) qname dns.TypeA now).1 = None).
Proof.
  intros z qname s. split_and!.
  - by vm_compute.
  - by vm_compute.
  - intros p Heq.
    assert (HasSuffix qname ("." +:+ z) = true) as Hs
      by (apply HasSuffix_spec; by exists p).
    by vm_compute in Hs.
  - by vm_compute.
  - intros c qtype rcode. by apply InvalidateZone_removes.
  - intros m now c. split.
    + unfold c, GetPositive, PutPositive, emptyCaches, lru.Add, lru.Get. simpl.
      destruct (decide (key qname dns.TypeA = key qname dns.TypeA)); [|done].
      simpl. destruct (Z.ltb_spec now (now + 300 * Second)) as [_|Hge]; [done|].
      unfold Second in Hge. lia.
    + unfold GetPositive.
      pose proof (InvalidateZone_removes c z qname dns.TypeA 0 (eq_refl _))
        as [Hpos _].
      unfold lru.Get. change (key qname dns.TypeA) with (qname, dns.TypeA).
      by rewrite Hpos.
Qed.

End ZoneSelection.

(* ===================================================================== *)
(** * The loader: which names an accepted zone stores *)
(* ===================================================================== *)

Section LoaderFacts.
Context `{GoLibs}.

Lemma bindR_Ok {A B} (r : Result A) (k : A → Result B) (b : B) :
  bindR r k = Ok b → ∃ a, r = Ok a ∧ k a = Ok b.
Proof. destruct r as [a|e]; simpl; [eauto | done]. Qed.

Lemma Validate_Ok (zf z : ZoneFile) :
  Validate (Some zf) = Ok z →
  zf_Records z = zf_Records zf ∧ zf_Zone z ≠ "" ∧ HasSuffix (zf_Zone z) "." = true.
Proof.
  unfold Validate. destruct (String.eqb_spec (zf_Zone zf) "") as [|Hne]; [done|].
  destruct (HasSuffix (zf_Zone zf) ".") eqn:Hdot.
  - repeat case_match; try done. intros [= <-]. done.
  - repeat case_match; try done. intros [= <-]. simpl. split_and!; [done| |].
    + by destruct (zf_Zone zf).
    + apply HasSuffix_spec. by exists (zf_Zone zf).
Qed.

Lemma ToIndex_Ok (zf : ZoneFile) (zi : ZoneIndex) :
  ToIndex zf = Ok zi →
  ∃ z by_,
    Validate (Some zf) = Ok z
    ∧ foldR (addRecord (MustFQDN (zf_Zone z)) (zf_TTLDefault z)) (zf_Records z)
            (apexNS z (MustFQDN (zf_Zone z))) = Ok by_
    ∧ ZoneFQDN zi = ToLower (MustFQDN (zf_Zone z))
    ∧ Serial zi = zf_Serial zf
    ∧ ByName zi = by_.
Proof.
  unfold ToIndex. intros (z & Hval & Hrest)%bindR_Ok.
  apply bindR_Ok in Hrest as (by_ & Hfold & [= <-]).
  exists z, by_. split_and!; try done.
  revert Hval. unfold Validate. repeat case_match; try done; by intros [= <-].
Qed.

(** One record adds at most its own normalised name to the index. *)
Lemma addRecord_names (zone : string) (def : Z)
  (by0 by1 : gmap string (gmap string RRSet)) (r : RawRecord) (name : string) :
  addRecord zone def by0 r = Ok by1 → is_Some (by1 !! name) →
  is_Some (by0 !! name) ∨ name = NormalizeFQDN (raw_Name r) zone.
Proof.
  unfold addRecord, ensureName, store_name, appendRRSet.
  intros Hadd Hname.
  destruct (decide (name = NormalizeFQDN (raw_Name r) zone)) as [|Hne]; [by right|].
  left. revert Hadd Hname.
  destruct (by0 !! NormalizeFQDN (raw_Name r) zone) eqn:Hby;
    repeat (case_match; try done);
    repeat (intros (? & ? & Hadd)%bindR_Ok; revert Hadd);
    intros [= <-]; rewrite ?lookup_insert_ne by done; done.
Qed.

Lemma foldR_addRecord_names (zone : string) (def : Z) (rs : list RawRecord)
  (by0 by1 : gmap string (gmap string RRSet)) (name : string) :
  foldR (addRecord zone def) rs by0 = Ok by1 → is_Some (by1 !! name) →
  is_Some (by0 !! name)
  ∨ ∃ r, r ∈ rs ∧ name = NormalizeFQDN (raw_Name r) zone.
Proof.
  revert by0. induction rs as [|r rs IH]; intros by0; simpl.
  - intros [= <-]. by left.
  - intros (by' & Hadd & Hfold)%bindR_Ok Hname.
    destruct (IH by' Hfold Hname) as [Hin | (r' & Hr' & ->)].
    + destruct (addRecord_names _ _ _ _ _ _ Hadd Hin) as [Hin0 | ->]; [by left|].
      right. exists r. split; [by left | done].
    + right. exists r'. split; [by right | done].
Qed.

Lemma apexNS_names (z : ZoneFile) (zone name : string) :
  is_Some (apexNS z zone !! name) → name = ToLower zone.
Proof.
  unfold apexNS, ensureName, store_name. case_match.
  - rewrite lookup_empty. destruct (decide (name = ToLower zone)) as [|Hne]; [done|].
    rewrite !lookup_insert_ne by done. rewrite lookup_empty. by intros [? ?].
  - rewrite lookup_empty. by intros [? ?].
Qed.

Lemma ToLower_dot_suffix (a zone : string) :
  HasSuffix (ToLower (a +:+ "." +:+ zone)) (ToLower zone) = true.
Proof.
  rewrite !ToLower_app. apply HasSuffix_spec.
  exists (ToLower a +:+ ToLower "."). by rewrite str_app_assoc.
Qed.

End LoaderFacts.

Section LoaderClaims.
Context `{GoLibs}.

(** C8 (amended).  For every zone file the loader accepts, every name
    stored in the index ends with the zone's FQDN or is the lowercased
    absolute (trailing-dot) name of one of the records, which the loader
    stores as written without comparing it with the zone. *)
Theorem ToIndex_stored_names (zf : ZoneFile) (zi : ZoneIndex) (name : string) :
  ToIndex zf = Ok zi → is_Some (ByName zi !! name) →
  HasSuffix name (ZoneFQDN zi) = true
  ∨ ∃ r, r ∈ zf_Records zf ∧ HasSuffix (raw_Name r) "." = true
         ∧ name = ToLower (raw_Name r).
Proof.
  intros (z & by_ & Hval & Hfold & Hfqdn & _ & Hby)%ToIndex_Ok Hname.
  apply Validate_Ok in Hval as (Hrecs & _ & _).
  rewrite Hby in Hname. rewrite Hfqdn, <- Hrecs.
  destruct (foldR_addRecord_names _ _ _ _ _ _ Hfold Hname)
    as [Hapex | (r & Hr & ->)].
  - left. apply apexNS_names in Hapex as ->. apply HasSuffix_refl.
  - unfold NormalizeFQDN.
    destruct (String.eqb (raw_Name r) "@" || String.eqb (raw_Name r) "").
    + left. apply HasSuffix_refl.
    + destruct (HasSuffix (raw_Name r) ".") eqn:Hdot.
      * right. by exists r.
      * left. apply ToLower_dot_suffix.
Qed.

End LoaderClaims.

Section LoaderExamples.
#[local] Existing Instance plainLibs.

(** The theorem at the zone with the alias www and the stored name
    [www.example.com.]. *)
Lemma ToIndex_stored_names_witness :
  HasSuffix "www.example.com." (ZoneFQDN (indexOf zoneWww)) = true
  ∨ ∃ r, r ∈ zf_Records zoneWww ∧ HasSuffix (raw_Name r) "." = true
         ∧ "www.example.com." = ToLower (raw_Name r).
Proof.
  apply (ToIndex_stored_names zoneWww (indexOf zoneWww) "www.example.com.").
  - vm_compute. reflexivity.
  - vm_compute. eexists. reflexivity.
Defined.

(** C8 as stated fails: a zone file with a record at the absolute name
    [www.other.net.] is accepted, and that name is stored in the index of
    the zone [example.com.]. *)
Lemma ToIndex_outside_name_counterexample :
  ¬ (∀ (zf : ZoneFile) (zi : ZoneIndex) (name : string),
       ToIndex zf = Ok zi → is_Some (ByName zi !! name) →
       HasSuffix name (ZoneFQDN zi) = true).
Proof.
  intros Hclaim.
  specialize (Hclaim zoneOutside (indexOf zoneOutside) "www.other.net.").
  assert (HasSuffix "www.other.net." (ZoneFQDN (indexOf zoneOutside)) = true) as Hs.
  { apply Hclaim.
    - vm_compute. reflexivity.
    - vm_compute. eexists. reflexivity. }
  vm_compute in Hs. discriminate Hs.
Qed.

(** The guard of the CNAME case lets a single RRset of another type
    pass: it reports "other types" only for a lone CNAME. *)
Lemma hasOtherTypes_single (t : string) (rs : RRSet) :
  hasOtherTypes {[ t := rs ]} = bool_decide (t = TypeCNAME).
Proof.
  unfold hasOtherTypes. rewrite map_size_singleton. simpl.
  destruct (decide (t = TypeCNAME)) as [->|Hne].
  - rewrite lookup_singleton_eq. rewrite bool_decide_eq_true_2 by eauto.
    by rewrite bool_decide_eq_true_2.
  - rewrite lookup_singleton_ne by done.
    rewrite bool_decide_eq_false_2 by (by intros [? ?]).
    by rewrite bool_decide_eq_false_2.
Qed.

(** C1 (the loader breaks it).  The loader accepts a zone file with a TXT
    record and a CNAME at the same name, in either order, and one with a
    CNAME at the apex next to the NS RRset; the index then holds a CNAME
    RRset and an RRset of another type at one name. *)
Theorem ToIndex_accepts_cname_beside_other_type :
  let rrset zf name t := ByName (indexOf zf) !! name ≫= (λ m, m !! t) in
  (ToIndex zoneTxtThenCname = Ok (indexOf zoneTxtThenCname)
   ∧ is_Some (rrset zoneTxtThenCname "www.example.com." TypeCNAME)
   ∧ is_Some (rrset zoneTxtThenCname "www.example.com." TypeTXT))
  ∧ (ToIndex zoneCnameThenTxt = Ok (indexOf zoneCnameThenTxt)
     ∧ is_Some (rrset zoneCnameThenTxt "www.example.com." TypeCNAME)
     ∧ is_Some (rrset zoneCnameThenTxt "www.example.com." TypeTXT))
  ∧ (ToIndex zoneApexCname = Ok (indexOf zoneApexCname)
     ∧ is_Some (rrset zoneApexCname "example.com." TypeCNAME)
     ∧ is_Some (rrset zoneApexCname "example.com." TypeNS)).
Proof.
  split_and!; vm_compute; first [reflexivity | eexists; reflexivity].
Qed.

End LoaderExamples.

(* ===================================================================== *)
(** * The query engine *)
(* ===================================================================== *)

Section HandlerFacts.
Context `{GoLibs}.

Lemma findWildcard_Some (zi : ZoneIndex) (name qt : string) (wcs : list string)
  (res : list dns.RR * Z) :
  findWildcard zi name qt wcs = Some res →
  existsb (λ wc, bool_decide (is_Some (ByName zi !! wc))) wcs = true.
Proof.
  induction wcs as [|wc wcs IH]; simpl; [done|].
  destruct (ByName zi !! wc) as [m|] eqn:Hwc.
  - intros _. rewrite bool_decide_eq_true_2 by eauto. done.
  - intros Hrest. rewrite (IH Hrest). apply orb_true_r.
Qed.

(** Whatever [findRRSet] finds for a name, it finds at the name itself or
    at one of its wildcard candidates. *)
Lemma findRRSet_Some (zi : ZoneIndex) (name : string) (qtype : Z)
  (res : list dns.RR * Z) :
  findRRSet zi name qtype = Some res →
  hasName zi name || hasWildcardCandidate zi name = true.
Proof.
  unfold findRRSet, hasName, hasWildcardCandidate.
  destruct (ByName zi !! name) as [m|] eqn:Hname; simpl.
  - done.
  - intros Hw%findWildcard_Some. by rewrite Hw.
Qed.

(** The loop detection: a name met again ends the query with
    ServerFailure and no records. *)
Lemma lookupLoop_revisit (zi : ZoneIndex) (qtype : Z) (n : nat) (cur : string)
  (visited : gset string) (ans : list dns.RR) (ttl : Z) :
  findRRSet zi cur qtype = None → cur ∈ visited →
  lookupLoop zi qtype (S n) cur visited ans ttl
  = LoopReturn [] [] dns.RcodeServerFailure 0.
Proof.
  intros Hfind Hin. simpl. rewrite Hfind. by rewrite decide_True.
Qed.

(** If the loop is left with answers collected, the first name has a
    CNAME (its own or a wildcard's). *)
Lemma lookupLoop_left_after_cname (zi : ZoneIndex) (qtype : Z) (n : nat)
  (name cur : string) (visited : gset string) (ans : list dns.RR) (ttl0 ttl : Z) :
  lookupLoop zi qtype n name visited [] ttl0 = LoopLeft cur ans ttl →
  ans ≠ [] →
  ∃ res, findRRSet zi name dns.TypeCNAME = Some res.
Proof.
  destruct n as [|n]; simpl.
  - intros [= _ <- _]. done.
  - destruct (findRRSet zi name qtype) as [[rrset t]|]; [done|].
    destruct (decide (name ∈ visited)); [done|].
    destruct (findRRSet zi name dns.TypeCNAME) as [res|]; [eauto|].
    intros [= _ <- _]. done.
Qed.

(** The TTL that the loop returns with a terminal answer is the TTL of
    the RRset found last; the minimum accumulated in [ttl] while CNAMEs
    were followed does not enter the result. *)
Lemma lookupLoop_returns_last_ttl (zi : ZoneIndex) (qtype : Z) (n : nat)
  (cur : string) (visited : gset string) (ans0 : list dns.RR) (ttl0 : Z)
  (ans addl : list dns.RR) (ttl : Z) :
  lookupLoop zi qtype n cur visited ans0 ttl0
  = LoopReturn ans addl dns.RcodeSuccess ttl →
  ∃ cur' rrset pre,
    findRRSet zi cur' qtype = Some (rrset, ttl) ∧ ans = pre ++ rrset
    ∧ addl = addAdditionals zi rrset.
Proof.
  revert cur visited ans0 ttl0.
  induction n as [|n IH]; intros cur visited ans0 ttl0; simpl; [done|].
  destruct (findRRSet zi cur qtype) as [[rrset t]|] eqn:Hfind.
  - intros [= <- <- <-]. by exists cur, rrset, ans0.
  - destruct (decide (cur ∈ visited)); [done|].
    destruct (findRRSet zi cur dns.TypeCNAME) as [[rrset t]|]; [|done].
    destruct rrset as [|[] rrset]; try done. apply IH.
Qed.


End HandlerFacts.

Section HandlerClaims.
Context `{GoLibs}.

(** C2 (amended).  When the resolution loop is left without a terminal
    answer, the result is decided on the original qname (lowercased and
    fully qualified), not on the name reached through CNAMEs: NOERROR with
    an empty answer if the qname is in the index or has a wildcard
    candidate, NXDOMAIN otherwise.  So once a CNAME has been followed the
    result is NOERROR with an empty answer, whatever name was reached. *)
Theorem lookup_nodata_on_qname (zi : ZoneIndex) (qname : string) (qtype : Z)
  (cur : string) (ans : list dns.RR) (ttl : Z) :
  lookupLoop zi qtype maxCNAME (ToLower (Fqdn qname)) ∅ [] 0 = LoopLeft cur ans ttl →
  lookup zi qname qtype
  = Returns ([], [],
             if hasName zi (ToLower (Fqdn qname))
                || hasWildcardCandidate zi (ToLower (Fqdn qname))
             then dns.RcodeSuccess else dns.RcodeNameError, 0)
  ∧ (ans ≠ [] → lookup zi qname qtype = Returns ([], [], dns.RcodeSuccess, 0)).
Proof.
  intros Hloop. unfold lookup. rewrite Hloop. split.
  - by destruct (hasName _ _ || hasWildcardCandidate _ _).
  - intros Hans.
    destruct (lookupLoop_left_after_cname _ _ _ _ _ _ _ _ _ Hloop Hans) as [res Hres].
    by rewrite (findRRSet_Some _ _ _ _ Hres).
Qed.

(** C7 (amended).  The additional section is, answer by answer and in
    order, what the host of an MX or NS answer contributes (other answers
    contribute nothing).  A host that is a name of the same zone's index
    contributes one A record per address of the A RRset stored under its
    name, in their order, and then one AAAA record per address of the
    AAAA RRset, each with the host's lowercased fully qualified name as
    owner, class IN and the TTL of its RRset; a host that is not a name
    of the index contributes nothing, and every additional record comes
    from such an RRset.  Nothing suppresses duplicates: a host referred to
    by several answers contributes its records once per answer. *)
Theorem addAdditionals_per_answer (zi : ZoneIndex) (answers : list dns.RR) :
  let hostRecords rr :=
    match rr with
    | dns.MX _ _ mx => lookupAorAAAA zi mx
    | dns.NS _ ns => lookupAorAAAA zi ns
    | _ => []
    end in
  addAdditionals zi answers = flat_map hostRecords answers
  ∧ (∀ host m,
       ByName zi !! ToLower (Fqdn host) = Some m →
       (∀ t rs, m !! t = Some rs → rs_Type rs = t) →
       lookupAorAAAA zi host
       = match m !! TypeA with
         | Some rs => map (λ ip, dns.A (mkHdr (ToLower (Fqdn host)) dns.TypeA
                                          (rs_TTL rs)) ip) (rs_A rs)
         | None => []
         end
         ++ match m !! TypeAAAA with
            | Some rs => map (λ ip, dns.AAAA (mkHdr (ToLower (Fqdn host)) dns.TypeAAAA
                                                (rs_TTL rs)) ip) (rs_AAAA rs)
            | None => []
            end)
  ∧ (∀ host, ByName zi !! ToLower (Fqdn host) = None → lookupAorAAAA zi host = [])
  ∧ (∀ host rr, rr ∈ lookupAorAAAA zi host →
       ∃ m rs, ByName zi !! ToLower (Fqdn host) = Some m
               ∧ (m !! TypeA = Some rs ∨ m !! TypeAAAA = Some rs)
               ∧ rr ∈ toRR (ToLower (Fqdn host)) rs)
  ∧ (∀ rr, addAdditionals zi [rr; rr] = hostRecords rr ++ hostRecords rr).
Proof.
  intros hostRecords.
  assert (Hflat : ∀ l, addAdditionals zi l = flat_map hostRecords l).
  { intros l. unfold addAdditionals.
    rewrite <- (app_nil_l (flat_map hostRecords l)). generalize (@nil dns.RR).
    induction l as [|rr l IH]; intros extra; simpl.
    - by rewrite app_nil_r.
    - rewrite IH, app_assoc. by destruct rr; simpl; rewrite ?app_nil_r. }
  split_and!.
  - apply Hflat.
  - intros host m Hm Hty. unfold lookupAorAAAA. rewrite Hm. f_equal.
    + destruct (m !! TypeA) as [rs|] eqn:HA; [|done].
      unfold toRR. by rewrite (Hty _ _ HA).
    + destruct (m !! TypeAAAA) as [rs|] eqn:HA; [|done].
      unfold toRR. by rewrite (Hty _ _ HA).
  - intros host Hnone. unfold lookupAorAAAA. by rewrite Hnone.
  - intros host rr. unfold lookupAorAAAA.
    destruct (ByName zi !! ToLower (Fqdn host)) as [m|]; [|by intros ?%elem_of_nil].
    intros [Hin | Hin]%elem_of_app.
    + destruct (m !! TypeA) as [rs|] eqn:HA; [|by apply elem_of_nil in Hin].
      exists m, rs. eauto.
    + destruct (m !! TypeAAAA) as [rs|] eqn:HA; [|by apply elem_of_nil in Hin].
      exists m, rs. eauto.
  - intros rr. rewrite Hflat. simpl. by rewrite app_nil_r.
Qed.

End HandlerClaims.

Section HandlerExamples.
#[local] Existing Instance plainLibs.

(** The theorem at the alias with the missing target: the loop is left
    at [gone.example.net.] and the answer is NOERROR without records. *)
Lemma lookup_nodata_on_qname_witness :
  lookup (indexOf zoneDangling) "www.example.com." dns.TypeA
  = Returns ([], [], dns.RcodeSuccess, 0).
Proof.
  pose proof (lookup_nodata_on_qname (indexOf zoneDangling) "www.example.com."
                dns.TypeA "gone.example.net."
                [dns.CNAME (mkHdr "www.example.com." dns.TypeCNAME 300)
                           "gone.example.net."] 300) as Hthm.
  destruct Hthm as [_ Hnodata]; [by vm_compute|].
  by apply Hnodata.
Defined.

(** C2 as stated fails: www is an alias of a name that is not in the
    index and has no wildcard candidate, the loop is left at that name,
    and the answer is NOERROR, not NXDOMAIN. *)
Lemma lookup_cur_name_counterexample :
  ¬ (∀ (zi : ZoneIndex) (qname : string) (qtype : Z) cur ans ttl,
       lookupLoop zi qtype maxCNAME (ToLower (Fqdn qname)) ∅ [] 0
       = LoopLeft cur ans ttl →
       lookup zi qname qtype
       = Returns ([], [],
                  if hasName zi cur || hasWildcardCandidate zi cur
                  then dns.RcodeSuccess else dns.RcodeNameError, 0)).
Proof.
  intros Hclaim.
  specialize (Hclaim (indexOf zoneDangling) "www.example.com." dns.TypeA
                "gone.example.net."
                [dns.CNAME (mkHdr "www.example.com." dns.TypeCNAME 300)
                           "gone.example.net."] 300).
  assert (Hloop : lookupLoop (indexOf zoneDangling) dns.TypeA maxCNAME
                    (ToLower (Fqdn "www.example.com.")) ∅ [] 0
                  = LoopLeft "gone.example.net."
                      [dns.CNAME (mkHdr "www.example.com." dns.TypeCNAME 300)
                                 "gone.example.net."] 300) by (by vm_compute).
  specialize (Hclaim Hloop). by vm_compute in Hclaim.
Qed.

(** In the index with the dual-stack mail host every RRset of that host
    is stored under its own type. *)
Lemma dualStack_types (t : string) (rs : RRSet) :
  namesAt indexDualStack "mail.example.com." !! t = Some rs → rs_Type rs = t.
Proof.
  assert (namesAt indexDualStack "mail.example.com."
          = <[TypeA := rrsetAt indexDualStack "mail.example.com." TypeA]>
              (<[TypeAAAA := rrsetAt indexDualStack "mail.example.com." TypeAAAA]> ∅))
    as -> by (by vm_compute).
  intros [[<- <-] | [_ Hrest]]%lookup_insert_Some; [by vm_compute|].
  apply lookup_insert_Some in Hrest as [[<- <-] | [_ Hrest]]; [by vm_compute|].
  by rewrite lookup_empty in Hrest.
Qed.

(** The theorem at the two MX answers of the mail zone, which name the
    same host: its address record is put in twice.  And at a zone whose
    mail host has an A and an AAAA RRset, with an NS answer for a host
    outside the zone between the two MX answers: the host contributes its
    A and then its AAAA record for each of the MX answers, the outside
    host nothing. *)
Lemma addAdditionals_per_answer_witness :
  addAdditionals (indexOf zoneMail)
    [dns.MX (mkHdr "example.com." dns.TypeMX 600) 10 "mail.example.com.";
     dns.MX (mkHdr "example.com." dns.TypeMX 600) 20 "mail.example.com."]
  = [dns.A (mkHdr "mail.example.com." dns.TypeA 300) [192; 0; 2; 5];
     dns.A (mkHdr "mail.example.com." dns.TypeA 300) [192; 0; 2; 5]]
  ∧ addAdditionals indexDualStack
      [dns.MX (mkHdr "example.com." dns.TypeMX 600) 10 "Mail.Example.com";
       dns.NS (mkHdr "example.com." dns.TypeNS 300) "ns1.example.net.";
       dns.MX (mkHdr "example.com." dns.TypeMX 600) 20 "mail.example.com."]
    = [dns.A (mkHdr "mail.example.com." dns.TypeA 300) [192; 0; 2; 5];
       dns.AAAA (mkHdr "mail.example.com." dns.TypeAAAA 120)
                [32; 1; 13; 184; 0; 0; 0; 0; 0; 0; 0; 0; 0; 0; 0; 5];
       dns.A (mkHdr "mail.example.com." dns.TypeA 300) [192; 0; 2; 5];
       dns.AAAA (mkHdr "mail.example.com." dns.TypeAAAA 120)
                [32; 1; 13; 184; 0; 0; 0; 0; 0; 0; 0; 0; 0; 0; 0; 5]].
Proof.
  split.
  - destruct (addAdditionals_per_answer (indexOf zoneMail)
      [dns.MX (mkHdr "example.com." dns.TypeMX 600) 10 "mail.example.com.";
       dns.MX (mkHdr "example.com." dns.TypeMX 600) 20 "mail.example.com."])
      as (Hflat & _).
    rewrite Hflat. by vm_compute.
  - destruct (addAdditionals_per_answer indexDualStack
      [dns.MX (mkHdr "example.com." dns.TypeMX 600) 10 "Mail.Example.com";
       dns.NS (mkHdr "example.com." dns.TypeNS 300) "ns1.example.net.";
       dns.MX (mkHdr "example.com." dns.TypeMX 600) 20 "mail.example.com."])
      as (Hflat & Hrecords & Hnone & _).
    rewrite Hflat. simpl.
    rewrite (Hnone "ns1.example.net.") by (by vm_compute).
    rewrite (Hrecords "Mail.Example.com"
               (namesAt indexDualStack "mail.example.com."));
      [|by vm_compute|].
    + rewrite (Hrecords "mail.example.com."
                 (namesAt indexDualStack "mail.example.com."));
        [by vm_compute|by vm_compute|].
      apply dualStack_types.
    + apply dualStack_types.
Defined.

(** C7 as stated fails: two MX answers name the same mail host, and its
    address record appears twice in the additional section. *)
Lemma addAdditionals_duplicates_counterexample :
  ¬ (∀ (zi : ZoneIndex) (qname : string) (qtype : Z) ans addl rcode ttl,
       lookup zi qname qtype = Returns (ans, addl, rcode, ttl) → NoDup addl).
Proof.
  intros Hclaim.
  pose (a := dns.A (mkHdr "mail.example.com." dns.TypeA 300) [192; 0; 2; 5]).
  assert (NoDup [a; a]) as Hdup.
  { apply (Hclaim (indexOf zoneMail) "example.com." dns.TypeMX
             [dns.MX (mkHdr "example.com." dns.TypeMX 600) 10 "mail.example.com.";
              dns.MX (mkHdr "example.com." dns.TypeMX 600) 20 "mail.example.com."]
             [a; a] dns.RcodeSuccess 600).
    by vm_compute. }
  apply NoDup_cons in Hdup as [Hnotin _]. apply Hnotin. by left.
Qed.

(** C4 (the engine breaks it).  A loop of two aliases is answered with
    ServerFailure and no records; but for a chain of nine CNAMEs, which
    exceeds the limit of 8, the engine answers NOERROR with an empty
    answer section (and caches nothing), not ServerFailure. *)
Theorem lookup_depth_exceeded_is_nodata :
  ToIndex zoneLoop = Ok (indexOf zoneLoop)
  ∧ ToIndex zoneChain = Ok (indexOf zoneChain)
  ∧ lookup (indexOf zoneLoop) "a.example.com." dns.TypeA
    = Returns ([], [], dns.RcodeServerFailure, 0)
  ∧ lookup (indexOf zoneChain) "n0.example.com." dns.TypeA
    = Returns ([], [], dns.RcodeSuccess, 0)
  ∧ (∀ now,
       ServeDNS noNet (resolverFor zoneChain) (query "n0.example.com." dns.TypeA) now
       = Returns (dns.set_RecursionAvailable
                    (dns.set_Authoritative
                       (dns.SetReply dns.newMsg (query "n0.example.com." dns.TypeA))
                       true) false,
                  resolverFor zoneChain)).
Proof.
  split_and!; [by vm_compute.. |].
  intros now. vm_compute. reflexivity.
Qed.

(** C6 (the engine breaks it).  www is an alias with TTL 60 of the apex,
    whose address has TTL 300.  The answer to [www A] carries both
    records, so the minimum TTL of its answer section is 60, but the
    response is put in the positive cache for 300 seconds, the TTL of the
    last RRset alone. *)
Theorem ServeDNS_caches_for_last_rrset_ttl (now : Z) :
  match ServeDNS noNet (resolverFor zoneWww) (query "www.example.com." dns.TypeA) now with
  | Returns (resp, r) =>
      ToIndex zoneWww = Ok (indexOf zoneWww)
      ∧ dns.Rcode resp = dns.RcodeSuccess
      ∧ map (λ rr, dns.Ttl (dns.Header rr)) (dns.Answer resp) = [60; 300]
      ∧ lru.find (key "www.example.com." dns.TypeA) (lru.items (pos (Cache r)))
        = Some {| ExpireAt := now + 300 * Second; Data := resp |}
  | Panics => False
  end.
Proof.
  vm_compute. split_and!; reflexivity.
Qed.

End HandlerExamples.

(* ===================================================================== *)
(** * The cache pair and the reload coordinator *)
(* ===================================================================== *)

(** C9 (amended).  For a configured capacity N >= 10 the cache pair is
    built, with positive capacity N and negative capacity N/10 (integer
    division, hence at least 1).  Nothing raises the negative capacity to
    1: for 1 <= N < 10 it would be 0 and the constructor returns the
    error of the LRU library. *)
Theorem NewRRCaches_capacity (N : Z) :
  1 ≤ N →
  if 10 <=? N
  then ∃ c : RRCaches dns.Msg,
         NewRRCaches N = Ok c ∧ lru.cap (pos c) = N
         ∧ lru.cap (neg c) = N ÷ 10 ∧ 1 ≤ lru.cap (neg c)
  else NewRRCaches (T := dns.Msg) N = Err "must provide a positive size".
Proof.
  intros HN. unfold NewRRCaches, lru.New.
  destruct (Z.leb_spec 10 N) as [Hge | Hlt].
  - assert (1 ≤ N ÷ 10) by (apply Z.quot_le_lower_bound; lia).
    destruct (Z.leb_spec N 0); [lia|].
    destruct (Z.leb_spec (N ÷ 10) 0); [lia|]. simpl. eauto.
  - assert (N ÷ 10 = 0) as -> by (apply Z.quot_small; lia).
    destruct (Z.leb_spec N 0); [lia|]. done.
Qed.

(** The theorem at the default capacity of the command line. *)
Lemma NewRRCaches_capacity_witness :
  ∃ c : RRCaches dns.Msg,
    NewRRCaches 100000 = Ok c ∧ lru.cap (pos c) = 100000
    ∧ lru.cap (neg c) = 100000 ÷ 10 ∧ 1 ≤ lru.cap (neg c).
Proof. apply (NewRRCaches_capacity 100000). lia. Defined.

(** C9 as stated fails: with N = 5 there is no cache pair at all. *)
Lemma NewRRCaches_small_capacity_counterexample :
  ¬ (∀ N : Z, 1 ≤ N →
       ∃ c : RRCaches dns.Msg,
         NewRRCaches N = Ok c ∧ lru.cap (neg c) = Z.max 1 (N ÷ 10)).
Proof.
  intros Hclaim. destruct (Hclaim 5) as (c & Hc & _); [lia|].
  vm_compute in Hc. discriminate Hc.
Qed.

Section ReloadFacts.
Context `{GoLibs}.

Lemma lower_ascii_idemp (c : ascii) : lower_ascii (lower_ascii c) = lower_ascii c.
Proof. by destruct c as [[] [] [] [] [] [] [] []]. Qed.

Lemma ToLower_idemp (s : string) : ToLower (ToLower s) = ToLower s.
Proof.
  induction s as [|c s IH]; simpl; [done|]. by rewrite lower_ascii_idemp, IH.
Qed.

Lemma ToLower_nonempty (s : string) : s ≠ "" → ToLower s ≠ "".
Proof. by destruct s. Qed.

Lemma ToIndex_ZoneFQDN (zf : ZoneFile) (zi : ZoneIndex) :
  ToIndex zf = Ok zi →
  ZoneFQDN zi ≠ "" ∧ ToLower (ZoneFQDN zi) = ZoneFQDN zi.
Proof.
  intros (z & by_ & Hval & _ & -> & _)%ToIndex_Ok.
  apply Validate_Ok in Hval as (_ & Hne & Hdot).
  split; [|apply ToLower_idemp].
  apply ToLower_nonempty. unfold MustFQDN.
  destruct (String.eqb_spec (zf_Zone z) ""); [done|]. by rewrite Hdot.
Qed.

(** The part of the serial check that holds: when the zone of the new index
    is installed and the new serial is not greater, the reload changes
    neither the store nor the cache. *)
Lemma OnZoneUpdated_stale_is_noop (z : zoneReloader) (zf : ZoneFile)
  (zi old : ZoneIndex) :
  ToIndex zf = Ok zi → store z !! ZoneFQDN zi = Some old →
  Serial zi ≤ Serial old →
  OnZoneUpdated z (Ok zf) = z.
Proof.
  intros Hidx Hold Hle. unfold OnZoneUpdated. rewrite Hidx.
  destruct (ToIndex_ZoneFQDN _ _ Hidx) as [Hne Hlow].
  rewrite (GetZoneForName_installed (store z) (ZoneFQDN zi) old);
    [|by rewrite Hlow..].
  simpl. destruct (Z.leb_spec (Serial zi) (Serial old)); [done | lia].
Qed.

(** ... and an installed zone is replaced when the new serial is greater. *)
Lemma OnZoneUpdated_newer_swaps (z : zoneReloader) (zf : ZoneFile)
  (zi old : ZoneIndex) :
  ToIndex zf = Ok zi → store z !! ZoneFQDN zi = Some old →
  Serial old < Serial zi →
  OnZoneUpdated z (Ok zf)
  = {| store := SwapZone (store z) zi;
       cache := InvalidateZone (cache z) (ZoneFQDN zi) |}.
Proof.
  intros Hidx Hold Hlt. unfold OnZoneUpdated. rewrite Hidx.
  destruct (ToIndex_ZoneFQDN _ _ Hidx) as [Hne Hlow].
  rewrite (GetZoneForName_installed (store z) (ZoneFQDN zi) old);
    [|by rewrite Hlow..].
  simpl. destruct (Z.leb_spec (Serial zi) (Serial old)); [lia | done].
Qed.

End ReloadFacts.

Section ReloadExamples.
#[local] Existing Instance plainLibs.

(** C3 (the coordinator breaks it).  The store holds [example.com.] with
    serial 2025103001; the zone [sub.example.com.] is not installed.  A
    reload event for a valid zone file of [sub.example.com.] with serial 1
    changes nothing: the new index is compared with the serial of the
    zone that [GetZoneForName] finds for its FQDN, here the enclosing
    zone, and is dropped. *)
Theorem OnZoneUpdated_new_zone_dropped_under_enclosing_zone :
  let z := {| store := SwapZone NewStore (indexOf zoneParent);
              cache := emptyCaches |} in
  ToIndex zoneChild = Ok (indexOf zoneChild)
  ∧ ZoneFQDN (indexOf zoneChild) = "sub.example.com."
  ∧ store z !! "sub.example.com." = None
  ∧ (GetZoneForName (store z) "sub.example.com.").2 = "example.com."
  ∧ OnZoneUpdated z (Ok zoneChild) = z.
Proof.
  split_and!; by vm_compute.
Qed.

End ReloadExamples.

(* ===================================================================== *)
(** * The loader: what every accepted zone satisfies *)
(* ===================================================================== *)

Section LoaderInvariants.
Context `{GoLibs}.
Implicit Types (m : gmap string RRSet).

Lemma RRSet_grown_refl (rs : RRSet) : RRSet_grown rs rs.
Proof. unfold RRSet_grown. split_and!; done. Qed.

Lemma RRSet_grown_trans (a b c : RRSet) :
  RRSet_grown a b → RRSet_grown b c → RRSet_grown a c.
Proof.
  unfold RRSet_grown.
  intros (?&?&?&?&?&?&?&?&?) (?&?&?&?&?&?&?&?&?).
  split_and!; try congruence; try lia; by etrans.
Qed.

(** The RRset [appendRRSet] returns: the one stored under [t], its TTL
    lowered to [ttl] if that is smaller, or a fresh one. *)
Lemma appendRRSet_eq m (t : string) (ttl : Z) :
  appendRRSet m t ttl = (<[t := (appendRRSet m t ttl).2]> m, (appendRRSet m t ttl).2).
Proof. reflexivity. Qed.

Lemma appendRRSet_old m (t : string) (ttl : Z) (old : RRSet) :
  m !! t = Some old →
  RRSet_grown old (appendRRSet m t ttl).2 ∧ rs_TTL (appendRRSet m t ttl).2 ≤ ttl.
Proof.
  intros Hold. unfold appendRRSet. rewrite Hold. simpl.
  destruct (Z.ltb_spec ttl (rs_TTL old)); simpl.
  - split; [|lia]. unfold RRSet_grown. simpl. split_and!; try done. lia.
  - split; [apply RRSet_grown_refl | lia].
Qed.

Lemma appendRRSet_new m (t : string) (ttl : Z) :
  m !! t = None → (appendRRSet m t ttl).2 = newRRSet t ttl.
Proof.
  intros Hnone. unfold appendRRSet. rewrite Hnone. simpl.
  by rewrite Z.ltb_irrefl.
Qed.

(** The seven appending and replacing cases of the record loop, read as
    one update of the index: the RRset [rs] is stored under the record's
    name and (uppercased) type, everything else is left alone. *)
Lemma addRecord_Ok (zone : string) (def : Z)
  (by0 : gmap string (gmap string RRSet)) (r : RawRecord)
  (by1 : gmap string (gmap string RRSet)) :
  addRecord zone def by0 r = Ok by1 →
  let fqdn := NormalizeFQDN (raw_Name r) zone in
  let m0 := default ∅ (by0 !! fqdn) in
  let ttl := ensureTTL (raw_TTL r) def in
  let rt := ToUpper (raw_Type r) in
  let base := (appendRRSet m0 rt ttl).2 in
  ∃ rs, by1 = <[fqdn := <[rt := rs]> m0]> by0
  ∧ ((rt = TypeCNAME ∧ raw_Value r ≠ "" ∧ hasOtherTypes m0 = false
      ∧ rs = set_CNAME (newRRSet TypeCNAME ttl) (NormalizeFQDN (raw_Value r) zone))
     ∨ (rt = TypeA ∧ ∃ ips l, toStringSlice (raw_Values r) = Ok ips
          ∧ parseA ips = Ok l ∧ rs = set_A base (rs_A base ++ l))
     ∨ (rt = TypeAAAA ∧ ∃ ips l, toStringSlice (raw_Values r) = Ok ips
          ∧ parseAAAA ips = Ok l ∧ rs = set_AAAA base (rs_AAAA base ++ l))
     ∨ (rt = TypeTXT ∧ ∃ vals, toStringSlice (raw_Values r) = Ok vals
          ∧ rs = set_TXT base (rs_TXT base ++ vals))
     ∨ (rt = TypeNS ∧ ∃ vals, toStringSlice (raw_Values r) = Ok vals
          ∧ rs = set_NS base (rs_NS base ++ normalizeFQDNs vals))
     ∨ (rt = TypeMX ∧ ∃ mxs, toMXSlice (raw_Values r) = Ok mxs
          ∧ rs = set_MX base
                   (rs_MX base
                    ++ map (λ x, {| Preference := Preference x;
                                    Host := ToLower (MustFQDN (Host x)) |}) mxs))
     ∨ (rt = TypeSRV ∧ ∃ srvs, toSRVSlice (raw_Values r) = Ok srvs
          ∧ rs = set_SRV base
                   (rs_SRV base
                    ++ map (λ x, {| Priority := Priority x; Weight := Weight x;
                                    Port := Port x;
                                    Target := ToLower (MustFQDN (Target x)) |})
                           srvs))).
Proof.
  intros Hadd fqdn m0 ttl rt base. revert Hadd.
  unfold addRecord, ensureName, store_name. fold fqdn ttl rt.
  assert (Hby : ∀ X : gmap string RRSet,
            <[fqdn := X]> (match by0 !! fqdn with
                           | Some _ => by0
                           | None => <[fqdn := ∅]> by0
                           end) = <[fqdn := X]> by0).
  { intros X. destruct (by0 !! fqdn); [done | by rewrite insert_insert_eq]. }
  assert (Hm : (match by0 !! fqdn with Some m => m | None => ∅ end) = m0).
  { unfold m0. by destruct (by0 !! fqdn). }
  assert (Hsplit : (match by0 !! fqdn with
                    | Some m => (by0, m)
                    | None => (<[fqdn := ∅]> by0, ∅)
                    end)
                   = (match by0 !! fqdn with
                      | Some _ => by0
                      | None => <[fqdn := ∅]> by0
                      end, m0)).
  { unfold m0. by destruct (by0 !! fqdn). }
  rewrite Hsplit. clear Hsplit Hm.
  destruct (String.eqb_spec rt TypeCNAME) as [Hrt|_].
  { destruct (String.eqb_spec (raw_Value r) "") as [|Hval]; [done|].
    destruct (hasOtherTypes m0) eqn:Hother; [done|].
    intros [= <-]. eexists. rewrite Hby, Hrt. split; [done|]. by left. }
  destruct (String.eqb_spec rt TypeA) as [Hrt|_].
  { intros (ips & Hips & (l & Hl & Hok)%bindR_Ok)%bindR_Ok.
    exists (set_A base (rs_A base ++ l)). subst base. rewrite Hrt.
    rewrite appendRRSet_eq in Hok. injection Hok as <-.
    split; [by rewrite Hby, insert_insert_eq|]. right. left. split; [done|]. exists ips, l. by split_and!. }
  destruct (String.eqb_spec rt TypeAAAA) as [Hrt|_].
  { intros (ips & Hips & (l & Hl & Hok)%bindR_Ok)%bindR_Ok.
    exists (set_AAAA base (rs_AAAA base ++ l)). subst base. rewrite Hrt.
    rewrite appendRRSet_eq in Hok. injection Hok as <-.
    split; [by rewrite Hby, insert_insert_eq|]. do 2 right. left. split; [done|]. exists ips, l. by split_and!. }
  destruct (String.eqb_spec rt TypeTXT) as [Hrt|_].
  { intros (vals & Hvals & Hok)%bindR_Ok.
    exists (set_TXT base (rs_TXT base ++ vals)). subst base. rewrite Hrt.
    rewrite appendRRSet_eq in Hok. injection Hok as <-.
    split; [by rewrite Hby, insert_insert_eq|]. do 3 right. left. split; [done|]. exists vals. by split_and!. }
  destruct (String.eqb_spec rt TypeNS) as [Hrt|_].
  { intros (vals & Hvals & Hok)%bindR_Ok.
    exists (set_NS base (rs_NS base ++ normalizeFQDNs vals)). subst base.
    rewrite Hrt. rewrite appendRRSet_eq in Hok. injection Hok as <-.
    split; [by rewrite Hby, insert_insert_eq|]. do 4 right. left. split; [done|]. exists vals. by split_and!. }
  destruct (String.eqb_spec rt TypeMX) as [Hrt|_].
  { intros (mxs & Hmxs & Hok)%bindR_Ok.
    eexists. subst base. rewrite Hrt.
    rewrite appendRRSet_eq in Hok. injection Hok as <-.
    split; [by rewrite Hby, insert_insert_eq|]. do 5 right. left. split; [done|]. exists mxs. by split_and!. }
  destruct (String.eqb_spec rt TypeSRV) as [Hrt|_]; [|done].
  intros (srvs & Hsrvs & Hok)%bindR_Ok.
  eexists. subst base. rewrite Hrt.
  rewrite appendRRSet_eq in Hok. injection Hok as <-.
  split; [by rewrite Hby, insert_insert_eq|]. do 6 right. split; [done|]. exists srvs. by split_and!.
Qed.

Lemma foldR_app {A S} (f : S → A → Result S) (xs ys : list A) (s s2 : S) :
  foldR f (xs ++ ys) s = Ok s2 ↔ ∃ s1, foldR f xs s = Ok s1 ∧ foldR f ys s1 = Ok s2.
Proof.
  revert s. induction xs as [|x xs IH]; intros s; simpl.
  - split; [eauto | by intros (s1 & [= <-] & ?)].
  - destruct (f s x) as [s'|e]; simpl; [apply IH|].
    split; [done | by intros (? & ? & ?)].
Qed.

Lemma foldR_invariant {A S} (f : S → A → Result S) (I : S → Prop)
  (xs : list A) (s s' : S) :
  (∀ s x s', x ∈ xs → I s → f s x = Ok s' → I s') →
  I s → foldR f xs s = Ok s' → I s'.
Proof.
  revert s. induction xs as [|x xs IH]; intros s Hstep Hs; simpl.
  - by intros [= <-].
  - intros (s1 & Hf & Hrest)%bindR_Ok. eapply IH; [|by eapply Hstep; [left|..]|done].
    intros ??? Hin. apply Hstep. by right.
Qed.

(** One failing element makes the whole loop fail. *)
Lemma foldR_Err {A S} (f : S → A → Result S) (xs : list A) (x : A) (s : S) :
  x ∈ xs → (∀ s, ∃ e, f s x = Err e) → ∃ e, foldR f xs s = Err e.
Proof.
  intros Hin Hbad. revert s. induction xs as [|y xs IH]; intros s.
  - by apply elem_of_nil in Hin.
  - simpl. apply elem_of_cons in Hin as [<- | Hin].
    + destruct (Hbad s) as [e ->]. simpl. eauto.
    + destruct (f s y) as [s'|e]; simpl; [by apply IH | eauto].
Qed.

(** A name that holds a CNAME RRset never passes the guard of the CNAME
    case. *)
Lemma hasOtherTypes_cname m :
  is_Some (m !! TypeCNAME) → hasOtherTypes m = true.
Proof.
  intros Hc. unfold hasOtherTypes.
  destruct (size m =? 0)%nat eqn:H0.
  - apply Nat.eqb_eq, map_size_empty_inv in H0. subst m.
    rewrite lookup_empty in Hc. by destruct Hc.
  - destruct (size m =? 1)%nat; [by apply bool_decide_eq_true_2 | done].
Qed.

(** A record that is accepted leaves every RRset of the index in place;
    the one it touches has only grown. *)
Lemma addRecord_grown (zone : string) (def : Z)
  (by0 : gmap string (gmap string RRSet)) (r : RawRecord)
  (by1 : gmap string (gmap string RRSet)) (n t : string) m (rs : RRSet) :
  addRecord zone def by0 r = Ok by1 →
  by0 !! n = Some m → m !! t = Some rs →
  ∃ m' rs', by1 !! n = Some m' ∧ m' !! t = Some rs' ∧ RRSet_grown rs rs'.
Proof.
  intros Hadd Hn Ht.
  destruct (addRecord_Ok _ _ _ _ _ Hadd) as (rsn & -> & Hcase).
  destruct (decide (n = NormalizeFQDN (raw_Name r) zone)) as [->|Hne].
  2:{ exists m, rs. rewrite lookup_insert_ne by done.
      split_and!; [done..|apply RRSet_grown_refl]. }
  rewrite Hn in *. simpl in *. rewrite lookup_insert_eq.
  destruct (decide (t = ToUpper (raw_Type r))) as [->|Hnet].
  2:{ eexists _, rs. rewrite lookup_insert_ne by done.
      split_and!; [done..|apply RRSet_grown_refl]. }
  eexists _, rsn. rewrite lookup_insert_eq. split_and!; [done..|].
  destruct (appendRRSet_old m _ (ensureTTL (raw_TTL r) def) rs Ht)
    as [(?&?&?&?&?&?&?&?&?) _].
  destruct Hcase as [(Hrt & _ & Hother & _) | Hcase].
  { rewrite hasOtherTypes_cname in Hother; [done|]. rewrite <- Hrt. eauto. }
  unfold RRSet_grown.
  destruct Hcase as [(_ & ips & l & _ & _ & ->) | Hcase].
  { simpl. split_and!; try done. etrans; [done|]. by apply prefix_app_r. }
  destruct Hcase as [(_ & ips & l & _ & _ & ->) | Hcase].
  { simpl. split_and!; try done. etrans; [done|]. by apply prefix_app_r. }
  destruct Hcase as [(_ & vals & _ & ->) | Hcase].
  { simpl. split_and!; try done. etrans; [done|]. by apply prefix_app_r. }
  destruct Hcase as [(_ & vals & _ & ->) | Hcase].
  { simpl. split_and!; try done. etrans; [done|]. by apply prefix_app_r. }
  destruct Hcase as [(_ & mxs & _ & ->) | (_ & srvs & _ & ->)].
  { simpl. split_and!; try done. etrans; [done|]. by apply prefix_app_r. }
  simpl. split_and!; try done. etrans; [done|]. by apply prefix_app_r.
Qed.

Lemma foldR_addRecord_grown (zone : string) (def : Z) (rs_ : list RawRecord)
  (by0 by1 : gmap string (gmap string RRSet)) (n t : string) m (rs : RRSet) :
  foldR (addRecord zone def) rs_ by0 = Ok by1 →
  by0 !! n = Some m → m !! t = Some rs →
  ∃ m' rs', by1 !! n = Some m' ∧ m' !! t = Some rs' ∧ RRSet_grown rs rs'.
Proof.
  revert by0 m rs. induction rs_ as [|r rs_ IH]; intros by0 m rs; simpl.
  - intros [= <-] ??. exists m, rs. split_and!; [done..|apply RRSet_grown_refl].
  - intros (by' & Hadd & Hfold)%bindR_Ok Hn Ht.
    destruct (addRecord_grown _ _ _ _ _ _ _ _ _ Hadd Hn Ht) as (m1 & rs1 & Hn1 & Ht1 & Hg1).
    destruct (IH _ _ _ Hfold Hn1 Ht1) as (m2 & rs2 & Hn2 & Ht2 & Hg2).
    exists m2, rs2. split_and!; [done..|]. by eapply RRSet_grown_trans.
Qed.

Lemma appendRRSet_ttl m (t : string) (ttl : Z) :
  rs_TTL (appendRRSet m t ttl).2 ≤ ttl.
Proof.
  destruct (m !! t) as [old|] eqn:Hold.
  - by apply (appendRRSet_old m t ttl old).
  - by rewrite appendRRSet_new.
Qed.

Lemma appendRRSet_type m (t : string) (ttl : Z) :
  (∀ old, m !! t = Some old → rs_Type old = t) →
  rs_Type (appendRRSet m t ttl).2 = t.
Proof.
  intros Hty. destruct (m !! t) as [old|] eqn:Hold.
  - destruct (appendRRSet_old m t ttl old Hold) as [(-> & _) _]. by apply Hty.
  - by rewrite appendRRSet_new.
Qed.

Lemma MustFQDN_dot (x : string) : x ≠ "" → HasSuffix (MustFQDN x) "." = true.
Proof.
  intros Hne. unfold MustFQDN. destruct (String.eqb_spec x ""); [done|].
  destruct (HasSuffix x ".") eqn:Hdot; [done|].
  apply HasSuffix_spec. by exists x.
Qed.

Lemma MustFQDN_idemp (x : string) : MustFQDN (MustFQDN x) = MustFQDN x.
Proof.
  destruct (String.eqb_spec x "") as [->|Hne]; [done|].
  pose proof (MustFQDN_dot x Hne) as Hdot.
  unfold MustFQDN at 1. rewrite Hdot. by destruct (String.eqb (MustFQDN x) "").
Qed.

(** What [Validate] lets through, and what it hands on. *)
Lemma Validate_Ok_fields (zf z : ZoneFile) :
  Validate (Some zf) = Ok z →
  z = set_Zone zf (MustFQDN (zf_Zone zf))
  ∧ zf_Zone zf ≠ "" ∧ MName (zf_SOA zf) ≠ "" ∧ RName (zf_SOA zf) ≠ ""
  ∧ zf_NS zf ≠ [].
Proof.
  unfold Validate, MustFQDN.
  destruct (String.eqb_spec (zf_Zone zf) "") as [|Hne]; [done|].
  destruct zf as [zone serial def soa ns recs]. simpl in *.
  destruct (HasSuffix zone "."); simpl;
    destruct (String.eqb_spec (MName soa) ""); simpl; try done;
    destruct (String.eqb_spec (RName soa) ""); simpl; try done;
    destruct ns; simpl; try done; by intros [= <-].
Qed.

(** [ToIndex] read as: validation, the record loop from the apex NS
    RRset on, and the header fields of the index. *)
Lemma ToIndex_Ok_fields (zf : ZoneFile) (zi : ZoneIndex) :
  ToIndex zf = Ok zi →
  let zone := MustFQDN (zf_Zone zf) in
  (zf_Zone zf ≠ "" ∧ MName (zf_SOA zf) ≠ "" ∧ RName (zf_SOA zf) ≠ ""
   ∧ zf_NS zf ≠ [])
  ∧ foldR (addRecord zone (zf_TTLDefault zf)) (zf_Records zf) (apexNS zf zone)
    = Ok (ByName zi)
  ∧ ZoneFQDN zi = ToLower zone ∧ Serial zi = zf_Serial zf
  ∧ zi_SOA zi = zf_SOA zf ∧ TTLDef zi = zf_TTLDefault zf.
Proof.
  unfold ToIndex. intros (z & Hval & Hrest)%bindR_Ok.
  apply Validate_Ok_fields in Hval as (-> & Hfields).
  simpl in Hrest. rewrite MustFQDN_idemp in Hrest.
  apply bindR_Ok in Hrest as (by_ & Hfold & [= <-]). simpl.
  destruct Hfields as (? & ? & ? & ?). split_and!; done.
Qed.

Lemma apexNS_lookup (zf : ZoneFile) (zone : string) :
  zf_NS zf ≠ [] →
  apexNS zf zone !! ToLower zone
  = Some {[ TypeNS := set_NS (newRRSet TypeNS (zf_TTLDefault zf))
                        (normalizeFQDNs (zf_NS zf)) ]}.
Proof.
  intros Hns. unfold apexNS, ensureName, store_name.
  destruct (zf_NS zf); [done|]. simpl. rewrite lookup_empty.
  by rewrite lookup_insert_eq.
Qed.

Lemma apexNS_inv (zf : ZoneFile) (zone n t : string) m (rs : RRSet) :
  apexNS zf zone !! n = Some m → m !! t = Some rs →
  n = ToLower zone ∧ t = TypeNS
  ∧ rs = set_NS (newRRSet TypeNS (zf_TTLDefault zf)) (normalizeFQDNs (zf_NS zf)).
Proof.
  unfold apexNS, ensureName, store_name.
  destruct (0 <? length (zf_NS zf))%nat; [|by rewrite lookup_empty].
  rewrite lookup_empty, insert_insert_eq.
  intros [[<- <-] | [_ Hn]]%lookup_insert_Some; [|by rewrite lookup_empty in Hn].
  intros [[<- <-] | [_ Ht]]%lookup_insert_Some; [done|by rewrite lookup_empty in Ht].
Qed.

(** The RRset a record leaves behind, right after the record. *)
Lemma addRecord_stored (zone : string) (def : Z)
  (by0 : gmap string (gmap string RRSet)) (r : RawRecord)
  (by1 : gmap string (gmap string RRSet)) :
  addRecord zone def by0 r = Ok by1 →
  ∃ m rs,
    by1 !! NormalizeFQDN (raw_Name r) zone = Some m
    ∧ m !! ToUpper (raw_Type r) = Some rs
    ∧ rs_TTL rs ≤ ensureTTL (raw_TTL r) def
    ∧ (ToUpper (raw_Type r) = TypeCNAME →
         rs_CNAME rs = NormalizeFQDN (raw_Value r) zone)
    ∧ (ToUpper (raw_Type r) = TypeTXT →
         ∃ vals, toStringSlice (raw_Values r) = Ok vals ∧ vals `suffix_of` rs_TXT rs)
    ∧ (ToUpper (raw_Type r) = TypeNS →
         ∃ vals, toStringSlice (raw_Values r) = Ok vals
                 ∧ normalizeFQDNs vals `suffix_of` rs_NS rs).
Proof.
  intros Hadd.
  destruct (addRecord_Ok _ _ _ _ _ Hadd) as (rsn & -> & Hcase).
  eexists _, rsn. rewrite !lookup_insert_eq. split_and!; [done..| | | |].
  - pose proof (appendRRSet_ttl
                  (default ∅ (by0 !! NormalizeFQDN (raw_Name r) zone))
                  (ToUpper (raw_Type r)) (ensureTTL (raw_TTL r) def)) as Httl.
    destruct Hcase as [(_ & _ & _ & ->) | Hcase]; [simpl; lia|].
    destruct Hcase as [(_ & ? & ? & _ & _ & ->) | Hcase]; [done|].
    destruct Hcase as [(_ & ? & ? & _ & _ & ->) | Hcase]; [done|].
    destruct Hcase as [(_ & ? & _ & ->) | Hcase]; [done|].
    destruct Hcase as [(_ & ? & _ & ->) | Hcase]; [done|].
    by destruct Hcase as [(_ & ? & _ & ->) | (_ & ? & _ & ->)].
  - intros Hrt. rewrite Hrt in Hcase.
    destruct Hcase as [(_ & _ & _ & ->) | Hcase]; [done|].
    by repeat (destruct Hcase as [[? _] | Hcase]; [done|]); destruct Hcase.
  - intros Hrt. rewrite Hrt in Hcase.
    do 3 (destruct Hcase as [[? _] | Hcase]; [done|]).
    destruct Hcase as [(_ & vals & Hvals & ->) | Hcase].
    + exists vals. split; [done|]. simpl. by apply suffix_app_r.
    + by repeat (destruct Hcase as [[? _] | Hcase]; [done|]); destruct Hcase.
  - intros Hrt. rewrite Hrt in Hcase.
    do 4 (destruct Hcase as [[? _] | Hcase]; [done|]).
    destruct Hcase as [(_ & vals & Hvals & ->) | Hcase].
    + exists vals. split; [done|]. simpl. by apply suffix_app_r.
    + by repeat (destruct Hcase as [[? _] | Hcase]; [done|]); destruct Hcase.
Qed.

Lemma foldR_at {A S} (f : S → A → Result S) (xs : list A) (x : A) (s s' : S) :
  foldR f xs s = Ok s' → x ∈ xs →
  ∃ s1 s2 post, f s1 x = Ok s2 ∧ foldR f post s2 = Ok s'.
Proof.
  intros Hfold (pre & post & ->)%list_elem_of_split.
  apply foldR_app in Hfold as (s1 & _ & Hrest). simpl in Hrest.
  apply bindR_Ok in Hrest as (s2 & Hf & Hpost). eauto.
Qed.

Lemma mapR_Forall {A B} (f : A → Result B) (Q : B → Prop) (xs : list A)
  (ys : list B) :
  (∀ x y, f x = Ok y → Q y) → mapR f xs = Ok ys → Forall Q ys.
Proof.
  intros Hf. revert ys. induction xs as [|x xs IH]; intros ys; simpl.
  - by intros [= <-].
  - intros (y & Hy & (ys' & Hys & [= <-])%bindR_Ok)%bindR_Ok.
    constructor; [by eapply Hf | by apply IH].
Qed.

Lemma To4_length (ip ip4 : IP) : To4 ip = Some ip4 → length ip4 = 4%nat.
Proof.
  unfold To4. destruct (Nat.eqb_spec (length ip) 4) as [Hl|_].
  - by intros [= <-].
  - destruct (Nat.eqb_spec (length ip) 16) as [Hl|_]; simpl; [|done].
    case_match; [|done]. intros [= <-]. rewrite length_drop. lia.
Qed.

Lemma parseA_shape (ips : list string) (l : list IP) :
  parseA ips = Ok l → Forall (λ ip, length ip = 4%nat) l.
Proof.
  apply mapR_Forall. intros s ip. destruct (ParseIP s) as [raw|]; [|done].
  destruct (To4 raw) as [ip4|] eqn:H4; [|done]. intros [= <-].
  by eapply To4_length.
Qed.

Lemma parseAAAA_shape (ips : list string) (l : list IP) :
  parseAAAA ips = Ok l → Forall (λ ip, length ip = 16%nat ∧ To4 ip = None) l.
Proof.
  apply mapR_Forall. intros s ip. destruct (ParseIP s) as [raw|]; [|done].
  destruct (To16 raw) as [ip16|] eqn:H16; [|done].
  destruct (To4 raw) as [ip4|] eqn:H4; [done|]. intros [= <-].
  split; [|done]. revert H16 H4. unfold To16, To4.
  destruct (Nat.eqb_spec (length raw) 4); [done|].
  by destruct (Nat.eqb_spec (length raw) 16).
Qed.

(** Well-formedness of an index map: every RRset is stored under its own
    type, which is one of the seven, its A addresses have 4 bytes and its
    AAAA addresses have 16 bytes and are not IPv4-mapped. *)
Lemma apexNS_wf (zf : ZoneFile) (zone n t : string) m (rs : RRSet) :
  apexNS zf zone !! n = Some m → m !! t = Some rs →
  rs_Type rs = t ∧ t ∈ zoneTypes
  ∧ Forall (λ ip, length ip = 4%nat) (rs_A rs)
  ∧ Forall (λ ip, length ip = 16%nat ∧ To4 ip = None) (rs_AAAA rs).
Proof.
  intros Hn Ht. destruct (apexNS_inv _ _ _ _ _ _ Hn Ht) as (_ & -> & ->).
  simpl. split_and!; [done| |constructor..]. unfold zoneTypes. by repeat constructor.
Qed.

Lemma addRecord_wf (zone : string) (def : Z)
  (by0 : gmap string (gmap string RRSet)) (r : RawRecord)
  (by1 : gmap string (gmap string RRSet)) :
  (∀ n m t rs, by0 !! n = Some m → m !! t = Some rs →
     rs_Type rs = t ∧ t ∈ zoneTypes
     ∧ Forall (λ ip, length ip = 4%nat) (rs_A rs)
     ∧ Forall (λ ip, length ip = 16%nat ∧ To4 ip = None) (rs_AAAA rs)) →
  addRecord zone def by0 r = Ok by1 →
  ∀ n m t rs, by1 !! n = Some m → m !! t = Some rs →
     rs_Type rs = t ∧ t ∈ zoneTypes
     ∧ Forall (λ ip, length ip = 4%nat) (rs_A rs)
     ∧ Forall (λ ip, length ip = 16%nat ∧ To4 ip = None) (rs_AAAA rs).
Proof.
  intros Hwf Hadd n m t rs.
  destruct (addRecord_Ok _ _ _ _ _ Hadd) as (rsn & -> & Hcase).
  set (fqdn := NormalizeFQDN (raw_Name r) zone) in *.
  set (m0 := default ∅ (by0 !! fqdn)) in *.
  set (rt := ToUpper (raw_Type r)) in *.
  set (ttl := ensureTTL (raw_TTL r) def) in *.
  assert (Hm0 : ∀ t' rs', m0 !! t' = Some rs' →
            rs_Type rs' = t' ∧ t' ∈ zoneTypes
            ∧ Forall (λ ip, length ip = 4%nat) (rs_A rs')
            ∧ Forall (λ ip, length ip = 16%nat ∧ To4 ip = None) (rs_AAAA rs')).
  { intros t' rs'. unfold m0. destruct (by0 !! fqdn) as [mm|] eqn:Hf; simpl.
    - by apply (Hwf fqdn).
    - by rewrite lookup_empty. }
  intros [[<- <-] | [Hne Hn]]%lookup_insert_Some; [|by eapply Hwf].
  intros [[<- <-] | [Hnet Ht]]%lookup_insert_Some; [|by apply Hm0].
  assert (Hbase : rs_Type (appendRRSet m0 rt ttl).2 = rt
            ∧ Forall (λ ip, length ip = 4%nat) (rs_A (appendRRSet m0 rt ttl).2)
            ∧ Forall (λ ip, length ip = 16%nat ∧ To4 ip = None)
                     (rs_AAAA (appendRRSet m0 rt ttl).2)).
  { destruct (m0 !! rt) as [old|] eqn:Hold.
    - destruct (Hm0 _ _ Hold) as (Hty & _ & HA & HAAAA).
      unfold appendRRSet. rewrite Hold. simpl.
      by destruct (ttl <? rs_TTL old).
    - rewrite appendRRSet_new by done. simpl. split_and!; [done|constructor..]. }
  destruct Hbase as (Hbt & HbA & HbAAAA).
  assert (Hin : ∀ x, rt = x → x ∈ zoneTypes → rt ∈ zoneTypes) by (by intros ? ->).
  destruct Hcase as [(Hrt & _ & _ & ->) | Hcase].
  { simpl. split_and!; [done| |constructor..]. rewrite Hrt. unfold zoneTypes. by repeat constructor. }
  destruct Hcase as [(Hrt & ips & l & _ & Hl%parseA_shape & ->) | Hcase].
  { simpl. split_and!; [done| | |done].
    - rewrite Hrt. unfold zoneTypes. by repeat constructor.
    - by apply Forall_app. }
  destruct Hcase as [(Hrt & ips & l & _ & Hl%parseAAAA_shape & ->) | Hcase].
  { simpl. split_and!; [done| |done|].
    - rewrite Hrt. unfold zoneTypes. by repeat constructor.
    - by apply Forall_app. }
  destruct Hcase as [(Hrt & ? & _ & ->) | Hcase].
  { simpl. split_and!; [done| |done..]. rewrite Hrt. unfold zoneTypes. by repeat constructor. }
  destruct Hcase as [(Hrt & ? & _ & ->) | Hcase].
  { simpl. split_and!; [done| |done..]. rewrite Hrt. unfold zoneTypes. by repeat constructor. }
  destruct Hcase as [(Hrt & ? & _ & ->) | (Hrt & ? & _ & ->)].
  { simpl. split_and!; [done| |done..]. rewrite Hrt. unfold zoneTypes. by repeat constructor. }
  simpl. split_and!; [done| |done..]. rewrite Hrt. unfold zoneTypes. by repeat constructor.
Qed.

Lemma ToIndex_wf (zf : ZoneFile) (zi : ZoneIndex) :
  ToIndex zf = Ok zi →
  ∀ n m t rs, ByName zi !! n = Some m → m !! t = Some rs →
     rs_Type rs = t ∧ t ∈ zoneTypes
     ∧ Forall (λ ip, length ip = 4%nat) (rs_A rs)
     ∧ Forall (λ ip, length ip = 16%nat ∧ To4 ip = None) (rs_AAAA rs).
Proof.
  intros (_ & Hfold & _)%ToIndex_Ok_fields.
  revert Hfold.
  apply (foldR_invariant _
    (λ by_ : gmap string (gmap string RRSet),
       ∀ n m t rs, by_ !! n = Some m → m !! t = Some rs →
         rs_Type rs = t ∧ t ∈ zoneTypes
         ∧ Forall (λ ip, length ip = 4%nat) (rs_A rs)
         ∧ Forall (λ ip, length ip = 16%nat ∧ To4 ip = None) (rs_AAAA rs))).
  - intros s x s' _ Hs Hadd. by eapply addRecord_wf.
  - intros n m t rs. apply apexNS_wf.
Qed.

End LoaderInvariants.

Section LoaderProperties.
Context `{GoLibs}.

(** X1.  An accepted zone file names its zone, has both SOA names and at
    least one nameserver: a file that lacks any of them is rejected. *)
Theorem ToIndex_required_fields (zf : ZoneFile) (zi : ZoneIndex) :
  ToIndex zf = Ok zi →
  zf_Zone zf ≠ "" ∧ MName (zf_SOA zf) ≠ "" ∧ RName (zf_SOA zf) ≠ ""
  ∧ zf_NS zf ≠ [].
Proof. by intros [? _]%ToIndex_Ok_fields. Qed.

(** X2.  The index of an accepted zone file carries the zone name in
    lowercase with a final dot (added when the file has none) and the
    serial, SOA and default TTL of the file unchanged. *)
Theorem ToIndex_header (zf : ZoneFile) (zi : ZoneIndex) :
  ToIndex zf = Ok zi →
  ZoneFQDN zi = ToLower (MustFQDN (zf_Zone zf))
  ∧ HasSuffix (ZoneFQDN zi) "." = true
  ∧ ToLower (ZoneFQDN zi) = ZoneFQDN zi
  ∧ Serial zi = zf_Serial zf ∧ zi_SOA zi = zf_SOA zf
  ∧ TTLDef zi = zf_TTLDefault zf.
Proof.
  intros ((Hne & _) & _ & -> & -> & -> & ->)%ToIndex_Ok_fields.
  split_and!; try done; [|apply ToLower_idemp].
  apply MustFQDN_dot, HasSuffix_spec in Hne as [p ->].
  apply HasSuffix_spec. exists (ToLower p). by rewrite ToLower_app.
Qed.

(** X3.  Every accepted zone has an NS RRset at its apex.  Its list
    starts with one name per entry of the file's [ns] list, in their
    order: a non-empty entry is stored lowercased, with a final dot added
    when it has none, so that the stored name ends with a dot; an empty
    entry is accepted and stored as the empty name.  The TTL of the RRset
    is at most the default TTL. *)
Theorem ToIndex_apex_NS (zf : ZoneFile) (zi : ZoneIndex) :
  ToIndex zf = Ok zi →
  ∃ m rs stored,
    ByName zi !! ZoneFQDN zi = Some m ∧ m !! TypeNS = Some rs
    ∧ stored `prefix_of` rs_NS rs
    ∧ Forall2 (λ s n,
                 (s = "" ∧ n = "")
                 ∨ (s ≠ "" ∧ HasSuffix n "." = true
                    ∧ n = ToLower (if HasSuffix s "." then s else s +:+ ".")))
              (zf_NS zf) stored
    ∧ rs_TTL rs ≤ zf_TTLDefault zf.
Proof.
  intros ((_ & _ & _ & Hns) & Hfold & -> & _)%ToIndex_Ok_fields.
  pose proof (apexNS_lookup zf (MustFQDN (zf_Zone zf)) Hns) as Hapex.
  destruct (foldR_addRecord_grown _ _ _ _ _ _ TypeNS _ _ Hfold Hapex
              (lookup_singleton_eq _ _))
    as (m & rs & Hm & Hrs & (_ & Httl & _ & _ & _ & Hpre & _)).
  exists m, rs, (normalizeFQDNs (zf_NS zf)). split_and!; [done..| |done].
  unfold normalizeFQDNs. clear. induction (zf_NS zf) as [|s l IH]; simpl.
  - constructor.
  - constructor; [|done].
    destruct (String.eqb_spec s "") as [->|Hne]; [by left|]. right.
    split; [done|].
    pose proof (MustFQDN_dot s Hne) as Hdot.
    assert (MustFQDN s = if HasSuffix s "." then s else s +:+ ".") as Hmust.
    { unfold MustFQDN. by destruct (String.eqb_spec s ""). }
    split; [|by rewrite Hmust].
    apply HasSuffix_spec in Hdot as [p0 ->]. rewrite ToLower_app.
    apply HasSuffix_spec. by exists (ToLower p0).
Qed.

(** X4.  Every record of an accepted zone file is in the index: there is
    an RRset under its normalised name and uppercased type, and the TTL
    of that RRset is at most the record's effective TTL (its own TTL when
    given and not 0, the default TTL otherwise). *)
Theorem ToIndex_record_stored (zf : ZoneFile) (zi : ZoneIndex) (r : RawRecord) :
  ToIndex zf = Ok zi → r ∈ zf_Records zf →
  ∃ m rs,
    ByName zi !! NormalizeFQDN (raw_Name r) (MustFQDN (zf_Zone zf)) = Some m
    ∧ m !! ToUpper (raw_Type r) = Some rs
    ∧ rs_TTL rs ≤ ensureTTL (raw_TTL r) (zf_TTLDefault zf).
Proof.
  intros (_ & Hfold & _)%ToIndex_Ok_fields Hr.
  destruct (foldR_at _ _ _ _ _ Hfold Hr) as (s1 & s2 & post & Hadd & Hpost).
  destruct (addRecord_stored _ _ _ _ _ Hadd) as (m & rs & Hm & Hrs & Httl & _).
  destruct (foldR_addRecord_grown _ _ _ _ _ _ _ _ _ Hpost Hm Hrs)
    as (m' & rs' & Hm' & Hrs' & (_ & Httl' & _)).
  exists m', rs'. split_and!; [done..|lia].
Qed.

(** X5.  The strings of a TXT record are stored as they are and in their
    order, as one block of the TXT RRset at the record's name. *)
Theorem ToIndex_txt_verbatim (zf : ZoneFile) (zi : ZoneIndex) (r : RawRecord) :
  ToIndex zf = Ok zi → r ∈ zf_Records zf → ToUpper (raw_Type r) = TypeTXT →
  ∃ vals m rs pre post,
    raw_Values r = JArray (map JString vals)
    ∧ ByName zi !! NormalizeFQDN (raw_Name r) (MustFQDN (zf_Zone zf)) = Some m
    ∧ m !! TypeTXT = Some rs
    ∧ rs_TXT rs = pre ++ vals ++ post.
Proof.
  intros (_ & Hfold & _)%ToIndex_Ok_fields Hr Htxt.
  destruct (foldR_at _ _ _ _ _ Hfold Hr) as (s1 & s2 & post & Hadd & Hpost).
  destruct (addRecord_stored _ _ _ _ _ Hadd)
    as (m & rs & Hm & Hrs & _ & _ & Hvals & _).
  destruct (Hvals Htxt) as (vals & Hslice & [pre Hpre]).
  rewrite Htxt in Hrs.
  destruct (foldR_addRecord_grown _ _ _ _ _ _ _ _ _ Hpost Hm Hrs)
    as (m' & rs' & Hm' & Hrs' & (_ & _ & _ & _ & _ & _ & [post' Hpost'] & _)).
  exists vals, m', rs', pre, post'. split_and!; [|done..|].
  - clear -Hslice. destruct (raw_Values r) as [| | | |elems|]; try done.
    f_equal. revert vals Hslice. simpl.
    induction elems as [|e elems IH]; intros vals; simpl.
    + by intros [= <-].
    + destruct e; try done. simpl.
      intros (ys & Hys & [= <-])%bindR_Ok. simpl. f_equal. by apply IH.
  - by rewrite Hpost', Hpre, <- app_assoc.
Qed.

(** X6.  The target of a CNAME record of an accepted zone file is stored
    normalised like an owner name: [@] is the apex, a name without final
    dot is completed with the zone, and everything is lowercased. *)
Theorem ToIndex_cname_target (zf : ZoneFile) (zi : ZoneIndex) (r : RawRecord) :
  ToIndex zf = Ok zi → r ∈ zf_Records zf → ToUpper (raw_Type r) = TypeCNAME →
  ∃ m rs,
    ByName zi !! NormalizeFQDN (raw_Name r) (MustFQDN (zf_Zone zf)) = Some m
    ∧ m !! TypeCNAME = Some rs
    ∧ rs_CNAME rs = NormalizeFQDN (raw_Value r) (MustFQDN (zf_Zone zf)).
Proof.
  intros (_ & Hfold & _)%ToIndex_Ok_fields Hr Hc.
  destruct (foldR_at _ _ _ _ _ Hfold Hr) as (s1 & s2 & post & Hadd & Hpost).
  destruct (addRecord_stored _ _ _ _ _ Hadd)
    as (m & rs & Hm & Hrs & _ & Htarget & _).
  rewrite Hc in Hrs.
  destruct (foldR_addRecord_grown _ _ _ _ _ _ _ _ _ Hpost Hm Hrs)
    as (m' & rs' & Hm' & Hrs' & (_ & _ & _ & _ & Hsame & _)).
  exists m', rs'. split_and!; [done..|]. rewrite Hsame. by apply Htarget.
Qed.

(** X7.  A zone file is rejected as a whole when one of its records has
    a type outside the seven (compared without regard to case), is a
    CNAME with an empty [value], or is of another type and its [values]
    field is absent or is not an array. *)
Theorem ToIndex_bad_record_rejected (zf : ZoneFile) (r : RawRecord) :
  r ∈ zf_Records zf →
  ToUpper (raw_Type r) ∉ zoneTypes
  ∨ (ToUpper (raw_Type r) = TypeCNAME ∧ raw_Value r = "")
  ∨ (ToUpper (raw_Type r) ≠ TypeCNAME ∧ ∀ elems, raw_Values r ≠ JArray elems) →
  ∃ e, ToIndex zf = Err e.
Proof.
  intros Hr Hbad. unfold ToIndex.
  destruct (Validate (Some zf)) as [z|e] eqn:Hval; simpl; [|eauto].
  apply Validate_Ok in Hval as (Hrecs & _).
  rewrite <- Hrecs in Hr.
  destruct (foldR_Err (addRecord (MustFQDN (zf_Zone z)) (zf_TTLDefault z))
              (zf_Records z) r (apexNS z (MustFQDN (zf_Zone z))) Hr)
    as [e ->]; [|simpl; eauto].
  intros s. unfold addRecord.
  destruct (ensureName s _) as [by_ m].
  destruct (String.eqb_spec (ToUpper (raw_Type r)) TypeCNAME) as [Hc|Hnc].
  { destruct Hbad as [Hout | [[_ ->] | [Hnc _]]]; [|simpl; eauto|done].
    destruct Hout. rewrite Hc. unfold zoneTypes. by repeat constructor. }
  destruct Hbad as [Hout | [[Hc _] | [_ Hnoarr]]]; [|done|].
  - assert (Hno : ∀ t, t ∈ zoneTypes → String.eqb (ToUpper (raw_Type r)) t = false).
    { intros t Ht. destruct (String.eqb_spec (ToUpper (raw_Type r)) t) as [Heq|]; [|done].
      destruct Hout. by rewrite Heq. }
    rewrite !Hno by (unfold zoneTypes; by repeat constructor). eauto.
  - assert (Hstr : ∃ e, toStringSlice (raw_Values r) = Err e).
    { destruct (raw_Values r) as [| | | |elems|]; simpl; eauto.
      by destruct (Hnoarr elems). }
    assert (Hmx : ∃ e, toMXSlice (raw_Values r) = Err e).
    { destruct (raw_Values r) as [| | | |elems|]; simpl; eauto.
      by destruct (Hnoarr elems). }
    assert (Hsrv : ∃ e, toSRVSlice (raw_Values r) = Err e).
    { destruct (raw_Values r) as [| | | |elems|]; simpl; eauto.
      by destruct (Hnoarr elems). }
    destruct Hstr as [e1 ->], Hmx as [e2 ->], Hsrv as [e3 ->]. simpl.
    destruct (String.eqb _ TypeA); [simpl; eauto|].
    destruct (String.eqb _ TypeAAAA); [simpl; eauto|].
    destruct (String.eqb _ TypeTXT); [simpl; eauto|].
    destruct (String.eqb _ TypeNS); [simpl; eauto|].
    destruct (String.eqb _ TypeMX); [simpl; eauto|].
    destruct (String.eqb _ TypeSRV); simpl; eauto.
Qed.

(** X8.  A zone file with two CNAME records at the same name is
    rejected, whatever stands between them. *)
Theorem ToIndex_second_cname_rejected (zf : ZoneFile) (r1 r2 : RawRecord)
  (l1 l2 l3 : list RawRecord) :
  zf_Records zf = l1 ++ r1 :: l2 ++ r2 :: l3 →
  ToUpper (raw_Type r1) = TypeCNAME → ToUpper (raw_Type r2) = TypeCNAME →
  NormalizeFQDN (raw_Name r1) (MustFQDN (zf_Zone zf))
  = NormalizeFQDN (raw_Name r2) (MustFQDN (zf_Zone zf)) →
  ∃ e, ToIndex zf = Err e.
Proof.
  intros Hrecs Hc1 Hc2 Hname.
  destruct (ToIndex zf) as [zi|e] eqn:Hidx; [exfalso|eauto].
  apply ToIndex_Ok_fields in Hidx as (_ & Hfold & _).
  rewrite Hrecs in Hfold.
  apply foldR_app in Hfold as (s1 & _ & Hfold). simpl in Hfold.
  apply bindR_Ok in Hfold as (s2 & Hadd1 & Hfold).
  apply foldR_app in Hfold as (s3 & Hmid & Hfold). simpl in Hfold.
  apply bindR_Ok in Hfold as (s4 & Hadd2 & _).
  destruct (addRecord_stored _ _ _ _ _ Hadd1) as (m & rs & Hm & Hrs & _).
  destruct (foldR_addRecord_grown _ _ _ _ _ _ _ _ _ Hmid Hm Hrs)
    as (m' & rs' & Hm' & Hrs' & _).
  destruct (addRecord_Ok _ _ _ _ _ Hadd2) as (rsn & _ & Hcase).
  rewrite <- Hname, Hm', Hc2 in Hcase. simpl in Hcase. rewrite Hc1 in Hrs'.
  destruct Hcase as [(_ & _ & Hother & _) | Hcase].
  - rewrite hasOtherTypes_cname in Hother; [done | eauto].
  - by repeat (destruct Hcase as [[? _] | Hcase]; [done|]); destruct Hcase.
Qed.

(** X9.  In the index of an accepted zone every RRset is stored under
    its own type, which is one of A, AAAA, CNAME, MX, NS, TXT, SRV; every
    A address has 4 bytes, and every AAAA address has 16 bytes and is not
    an IPv4-mapped address. *)
Theorem ToIndex_rrsets_well_formed (zf : ZoneFile) (zi : ZoneIndex) (name t : string)
  (m : gmap string RRSet) (rs : RRSet) :
  ToIndex zf = Ok zi → ByName zi !! name = Some m → m !! t = Some rs →
  rs_Type rs = t ∧ t ∈ zoneTypes
  ∧ Forall (λ ip, length ip = 4%nat) (rs_A rs)
  ∧ Forall (λ ip, length ip = 16%nat ∧ To4 ip = None) (rs_AAAA rs).
Proof.
  intros Hidx Hn Ht. exact (ToIndex_wf _ _ Hidx _ _ _ _ Hn Ht).
Qed.

End LoaderProperties.

(* ===================================================================== *)
(** * Loading a directory, start-up and the zone store *)
(* ===================================================================== *)

Section LoadDirFacts.
Context `{GoLibs}.

Lemma loadFile_Ok (rf : string → Result ZoneFile) (out out' : gmap string ZoneIndex)
  (f : string) :
  loadFile rf out f = Ok out' →
  ∃ zf zi, rf f = Ok zf ∧ ToIndex zf = Ok zi ∧ out' = <[ZoneFQDN zi := zi]> out.
Proof.
  unfold loadFile. destruct (rf f) as [zf|]; [|done].
  destruct (ToIndex zf) as [zi|] eqn:Hidx; [|done]. intros [= <-].
  by exists zf, zi.
Qed.

Lemma foldR_loadFile_keys (rf : string → Result ZoneFile) (fs : list string)
  (out out' : gmap string ZoneIndex) (k : string) :
  foldR (loadFile rf) fs out = Ok out' → is_Some (out !! k) → is_Some (out' !! k).
Proof.
  intros Hfold Hk. revert Hfold.
  apply (foldR_invariant _ (λ o : gmap string ZoneIndex, is_Some (o !! k)));
    [|done].
  intros s f s' _ Hs (zf & zi & _ & _ & ->)%loadFile_Ok.
  destruct (decide (ZoneFQDN zi = k)) as [->|Hne].
  - rewrite lookup_insert_eq. eauto.
  - by rewrite lookup_insert_ne.
Qed.

Lemma LoadZonesDir_Ok (walk : Result (list DirEntry))
  (rf : string → Result ZoneFile) (out : gmap string ZoneIndex) :
  LoadZonesDir walk rf = Ok out →
  ∃ ents, walk = Ok ents ∧ out ≠ ∅
          ∧ foldR (loadFile rf) (merge_sort String.le (dnsEntries ents)) ∅ = Ok out.
Proof.
  unfold LoadZonesDir. intros (ents & -> & (out' & Hfold & Hsize)%bindR_Ok)%bindR_Ok.
  destruct (Nat.eqb_spec (size out') 0) as [|Hne]; [done|].
  injection Hsize as <-. exists ents. split_and!; [done| |done].
  by apply map_size_non_empty_iff.
Qed.

Lemma LoadZonesDir_keys (walk : Result (list DirEntry))
  (rf : string → Result ZoneFile) (out : gmap string ZoneIndex) :
  LoadZonesDir walk rf = Ok out →
  ∀ k zi, out !! k = Some zi → ZoneFQDN zi = k ∧ ∃ zf, ToIndex zf = Ok zi.
Proof.
  intros (ents & _ & _ & Hfold)%LoadZonesDir_Ok. revert Hfold.
  apply (foldR_invariant _
    (λ o : gmap string ZoneIndex,
       ∀ k zi, o !! k = Some zi → ZoneFQDN zi = k ∧ ∃ zf, ToIndex zf = Ok zi)).
  - intros s f s' _ Hs (zf & zi & _ & Hidx & ->)%loadFile_Ok k zi'.
    intros [[<- <-] | [_ Hk]]%lookup_insert_Some; [eauto | by apply Hs].
  - intros k zi. by rewrite lookup_empty.
Qed.

Lemma initialStore_snoc (l : list (string * ZoneIndex)) (x : string * ZoneIndex) :
  initialStore (l ++ [x]) = <[ZoneFQDN x.2 := x.2]> (initialStore l).
Proof. unfold initialStore. by rewrite fold_left_app. Qed.

Lemma initialStore_list_to_map (l : list (string * ZoneIndex)) :
  NoDup l.*1 → (∀ k zi, (k, zi) ∈ l → ZoneFQDN zi = k) →
  initialStore l = list_to_map l.
Proof.
  induction l as [|[k zi] l IH] using rev_ind; [done|].
  rewrite fmap_app. intros [Hl [Hk _]]%NoDup_app Hkeys.
  rewrite initialStore_snoc, IH; [|done|].
  - simpl. rewrite (Hkeys k zi) by (apply elem_of_app; right; by left).
    rewrite list_to_map_snoc; [done|].
    intros Hin. apply (Hk k Hin). by left.
  - intros k' zi' Hin. apply Hkeys. apply elem_of_app. by left.
Qed.

End LoadDirFacts.

Section LoadDirProperties.
Context `{GoLibs}.

(** X10.  When [LoadZonesDir] succeeds, the map it returns is not empty,
    every index in it is keyed by its own zone FQDN and is the index of a
    [.dns] file of the directory; and every [.dns] file of the directory
    was read, was accepted by the loader and has its zone in the map. *)
Theorem LoadZonesDir_result (walk : Result (list DirEntry))
  (rf : string → Result ZoneFile) (out : gmap string ZoneIndex) :
  LoadZonesDir walk rf = Ok out →
  ∃ ents, walk = Ok ents ∧ out ≠ ∅
    ∧ (∀ k zi, out !! k = Some zi →
         ZoneFQDN zi = k
         ∧ ∃ f zf, f ∈ dnsEntries ents ∧ rf f = Ok zf ∧ ToIndex zf = Ok zi)
    ∧ (∀ f, f ∈ dnsEntries ents →
         ∃ zf zi, rf f = Ok zf ∧ ToIndex zf = Ok zi
                  ∧ is_Some (out !! ZoneFQDN zi)).
Proof.
  intros (ents & Hwalk & Hne & Hfold)%LoadZonesDir_Ok.
  exists ents. split_and!; [done..| |].
  - revert Hfold.
    apply (foldR_invariant _
      (λ o : gmap string ZoneIndex,
         ∀ k zi, o !! k = Some zi →
           ZoneFQDN zi = k
           ∧ ∃ f zf, f ∈ dnsEntries ents ∧ rf f = Ok zf ∧ ToIndex zf = Ok zi)).
    + intros s f s' Hf Hs (zf & zi & Hrf & Hidx & ->)%loadFile_Ok k zi'.
      intros [[<- <-] | [_ Hk]]%lookup_insert_Some; [|by apply Hs].
      split; [done|]. exists f, zf. split_and!; [|done..].
      by rewrite merge_sort_Permutation in Hf.
    + intros k zi. by rewrite lookup_empty.
  - intros f Hf. rewrite <- (merge_sort_Permutation String.le) in Hf.
    destruct (foldR_at _ _ _ _ _ Hfold Hf) as (s1 & s2 & post & Hload & Hpost).
    apply loadFile_Ok in Hload as (zf & zi & Hrf & Hidx & ->).
    exists zf, zi. split_and!; [done..|].
    eapply foldR_loadFile_keys; [done|]. rewrite lookup_insert_eq. eauto.
Qed.

(** X11.  One [.dns] file that cannot be read or decoded, or that the
    loader rejects, makes [LoadZonesDir] fail as a whole, whatever the
    other files are. *)
Theorem LoadZonesDir_all_or_nothing (ents : list DirEntry)
  (rf : string → Result ZoneFile) (f : string) :
  f ∈ dnsEntries ents →
  (∀ zf, rf f = Ok zf → ∃ e, ToIndex zf = Err e) →
  ∃ e, LoadZonesDir (Ok ents) rf = Err e.
Proof.
  intros Hf Hbad.
  destruct (LoadZonesDir (Ok ents) rf) as [out|e] eqn:Hload; [exfalso|eauto].
  apply LoadZonesDir_Ok in Hload as (ents' & [= <-] & _ & Hfold).
  rewrite <- (merge_sort_Permutation String.le) in Hf.
  destruct (foldR_at _ _ _ _ _ Hfold Hf) as (s1 & s2 & post & Hload & _).
  apply loadFile_Ok in Hload as (zf & zi & Hrf & Hidx & _).
  destruct (Hbad zf Hrf) as [e He]. congruence.
Qed.

(** X12.  At start-up the store is filled with one [SwapZone] per loaded
    index; whatever the order in which the loaded map is enumerated, the
    store then is that map. *)
Theorem initialStore_is_loaded_map (walk : Result (list DirEntry))
  (rf : string → Result ZoneFile) (out : gmap string ZoneIndex)
  (order : list (string * ZoneIndex)) :
  LoadZonesDir walk rf = Ok out → order ≡ₚ map_to_list out →
  initialStore order = out.
Proof.
  intros Hload Hperm.
  rewrite initialStore_list_to_map.
  - rewrite <- (list_to_map_to_list out). apply list_to_map_proper; [|done].
    rewrite Hperm. apply NoDup_fst_map_to_list.
  - rewrite Hperm. apply NoDup_fst_map_to_list.
  - intros k zi Hin. rewrite Hperm in Hin. apply elem_of_map_to_list in Hin.
    by destruct (LoadZonesDir_keys _ _ _ Hload k zi Hin).
Qed.

(** X13.  Once an index that the loader produced is swapped in, a query
    for the zone's own name, in any letter case, finds that index. *)
Theorem SwapZone_then_GetZoneForName (s : gmap string ZoneIndex)
  (zf : ZoneFile) (zi : ZoneIndex) (qname : string) :
  ToIndex zf = Ok zi → ToLower qname = ZoneFQDN zi →
  GetZoneForName (SwapZone s zi) qname = (Some zi, ZoneFQDN zi).
Proof.
  intros [Hne _]%ToIndex_ZoneFQDN Hq. rewrite <- Hq.
  apply GetZoneForName_installed; rewrite Hq; [|done].
  unfold SwapZone. by rewrite lookup_insert_eq.
Qed.

End LoadDirProperties.

(* ===================================================================== *)
(** * The reload coordinator: what a reload keeps *)
(* ===================================================================== *)

Section ReloadProperties.
Context `{GoLibs}.

Lemma GetZoneForName_key (s : gmap string ZoneIndex) (qname : string) :
  (GetZoneForName s qname).2 = "" ∨ is_Some (s !! (GetZoneForName s qname).2).
Proof.
  pose proof (GetZoneForName_in_spec s (map_to_list s) qname (reflexivity _)) as Hs.
  fold (GetZoneForName s qname) in Hs.
  destruct (GetZoneForName s qname) as [[z|] best]; simpl.
  - right. destruct Hs as [-> _]. eauto.
  - left. by destruct Hs.
Qed.

(** X14.  After a zone file is removed, the zone named like the file
    (lowercased, with a final dot) is no longer in the store and no query
    is assigned to it, the other zones are as before, and neither cache
    holds an entry whose name ends with that zone name. *)
Theorem OnZoneRemoved_effect (z : zoneReloader) (zoneName : string) :
  let k := ToLower zoneName +:+ "." in
  let z' := OnZoneRemoved z zoneName in
  store z' !! k = None
  ∧ (∀ qname, (GetZoneForName (store z') qname).2 ≠ k)
  ∧ (∀ k', k' ≠ k → store z' !! k' = store z !! k')
  ∧ (∀ name qtype rcode, HasSuffix name k = true →
       lru.find (name, qtype) (lru.items (pos (cache z'))) = None
       ∧ lru.find (name, qtype, rcode) (lru.items (neg (cache z'))) = None).
Proof.
  intros k z'.
  assert (Hkey : ToLower (MustFQDN (zoneName +:+ ".")) = k).
  { unfold MustFQDN, k.
    assert (HasSuffix (zoneName +:+ ".") "." = true) as ->
      by (apply HasSuffix_spec; by exists zoneName).
    destruct (String.eqb _ ""); by rewrite ToLower_app. }
  assert (Hgone : store z' !! k = None).
  { unfold z', OnZoneRemoved, RemoveZone. simpl. rewrite Hkey.
    apply lookup_delete_eq. }
  split_and!; [done| | |].
  - intros qname Heq.
    destruct (GetZoneForName_key (store z') qname) as [Hempty | [zi Hzi]].
    + rewrite Heq in Hempty. unfold k in Hempty. by destruct (ToLower zoneName).
    + rewrite Heq, Hgone in Hzi. done.
  - intros k' Hne. unfold z', OnZoneRemoved, RemoveZone. simpl. rewrite Hkey.
    by apply lookup_delete_ne.
  - intros name qtype rcode Hsuf. unfold z', OnZoneRemoved. simpl.
    apply InvalidateZone_removes. rewrite ToLower_app. done.
Qed.

(** X15.  No reload event, successful or not, removes a zone from the
    store or lowers the serial of an installed zone. *)
Theorem OnZoneUpdated_serial_monotone (z : zoneReloader) (file : Result ZoneFile)
  (k : string) (old : ZoneIndex) :
  store z !! k = Some old →
  ∃ new, store (OnZoneUpdated z file) !! k = Some new ∧ Serial old ≤ Serial new.
Proof.
  intros Hold. unfold OnZoneUpdated.
  destruct file as [zf|e]; [|by exists old].
  destruct (ToIndex zf) as [zi|e] eqn:Hidx; [|by exists old].
  assert (Hswap : Serial old ≤ Serial zi ∨ k ≠ ZoneFQDN zi →
            ∃ new, SwapZone (store z) zi !! k = Some new ∧ Serial old ≤ Serial new).
  { intros Hcase. unfold SwapZone.
    destruct (decide (ZoneFQDN zi = k)) as [<-|Hne].
    - rewrite lookup_insert_eq. exists zi. split; [done|].
      by destruct Hcase.
    - rewrite lookup_insert_ne by done. by exists old. }
  destruct (decide (k = ZoneFQDN zi)) as [->|Hne].
  - destruct (ToIndex_ZoneFQDN _ _ Hidx) as [Hne Hlow].
    rewrite (GetZoneForName_installed (store z) (ZoneFQDN zi) old);
      [|by rewrite Hlow..].
    simpl. destruct (Z.leb_spec (Serial zi) (Serial old)); [by exists old|].
    simpl. apply Hswap. left. lia.
  - destruct (GetZoneForName (store z) (ZoneFQDN zi)).1 as [o|].
    + destruct (Serial zi <=? Serial o); [by exists old|]. simpl. apply Hswap. by right.
    + simpl. apply Hswap. by right.
Qed.

(** X16.  A reload with a valid file whose serial is greater than that
    of the installed zone of the same name, or for whose zone name no
    installed zone name is a suffix, installs the new index: queries for
    the zone's name find it, and neither cache holds an entry whose name
    ends with the zone's name. *)
Theorem OnZoneUpdated_installs (z : zoneReloader) (zf : ZoneFile) (zi : ZoneIndex) :
  ToIndex zf = Ok zi →
  (∃ old, store z !! ZoneFQDN zi = Some old ∧ Serial old < Serial zi)
  ∨ (∀ k, is_Some (store z !! k) → HasSuffix (ZoneFQDN zi) k = true → k = "") →
  let z' := OnZoneUpdated z (Ok zf) in
  GetZoneForName (store z') (ZoneFQDN zi) = (Some zi, ZoneFQDN zi)
  ∧ (∀ name qtype rcode, HasSuffix name (ZoneFQDN zi) = true →
       lru.find (name, qtype) (lru.items (pos (cache z'))) = None
       ∧ lru.find (name, qtype, rcode) (lru.items (neg (cache z'))) = None).
Proof.
  intros Hidx Hcase z'.
  destruct (ToIndex_ZoneFQDN _ _ Hidx) as [Hne Hlow].
  assert (Hz' : z' = {| store := SwapZone (store z) zi;
                        cache := InvalidateZone (cache z) (ZoneFQDN zi) |}).
  { destruct Hcase as [(old & Hold & Hlt) | Hnone].
    - by eapply OnZoneUpdated_newer_swaps.
    - unfold z', OnZoneUpdated. rewrite Hidx.
      pose proof (GetZoneForName_in_spec (store z) (map_to_list (store z))
                    (ZoneFQDN zi) (reflexivity _)) as Hs.
      fold (GetZoneForName (store z) (ZoneFQDN zi)) in Hs. rewrite Hlow in Hs.
      destruct (GetZoneForName (store z) (ZoneFQDN zi)) as [[o|] best]; [|done].
      destruct Hs as (Hbest & Hbne & Hsuf & _). destruct Hbne.
      apply Hnone; eauto. }
  rewrite Hz'. simpl. split.
  - rewrite (GetZoneForName_installed _ (ZoneFQDN zi) zi); rewrite Hlow; [done| |done].
    unfold SwapZone. by rewrite lookup_insert_eq.
  - intros name qtype rcode Hsuf. apply InvalidateZone_removes. by rewrite Hlow.
Qed.

End ReloadProperties.

(* ===================================================================== *)
(** * The response cache: round trips, expiry, invalidation, capacity *)
(* ===================================================================== *)

Section LruMoreFacts.
Context {K V : Type} `{EqDecision K}.
Implicit Types (k : K) (l : list (K * V)) (c : lru.Cache K V).

Lemma find_without_ne k k' l : k ≠ k' → lru.find k (lru.without k' l) = lru.find k l.
Proof.
  intros Hne. unfold lru.without. induction l as [|[k1 v] l IH]; [done|].
  rewrite filter_cons. simpl. destruct (decide (k1 ≠ k')) as [Hk1|Hk1]; simpl.
  - by rewrite IH.
  - apply dec_stable in Hk1 as ->. by rewrite decide_False.
Qed.

Lemma length_without k l : (length (lru.without k l) ≤ length l)%nat.
Proof. unfold lru.without. apply length_filter. Qed.

Lemma length_without_found k l v :
  lru.find k l = Some v → (length (lru.without k l) < length l)%nat.
Proof.
  unfold lru.without. induction l as [|[k1 v1] l IH]; [done|].
  simpl. rewrite filter_cons. simpl.
  destruct (decide (k1 = k)) as [->|Hne].
  - intros _. rewrite decide_False by (by intros ?). 
    pose proof (length_filter (λ kv : K * V, kv.1 ≠ k) l). lia.
  - intros Hfind. rewrite decide_True by done. simpl. specialize (IH Hfind). lia.
Qed.

Lemma find_front k v l : lru.find k ((k, v) :: l) = Some v.
Proof. simpl. by rewrite decide_True. Qed.

Lemma find_Add_eq k v c : 1 ≤ lru.cap c → lru.find k (lru.items (lru.Add k v c)) = Some v.
Proof.
  intros Hcap. unfold lru.Add.
  destruct (lru.find k (lru.items c)); [apply find_front|].
  destruct (lru.items c) as [|x l]; simpl.
  - destruct (Z.ltb_spec (lru.cap c) (Z.of_nat 1)); [lia|]. simpl.
    by rewrite decide_True.
  - destruct (lru.cap c <? _); simpl; by rewrite decide_True.
Qed.

Lemma Get_result k c : (lru.Get k c).1 = lru.find k (lru.items c).
Proof. unfold lru.Get. by destruct (lru.find k (lru.items c)). Qed.

Lemma find_Get k k' c :
  lru.find k' (lru.items (lru.Get k c).2) = lru.find k' (lru.items c).
Proof.
  unfold lru.Get. destruct (lru.find k (lru.items c)) as [v|] eqn:Hk; [|done].
  simpl. destruct (decide (k = k')) as [<-|Hne]; [done|].
  by apply find_without_ne.
Qed.

Lemma remove_matching_frame (P : K → bool) (ks : list K) c k :
  P k = false →
  lru.find k (lru.items
     (fold_left (λ p k', if P k' then lru.Remove k' p else p) ks c))
  = lru.find k (lru.items c).
Proof.
  intros HP. revert c. induction ks as [|k' ks IH]; intros c; simpl; [done|].
  rewrite IH. destruct (P k') eqn:HP'; [|done]. simpl.
  apply find_without_ne. intros ->. congruence.
Qed.

Lemma removelast_length {A} (l : list A) :
  length (removelast l) = Nat.pred (length l).
Proof. rewrite removelast_firstn_len, length_take. lia. Qed.

Lemma lru_bounded_Add k v c : lru_bounded c → lru_bounded (lru.Add k v c).
Proof.
  unfold lru_bounded, lru.Add. intros Hb.
  destruct (lru.find k (lru.items c)) as [v'|] eqn:Hk; simpl.
  - pose proof (length_without_found _ _ _ Hk). lia.
  - destruct (lru.items c) as [|x l] eqn:Hl.
    + simpl in *. destruct (Z.ltb_spec (lru.cap c) (Z.of_nat 1)); simpl; lia.
    + pose proof (removelast_length (x :: l)) as Hrl.
      destruct (lru.cap c <? _) eqn:Hlt;
        [apply Z.ltb_lt in Hlt | apply Z.ltb_ge in Hlt];
        simpl length in *; [rewrite Hrl|]; lia.
Qed.

Lemma lru_bounded_Get k c : lru_bounded c → lru_bounded (lru.Get k c).2.
Proof.
  unfold lru_bounded, lru.Get. intros Hb.
  destruct (lru.find k (lru.items c)) as [v|] eqn:Hk; simpl; [|done].
  pose proof (length_without_found _ _ _ Hk). lia.
Qed.

Lemma lru_bounded_Remove k c : lru_bounded c → lru_bounded (lru.Remove k c).
Proof.
  unfold lru_bounded, lru.Remove. simpl. pose proof (length_without k (lru.items c)). lia.
Qed.

Lemma lru_bounded_remove_matching (P : K → bool) (ks : list K) c :
  lru_bounded c →
  lru_bounded (fold_left (λ p k', if P k' then lru.Remove k' p else p) ks c).
Proof.
  revert c. induction ks as [|k ks IH]; intros c Hb; simpl; [done|].
  apply IH. destruct (P k); [by apply lru_bounded_Remove | done].
Qed.

Lemma cap_remove_matching (P : K → bool) (ks : list K) c :
  lru.cap (fold_left (λ p k', if P k' then lru.Remove k' p else p) ks c) = lru.cap c.
Proof.
  revert c. induction ks as [|k ks IH]; intros c; simpl; [done|].
  rewrite IH. by destruct (P k).
Qed.

End LruMoreFacts.

Section CacheProperties.
Context {T : Type}.
Implicit Types (c : RRCaches T).

Lemma GetPositive_after_Put c (name name' : string) (qtype : Z) (data : T)
  (ttl now now' : Z) :
  1 ≤ lru.cap (pos c) → ToLower name' = ToLower name → now' < now + ttl →
  (GetPositive (PutPositive c name qtype data ttl now) name' qtype now').1
  = Some data.
Proof.
  intros Hcap Hname Hlt. unfold GetPositive, PutPositive, key. simpl.
  rewrite Hname.
  pose proof (find_Add_eq (ToLower name, qtype)
                {| ExpireAt := now + ttl; Data := data |} (pos c) Hcap) as Hfind.
  rewrite <- Get_result in Hfind.
  destruct (lru.Get _ _) as [[v|] p]; simpl in Hfind; [|done].
  injection Hfind as ->. simpl.
  destruct (Z.ltb_spec now' (now + ttl)); [done | lia].
Qed.

(** X17.  A response put in the positive cache (capacity at least 1) is
    returned by a read before its expiry for the same name in any letter
    case and the same qtype. *)
Theorem PutPositive_GetPositive c (name name' : string) (qtype : Z) (data : T)
  (ttl now now' : Z) :
  1 ≤ lru.cap (pos c) → ToLower name' = ToLower name → now' < now + ttl →
  (GetPositive (PutPositive c name qtype data ttl now) name' qtype now').1
  = Some data.
Proof. apply GetPositive_after_Put. Qed.

(** X18.  A read of the positive cache never returns an expired entry:
    what it returns is the data of the entry under the lowercased name
    and qtype, and the clock is before the entry's expiry.  After a read
    that returns nothing, there is no entry under that key: an expired
    entry is removed by the read that meets it. *)
Theorem GetPositive_fresh_or_evicted c (name : string) (qtype now : Z) :
  (∀ data, (GetPositive c name qtype now).1 = Some data →
     ∃ v, lru.find (key name qtype) (lru.items (pos c)) = Some v
          ∧ Data v = data ∧ now < ExpireAt v)
  ∧ ((GetPositive c name qtype now).1 = None →
     lru.find (key name qtype) (lru.items (pos (GetPositive c name qtype now).2))
     = None).
Proof.
  unfold GetPositive.
  pose proof (Get_result (key name qtype) (pos c)) as Hres.
  pose proof (find_Get (key name qtype) (key name qtype) (pos c)) as Hafter.
  destruct (lru.Get (key name qtype) (pos c)) as [[v|] p]; simpl in *.
  - destruct (Z.ltb_spec now (ExpireAt v)); simpl.
    + split; [|done]. intros data [= <-]. by exists v.
    + split; [done|]. intros _. apply find_without_eq.
  - split; [done|]. intros _. by rewrite Hafter.
Qed.

Lemma GetNegative_after_Put c (name name' : string) (qtype rcode : Z)
  (ttl now now' : Z) :
  1 ≤ lru.cap (neg c) → ToLower name' = ToLower name → now' < now + ttl →
  (GetNegative (PutNegative c name qtype rcode ttl now) name' qtype rcode now').1
  = true.
Proof.
  intros Hcap Hname Hlt. unfold GetNegative, PutNegative. simpl.
  rewrite Hname.
  pose proof (find_Add_eq (ToLower name, qtype, rcode)
                {| ExpireAt := now + ttl; Data := tt |} (neg c) Hcap) as Hfind.
  rewrite <- Get_result in Hfind.
  destruct (lru.Get _ _) as [[v|] p]; simpl in Hfind; [|done].
  injection Hfind as ->. simpl.
  destruct (Z.ltb_spec now' (now + ttl)); [done | lia].
Qed.

(** X19.  A negative entry (capacity at least 1) is found before its
    expiry for the same name in any letter case, the same qtype and the
    same rcode. *)
Theorem PutNegative_GetNegative c (name name' : string) (qtype rcode : Z)
  (ttl now now' : Z) :
  1 ≤ lru.cap (neg c) → ToLower name' = ToLower name → now' < now + ttl →
  (GetNegative (PutNegative c name qtype rcode ttl now) name' qtype rcode now').1
  = true.
Proof. apply GetNegative_after_Put. Qed.

(** X20.  After [InvalidateZone(zone)] a read for a name that ends with
    the zone name (both lowercased) finds nothing, in the positive and in
    the negative cache, at any time. *)
Theorem InvalidateZone_then_Get c (zone name : string) (qtype rcode now : Z) :
  HasSuffix (ToLower name) (ToLower zone) = true →
  (GetPositive (InvalidateZone c zone) name qtype now).1 = None
  ∧ (GetNegative (InvalidateZone c zone) name qtype rcode now).1 = false.
Proof.
  intros Hsuf.
  destruct (InvalidateZone_removes c zone (ToLower name) qtype rcode Hsuf)
    as [Hpos Hneg].
  unfold GetPositive, GetNegative, key.
  pose proof (Get_result (ToLower name, qtype) (pos (InvalidateZone c zone))) as Hp.
  pose proof (Get_result (ToLower name, qtype, rcode) (neg (InvalidateZone c zone)))
    as Hn.
  rewrite Hpos in Hp. rewrite Hneg in Hn.
  destruct (lru.Get (ToLower name, qtype) _) as [[v|] p]; simpl in Hp; [done|].
  destruct (lru.Get (ToLower name, qtype, rcode) _) as [[v|] n]; simpl in Hn; done.
Qed.

(** X21.  [InvalidateZone(zone)] leaves the entries of every name that
    does not end with the zone name as they are: reads for such a name
    give the same result as without the invalidation. *)
Theorem InvalidateZone_frame c (zone name : string) (qtype rcode now : Z) :
  HasSuffix (ToLower name) (ToLower zone) = false →
  (GetPositive (InvalidateZone c zone) name qtype now).1
  = (GetPositive c name qtype now).1
  ∧ (GetNegative (InvalidateZone c zone) name qtype rcode now).1
    = (GetNegative c name qtype rcode now).1.
Proof.
  intros Hsuf.
  assert (Hpos : lru.find (ToLower name, qtype) (lru.items (pos (InvalidateZone c zone)))
                 = lru.find (ToLower name, qtype) (lru.items (pos c))).
  { unfold InvalidateZone. simpl.
    by apply (remove_matching_frame (λ k : string * Z, HasSuffix k.1 (ToLower zone))). }
  assert (Hneg : lru.find (ToLower name, qtype, rcode)
                   (lru.items (neg (InvalidateZone c zone)))
                 = lru.find (ToLower name, qtype, rcode) (lru.items (neg c))).
  { unfold InvalidateZone. simpl.
    by apply (remove_matching_frame
                (λ k : string * Z * Z, HasSuffix k.1.1 (ToLower zone))). }
  unfold GetPositive, GetNegative, key.
  pose proof (Get_result (ToLower name, qtype) (pos (InvalidateZone c zone))) as Hp1.
  pose proof (Get_result (ToLower name, qtype) (pos c)) as Hp2.
  pose proof (Get_result (ToLower name, qtype, rcode) (neg (InvalidateZone c zone)))
    as Hn1.
  pose proof (Get_result (ToLower name, qtype, rcode) (neg c)) as Hn2.
  rewrite Hpos, <- Hp2 in Hp1. rewrite Hneg, <- Hn2 in Hn1.
  destruct (lru.Get (ToLower name, qtype) (pos (InvalidateZone c zone))) as [o1 p1].
  destruct (lru.Get (ToLower name, qtype) (pos c)) as [o2 p2].
  destruct (lru.Get (ToLower name, qtype, rcode) (neg (InvalidateZone c zone)))
    as [o3 p3].
  destruct (lru.Get (ToLower name, qtype, rcode) (neg c)) as [o4 p4].
  simpl in *. subst o1 o3. split.
  - destruct o2 as [v|]; [|done]. by destruct (now <? ExpireAt v).
  - destruct o4 as [v|]; [|done]. by destruct (now <? ExpireAt v).
Qed.

(** X22.  The caches never grow beyond their capacity: a cache pair
    built by [NewRRCaches] is within it, and every operation keeps a pair
    within it. *)
Theorem caches_stay_bounded c (name zone : string) (qtype rcode ttl now : Z)
  (data : T) :
  caches_bounded c →
  caches_bounded (PutPositive c name qtype data ttl now)
  ∧ caches_bounded (PutNegative c name qtype rcode ttl now)
  ∧ caches_bounded (GetPositive c name qtype now).2
  ∧ caches_bounded (GetNegative c name qtype rcode now).2
  ∧ caches_bounded (InvalidateZone c zone)
  ∧ (∀ N c0, NewRRCaches (T := T) N = Ok c0 → caches_bounded c0).
Proof.
  intros [Hp Hn]. split_and!.
  - split; [by apply lru_bounded_Add | done].
  - split; [done | by apply lru_bounded_Add].
  - unfold GetPositive.
    pose proof (lru_bounded_Get (key name qtype) (pos c) Hp) as Hg.
    destruct (lru.Get (key name qtype) (pos c)) as [[v|] p]; simpl in *; [|done].
    destruct (now <? ExpireAt v); simpl; split; try done.
    by apply lru_bounded_Remove.
  - unfold GetNegative.
    pose proof (lru_bounded_Get (ToLower name, qtype, rcode) (neg c) Hn) as Hg.
    destruct (lru.Get (ToLower name, qtype, rcode) (neg c)) as [[v|] n];
      simpl in *; [|done].
    destruct (now <? ExpireAt v); simpl; split; try done.
    by apply lru_bounded_Remove.
  - unfold InvalidateZone. simpl. split; by apply lru_bounded_remove_matching.
  - intros N c0. unfold NewRRCaches, lru.New.
    destruct (Z.leb_spec N 0); [done|]. simpl.
    destruct (Z.leb_spec (N ÷ 10) 0); [done|]. simpl.
    intros [= <-]. unfold caches_bounded, lru_bounded. simpl. lia.
Qed.

End CacheProperties.

(* ===================================================================== *)
(** * The query engine: answers, negative answers and the cache *)
(* ===================================================================== *)

Section EngineFacts.
Context `{GoLibs}.

Lemma toRR_cname (name : string) (rs : RRSet) :
  rs_Type rs = TypeCNAME →
  toRR name rs = [dns.CNAME (mkHdr name dns.TypeCNAME (rs_TTL rs)) (rs_CNAME rs)].
Proof. intros Hty. unfold toRR. by rewrite Hty. Qed.

(** In every record that [toRR] makes, the owner is the given name, the
    TTL is the TTL of the RRset, the class is IN and the numeric type is
    the one of the RRset's type. *)
Lemma toRR_headers (name : string) (rs : RRSet) (rr : dns.RR) :
  rr ∈ toRR name rs →
  dns.Name (dns.Header rr) = name
  ∧ dns.Ttl (dns.Header rr) = rs_TTL rs
  ∧ dns.Class (dns.Header rr) = dns.ClassINET
  ∧ toRRType (dns.Rrtype (dns.Header rr)) = rs_Type rs.
Proof.
  unfold toRR.
  destruct (String.eqb_spec (rs_Type rs) TypeA) as [->|_].
  { intros (x & <- & _)%list_elem_of_In%in_map_iff. done. }
  destruct (String.eqb_spec (rs_Type rs) TypeAAAA) as [->|_].
  { intros (x & <- & _)%list_elem_of_In%in_map_iff. done. }
  destruct (String.eqb_spec (rs_Type rs) TypeCNAME) as [->|_].
  { intros ->%list_elem_of_singleton. done. }
  destruct (String.eqb_spec (rs_Type rs) TypeNS) as [->|_].
  { intros (x & <- & _)%list_elem_of_In%in_map_iff. done. }
  destruct (String.eqb_spec (rs_Type rs) TypeTXT) as [->|_].
  { intros (x & <- & _)%list_elem_of_In%in_map_iff. done. }
  destruct (String.eqb_spec (rs_Type rs) TypeMX) as [->|_].
  { intros (x & <- & _)%list_elem_of_In%in_map_iff. done. }
  destruct (String.eqb_spec (rs_Type rs) TypeSRV) as [->|_].
  { intros (x & <- & _)%list_elem_of_In%in_map_iff. done. }
  by intros ?%elem_of_nil.
Qed.

Lemma findWildcard_None (zi : ZoneIndex) (name qt : string) (wcs : list string) :
  existsb (λ wc, bool_decide (is_Some (ByName zi !! wc))) wcs = false →
  findWildcard zi name qt wcs = None.
Proof.
  induction wcs as [|wc wcs IH]; simpl; [done|].
  intros [Hwc Hrest]%orb_false_iff. apply bool_decide_eq_false in Hwc.
  destruct (ByName zi !! wc) as [m|]; [destruct Hwc; eauto | by apply IH].
Qed.

(** The closest wildcard owner that has the type answers. *)
Lemma findWildcard_first (zi : ZoneIndex) (name qt : string)
  (pre post : list string) (wc : string) (m : gmap string RRSet) (rs : RRSet) :
  (∀ w m', w ∈ pre → ByName zi !! w = Some m' →
     m' !! qt = None ∧ m' !! TypeCNAME = None) →
  ByName zi !! wc = Some m → m !! qt = Some rs →
  findWildcard zi name qt (pre ++ wc :: post) = Some (toRR name rs, rs_TTL rs).
Proof.
  intros Hpre Hwc Hqt. induction pre as [|w pre IH]; simpl.
  - by rewrite Hwc, Hqt.
  - destruct (ByName zi !! w) as [m'|] eqn:Hw.
    + destruct (Hpre w m') as [-> ->]; [by left | done |].
      apply IH. intros w0 m0 Hin Hm0. apply (Hpre w0 m0); [by right | done].
    + apply IH. intros w0 m0 Hin Hm0. apply (Hpre w0 m0); [by right | done].
Qed.

(** A name that is in the index neither itself nor through a wildcard
    candidate has no RRset of any type. *)
Lemma findRRSet_absent (zi : ZoneIndex) (name : string) (qtype : Z) :
  hasName zi name = false → hasWildcardCandidate zi name = false →
  findRRSet zi name qtype = None.
Proof.
  intros Hn Hw. destruct (findRRSet zi name qtype) as [res|] eqn:Hfind; [|done].
  apply findRRSet_Some in Hfind. by rewrite Hn, Hw in Hfind.
Qed.

Lemma lookup_nxdomain (zi : ZoneIndex) (qname : string) (qtype : Z) :
  hasName zi (ToLower (Fqdn qname)) = false →
  hasWildcardCandidate zi (ToLower (Fqdn qname)) = false →
  lookup zi qname qtype = Returns ([], [], dns.RcodeNameError, 0).
Proof.
  intros Hn Hw. unfold lookup, maxCNAME. simpl.
  rewrite !findRRSet_absent by done.
  rewrite decide_False by set_solver. by rewrite Hn, Hw.
Qed.

(** In an index whose CNAME RRsets are stored as CNAME RRsets, what
    [findRRSet] gives for the type CNAME is one CNAME record. *)
Lemma findRRSet_cname_shape (zi : ZoneIndex) (cur : string)
  (rrset : list dns.RR) (t : Z) :
  (∀ n m rs, ByName zi !! n = Some m → m !! TypeCNAME = Some rs →
     rs_Type rs = TypeCNAME) →
  findRRSet zi cur dns.TypeCNAME = Some (rrset, t) →
  ∃ h target, rrset = [dns.CNAME h target].
Proof.
  intros Hwf. unfold findRRSet.
  change (toRRType dns.TypeCNAME) with TypeCNAME.
  destruct (ByName zi !! cur ≫= (λ m, m !! TypeCNAME)) as [rr|] eqn:Hexact.
  - apply bind_Some in Hexact as (m & Hm & Hrr).
    intros [= <- _]. rewrite toRR_cname by eauto. eauto.
  - clear Hexact. generalize (wildcardNames (SplitDomainName cur)).
    intros wcs. induction wcs as [|wc wcs IH]; simpl; [done|].
    destruct (ByName zi !! wc) as [m|] eqn:Hm; [|done].
    destruct (m !! TypeCNAME) as [rr|] eqn:Hrr; [|done].
    intros [= <- _]. rewrite toRR_cname by eauto. eauto.
Qed.

Lemma lookupLoop_no_panic (zi : ZoneIndex) (qtype : Z) (n : nat) (cur : string)
  (visited : gset string) (ans : list dns.RR) (ttl : Z) :
  (∀ n m rs, ByName zi !! n = Some m → m !! TypeCNAME = Some rs →
     rs_Type rs = TypeCNAME) →
  lookupLoop zi qtype n cur visited ans ttl ≠ LoopPanic.
Proof.
  intros Hwf. revert cur visited ans ttl.
  induction n as [|n IH]; intros cur visited ans ttl; simpl; [done|].
  destruct (findRRSet zi cur qtype) as [[rrset t]|]; [done|].
  destruct (decide (cur ∈ visited)); [done|].
  destruct (findRRSet zi cur dns.TypeCNAME) as [[rrset t]|] eqn:Hc; [|done].
  destruct (findRRSet_cname_shape _ _ _ _ Hwf Hc) as (h & target & ->).
  apply IH.
Qed.

Lemma lookup_no_panic (zi : ZoneIndex) (qname : string) (qtype : Z) :
  (∀ n m rs, ByName zi !! n = Some m → m !! TypeCNAME = Some rs →
     rs_Type rs = TypeCNAME) →
  ∃ res, lookup zi qname qtype = Returns res.
Proof.
  intros Hwf. unfold lookup.
  pose proof (lookupLoop_no_panic zi qtype maxCNAME (ToLower (Fqdn qname)) ∅ [] 0 Hwf)
    as Hnp.
  destruct (lookupLoop _ _ _ _ _ _ _); [eauto|done|].
  destruct (hasName _ _ || hasWildcardCandidate _ _); eauto.
Qed.

Lemma cap_GetPositive (c : RRCaches dns.Msg) (name : string) (qtype now : Z) :
  lru.cap (pos (GetPositive c name qtype now).2) = lru.cap (pos c)
  ∧ lru.cap (neg (GetPositive c name qtype now).2) = lru.cap (neg c).
Proof.
  unfold GetPositive, lru.Get.
  destruct (lru.find (key name qtype) (lru.items (pos c))) as [v|]; simpl; [|done].
  by destruct (now <? ExpireAt v).
Qed.

(** A read of the positive cache that finds an entry before its expiry. *)
Lemma GetPositive_hit (c : RRCaches dns.Msg) (name : string) (qtype now : Z)
  (v : rrValue dns.Msg) :
  lru.find (key name qtype) (lru.items (pos c)) = Some v → now < ExpireAt v →
  ∃ c', GetPositive c name qtype now = (Some (Data v), c').
Proof.
  intros Hfind Hlt. unfold GetPositive, lru.Get. rewrite Hfind.
  destruct (Z.ltb_spec now (ExpireAt v)); [eauto | lia].
Qed.

End EngineFacts.

Section EngineProperties.
Context `{GoLibs}.

(** X23.  With a store that holds only indices made by the loader,
    [ServeDNS] answers every request: the type assertion in the CNAME
    loop cannot fail. *)
Theorem ServeDNS_never_panics (net : list string → string → Z → option (dns.Msg * Z))
  (r : Resolver) (req : dns.Msg) (now : Z) :
  (∀ k zi, Zones r !! k = Some zi → ∃ zf, ToIndex zf = Ok zi) →
  ∃ resp r', ServeDNS net r req now = Returns (resp, r').
Proof.
  intros Hloaded. unfold ServeDNS.
  destruct (dns.Questions req) as [|q qs]; [eauto|].
  destruct (dns.Qtype q =? dns.TypeANY); [eauto|].
  destruct (GetPositive (Cache r) (Fqdn (dns.qName q)) (dns.Qtype q) now)
    as [[v|] c]; [eauto|].
  pose proof (GetZoneForName_in_spec (Zones r) (map_to_list (Zones r))
                (Fqdn (dns.qName q)) (reflexivity _)) as Hs.
  fold (GetZoneForName (Zones r) (Fqdn (dns.qName q))) in Hs.
  destruct (GetZoneForName (Zones r) (Fqdn (dns.qName q))) as [[zi|] best]; simpl.
  - destruct Hs as (Hzi & _).
    destruct (Hloaded _ _ Hzi) as [zf Hzf].
    destruct (lookup_no_panic zi (Fqdn (dns.qName q)) (dns.Qtype q))
      as [[[[ans addl] rcode] ttl] ->].
    { intros n m rs Hn Hrs. by destruct (ToIndex_wf _ _ Hzf _ _ _ _ Hn Hrs). }
    repeat case_match; eauto.
  - destruct (EnableResolver r); [|eauto].
    destruct (GetPositive c _ _ _) as [[cached|] c']; [eauto|].
    destruct (iterativeResolve net r _ _) as [[m ttl]|]; eauto.
Qed.


(** X25.  An in-zone query (not in the positive cache) for a name that
    is not in the index and has no wildcard candidate is answered
    NXDOMAIN with the authoritative flag, no answer records and the
    zone's SOA in the authority section; the answer is put in the
    negative cache, where it is found until the SOA's negative TTL has
    passed. *)
Theorem ServeDNS_nxdomain (net : list string → string → Z → option (dns.Msg * Z))
  (r : Resolver) (req : dns.Msg) (now : Z) (q : dns.Question)
  (qs : list dns.Question) (c : RRCaches dns.Msg) (zi : ZoneIndex) :
  let qname := Fqdn (dns.qName q) in
  let qtype := dns.Qtype q in
  dns.Questions req = q :: qs → qtype ≠ dns.TypeANY →
  GetPositive (Cache r) qname qtype now = (None, c) →
  (GetZoneForName (Zones r) qname).1 = Some zi →
  hasName zi (ToLower (Fqdn qname)) = false →
  hasWildcardCandidate zi (ToLower (Fqdn qname)) = false →
  1 ≤ lru.cap (neg (Cache r)) →
  ∃ resp r',
    ServeDNS net r req now = Returns (resp, r')
    ∧ dns.Rcode resp = dns.RcodeNameError ∧ dns.Authoritative resp = true
    ∧ dns.Answer resp = [] ∧ dns.Ns_ resp = [makeSOA zi]
    ∧ ∀ now', now' < now + NegativeTTL (zi_SOA zi) * Second →
        (GetNegative (Cache r') qname qtype dns.RcodeNameError now').1 = true.
Proof.
  intros qname qtype Hq Hany Hmiss Hzone Hn Hw Hcap.
  unfold ServeDNS. rewrite Hq. fold qname qtype.
  destruct (Z.eqb_spec qtype dns.TypeANY) as [|_]; [done|].
  rewrite Hmiss, Hzone, lookup_nxdomain by done. simpl.
  eexists _, _. split_and!; [done..|].
  intros now' Hlt. simpl. apply GetNegative_after_Put; [|done..].
  pose proof (cap_GetPositive (Cache r) qname qtype now) as [_ Hc].
  rewrite Hmiss in Hc. simpl in Hc. by rewrite Hc.
Qed.

(** X26.  When the index has an RRset of the asked type at the asked
    name, [lookup] answers with exactly the records of that RRset and its
    TTL, before any wildcard or CNAME is considered; every record has the
    lowercased, fully qualified qname as owner, class IN and the TTL of
    the RRset. *)
Theorem lookup_exact_match (zi : ZoneIndex) (qname : string) (qtype : Z)
  (m : gmap string RRSet) (rs : RRSet) :
  let name := ToLower (Fqdn qname) in
  ByName zi !! name = Some m → m !! toRRType qtype = Some rs →
  lookup zi qname qtype
  = Returns (toRR name rs, addAdditionals zi (toRR name rs), dns.RcodeSuccess,
             rs_TTL rs)
  ∧ ∀ rr, rr ∈ toRR name rs →
      dns.Name (dns.Header rr) = name ∧ dns.Ttl (dns.Header rr) = rs_TTL rs
      ∧ dns.Class (dns.Header rr) = dns.ClassINET.
Proof.
  intros name Hm Hrs. split.
  - unfold lookup, maxCNAME. fold name. simpl. unfold findRRSet.
    by rewrite Hm; simpl; rewrite Hrs.
  - intros rr Hrr. by destruct (toRR_headers _ _ _ Hrr) as (? & ? & ? & _).
Qed.

(** X27.  When the asked name has no RRset of the asked type of its own,
    the answer comes from the closest wildcard owner that has an RRset of
    that type (closer wildcard owners having neither the type nor a
    CNAME), and its records are given the asked name as owner. *)
Theorem lookup_wildcard_match (zi : ZoneIndex) (qname : string) (qtype : Z)
  (pre post : list string) (wc : string) (m : gmap string RRSet) (rs : RRSet) :
  let name := ToLower (Fqdn qname) in
  ByName zi !! name ≫= (λ m, m !! toRRType qtype) = None →
  wildcardNames (SplitDomainName name) = pre ++ wc :: post →
  (∀ w m', w ∈ pre → ByName zi !! w = Some m' →
     m' !! toRRType qtype = None ∧ m' !! TypeCNAME = None) →
  ByName zi !! wc = Some m → m !! toRRType qtype = Some rs →
  lookup zi qname qtype
  = Returns (toRR name rs, addAdditionals zi (toRR name rs), dns.RcodeSuccess,
             rs_TTL rs)
  ∧ ∀ rr, rr ∈ toRR name rs → dns.Name (dns.Header rr) = name.
Proof.
  intros name Hexact Hsplit Hpre Hwc Hrs. split.
  - unfold lookup, maxCNAME. fold name. simpl. unfold findRRSet.
    rewrite Hexact, Hsplit.
    by rewrite (findWildcard_first _ _ _ _ _ _ _ _ Hpre Hwc Hrs).
  - intros rr Hrr. by destruct (toRR_headers _ _ _ Hrr) as (? & _).
Qed.


(** X29.  An in-zone query (not in the positive cache) for a name that
    is in the index, has neither the asked type nor a CNAME, and no
    wildcard candidate, is answered NOERROR with empty answer, authority
    and additional sections, and nothing is cached. *)
Theorem ServeDNS_nodata (net : list string → string → Z → option (dns.Msg * Z))
  (r : Resolver) (req : dns.Msg) (now : Z) (q : dns.Question)
  (qs : list dns.Question) (c : RRCaches dns.Msg) (zi : ZoneIndex)
  (m : gmap string RRSet) :
  let qname := Fqdn (dns.qName q) in
  let qtype := dns.Qtype q in
  dns.Questions req = q :: qs → qtype ≠ dns.TypeANY →
  GetPositive (Cache r) qname qtype now = (None, c) →
  (GetZoneForName (Zones r) qname).1 = Some zi →
  ByName zi !! ToLower (Fqdn qname) = Some m →
  m !! toRRType qtype = None → m !! TypeCNAME = None →
  hasWildcardCandidate zi (ToLower (Fqdn qname)) = false →
  ∃ resp,
    ServeDNS net r req now = Returns (resp, set_Cache r c)
    ∧ dns.Rcode resp = dns.RcodeSuccess ∧ dns.Answer resp = []
    ∧ dns.Ns_ resp = [] ∧ dns.Extra resp = [].
Proof.
  intros qname qtype Hq Hany Hmiss Hzone Hm Hty Hc Hw.
  assert (Hfind : ∀ qt, m !! toRRType qt = None →
            findRRSet zi (ToLower (Fqdn qname)) qt = None).
  { intros qt Hqt. unfold findRRSet. rewrite Hm. simpl. rewrite Hqt.
    by apply findWildcard_None. }
  assert (Hlookup : lookup zi qname qtype = Returns ([], [], dns.RcodeSuccess, 0)).
  { unfold lookup, maxCNAME. simpl. rewrite (Hfind qtype Hty).
    rewrite decide_False by set_solver. rewrite (Hfind dns.TypeCNAME Hc).
    unfold hasName. rewrite Hm. by rewrite bool_decide_eq_true_2 by eauto. }
  unfold ServeDNS. rewrite Hq. fold qname qtype.
  destruct (Z.eqb_spec qtype dns.TypeANY) as [|_]; [done|].
  rewrite Hmiss, Hzone, Hlookup. simpl. eexists. by split_and!.
Qed.

Lemma fold_minTTL (l : list dns.RR) (acc : Z) :
  let r := fold_left (λ ttl rr, minTTL ttl (dns.Ttl (dns.Header rr))) l acc in
  (r = 0 → acc = 0 ∧ Forall (λ rr, dns.Ttl (dns.Header rr) = 0) l)
  ∧ (acc = 0 → Forall (λ rr, dns.Ttl (dns.Header rr) = 0) l → r = 0)
  ∧ (r ≠ 0 → (r = acc ∨ ∃ rr, rr ∈ l ∧ dns.Ttl (dns.Header rr) = r)
             ∧ (acc ≠ 0 → r ≤ acc)
             ∧ ∀ rr, rr ∈ l → dns.Ttl (dns.Header rr) ≠ 0 →
                     r ≤ dns.Ttl (dns.Header rr)).
Proof.
  revert acc. induction l as [|x l IH]; intros acc; simpl.
  - split_and!; [done|done|]. intros Hr. split_and!; [by left|lia|].
    intros rr Hin. by apply elem_of_nil in Hin.
  - specialize (IH (minTTL acc (dns.Ttl (dns.Header x)))). simpl in IH.
    destruct IH as (IH0 & IH0' & IHn).
    assert (Hmin : ∀ a b, (minTTL a b = 0 ↔ a = 0 ∧ b = 0)
                          ∧ (minTTL a b = a ∨ minTTL a b = b)
                          ∧ (a ≠ 0 → minTTL a b ≤ a) ∧ (b ≠ 0 → minTTL a b ≤ b)).
    { intros a b. unfold minTTL.
      destruct (Z.eqb_spec a 0), (Z.eqb_spec b 0), (Z.ltb_spec a b); lia. }
    destruct (Hmin acc (dns.Ttl (dns.Header x))) as (Hz & Hab & Hla & Hlb).
    split_and!.
    + intros Hr. destruct (IH0 Hr) as [Hm Hall]. apply Hz in Hm as [-> Hx].
      split; [done|]. by constructor.
    + intros -> Hall. apply Forall_cons in Hall as [Hx Hall].
      apply IH0'; [|done]. apply Hz. done.
    + intros Hr. destruct (IHn Hr) as (Hsrc & Hle & Hall). split_and!.
      * destruct Hsrc as [Hsrc | (rr & Hin & Hrr)].
        -- destruct Hab as [Hab | Hab]; [left; by rewrite Hsrc|].
           right. exists x. split; [by left | by rewrite Hsrc].
        -- right. exists rr. split; [by right | done].
      * intros Hacc. assert (minTTL acc (dns.Ttl (dns.Header x)) ≠ 0) by lia.
        specialize (Hle ltac:(done)). specialize (Hla Hacc). lia.
      * intros rr [-> | Hin]%elem_of_cons Hnz.
        -- assert (minTTL acc (dns.Ttl (dns.Header x)) ≠ 0) by lia.
           specialize (Hle ltac:(done)). specialize (Hlb Hnz). lia.
        -- by apply Hall.
Qed.

(** X30.  [extractMinTTL] skips records with TTL 0: over the answer,
    authority and additional sections together it gives the least TTL
    that is not 0, and 60 when there is none; it never gives 0. *)
Theorem extractMinTTL_least_nonzero (m : dns.Msg) :
  let all := dns.Answer m ++ dns.Ns_ m ++ dns.Extra m in
  extractMinTTL m ≠ 0
  ∧ (Forall (λ rr, dns.Ttl (dns.Header rr) = 0) all → extractMinTTL m = 60)
  ∧ (∀ rr, rr ∈ all → dns.Ttl (dns.Header rr) ≠ 0 →
       extractMinTTL m ≤ dns.Ttl (dns.Header rr)
       ∧ ∃ rr', rr' ∈ all ∧ dns.Ttl (dns.Header rr') = extractMinTTL m).
Proof.
  intros all. unfold extractMinTTL. simpl. rewrite <- !fold_left_app. fold all.
  destruct (fold_minTTL all 0) as (H0 & H0' & Hn). simpl in *.
  destruct (Z.eqb_spec (fold_left (λ ttl rr, minTTL ttl (dns.Ttl (dns.Header rr)))
                          all 0) 0) as [Heq | Hne].
  - destruct (H0 Heq) as [_ Hall]. split_and!; [done|done|].
    intros rr Hin Hnz. exfalso. apply Hnz.
    by apply (proj1 (Forall_forall _ _) Hall).
  - destruct (Hn Hne) as ([Hsrc | Hsrc] & _ & Hall); [done|].
    split_and!; [done| |].
    + intros Hzero. by rewrite H0' in Hne.
    + intros rr Hin Hnz. split; [by apply Hall | done].
Qed.

End EngineProperties.

(* ===================================================================== *)
(** * The properties at concrete zones, caches and queries *)
(* ===================================================================== *)

Section LoaderPropertyExamples.
#[local] Existing Instance plainLibs.

(** The theorem at the zone with the alias www. *)
Lemma ToIndex_required_fields_witness :
  zf_Zone zoneWww ≠ "" ∧ MName (zf_SOA zoneWww) ≠ ""
  ∧ RName (zf_SOA zoneWww) ≠ "" ∧ zf_NS zoneWww ≠ [].
Proof.
  apply (ToIndex_required_fields zoneWww (indexOf zoneWww)). by vm_compute.
Defined.

(** The theorem at the zone [Example.ORG], whose index is named [example.org.]. *)
Lemma ToIndex_header_witness :
  ZoneFQDN (indexOf zoneText) = ToLower (MustFQDN (zf_Zone zoneText))
  ∧ HasSuffix (ZoneFQDN (indexOf zoneText)) "." = true
  ∧ ToLower (ZoneFQDN (indexOf zoneText)) = ZoneFQDN (indexOf zoneText)
  ∧ Serial (indexOf zoneText) = zf_Serial zoneText
  ∧ zi_SOA (indexOf zoneText) = zf_SOA zoneText
  ∧ TTLDef (indexOf zoneText) = zf_TTLDefault zoneText.
Proof.
  apply (ToIndex_header zoneText (indexOf zoneText)). by vm_compute.
Defined.

(** The theorem at a zone file whose [ns] list is [NS1.Example.COM], the
    empty string and [ns2.example.com.]. *)
Lemma ToIndex_apex_NS_witness :
  ∃ m rs stored,
    ByName (indexOf zoneNsList) !! ZoneFQDN (indexOf zoneNsList) = Some m
    ∧ m !! TypeNS = Some rs
    ∧ stored `prefix_of` rs_NS rs
    ∧ Forall2 (λ s n,
                 (s = "" ∧ n = "")
                 ∨ (s ≠ "" ∧ HasSuffix n "." = true
                    ∧ n = ToLower (if HasSuffix s "." then s else s +:+ ".")))
              ["NS1.Example.COM"; ""; "ns2.example.com."] stored
    ∧ rs_TTL rs ≤ zf_TTLDefault zoneNsList.
Proof.
  apply (ToIndex_apex_NS zoneNsList (indexOf zoneNsList)). by vm_compute.
Defined.

(** The theorem at the alias record of the zone with the alias www. *)
Lemma ToIndex_record_stored_witness :
  ∃ m rs,
    ByName (indexOf zoneWww) !! NormalizeFQDN "www" (MustFQDN (zf_Zone zoneWww))
    = Some m
    ∧ m !! ToUpper "CNAME" = Some rs
    ∧ rs_TTL rs ≤ ensureTTL (Some 60) (zf_TTLDefault zoneWww).
Proof.
  apply (ToIndex_record_stored zoneWww (indexOf zoneWww)
           (rawRecord "www" "CNAME" 60 "@" JNull)).
  - by vm_compute.
  - by right; left.
Defined.

(** The theorem at the TXT record of the zone [Example.ORG]. *)
Lemma ToIndex_txt_verbatim_witness :
  ∃ vals m rs pre post,
    strs ["v=spf1 -all"; "hello"] = JArray (map JString vals)
    ∧ ByName (indexOf zoneText) !! NormalizeFQDN "@" (MustFQDN (zf_Zone zoneText))
      = Some m
    ∧ m !! TypeTXT = Some rs
    ∧ rs_TXT rs = pre ++ vals ++ post.
Proof.
  apply (ToIndex_txt_verbatim zoneText (indexOf zoneText)
           (rawRecord "@" "txt" 120 "" (strs ["v=spf1 -all"; "hello"]))).
  - by vm_compute.
  - by left.
  - by vm_compute.
Defined.

(** The theorem at the alias record of the zone with the alias www, whose target
    [@] is stored as [example.com.]. *)
Lemma ToIndex_cname_target_witness :
  ∃ m rs,
    ByName (indexOf zoneWww) !! NormalizeFQDN "www" (MustFQDN (zf_Zone zoneWww))
    = Some m
    ∧ m !! TypeCNAME = Some rs
    ∧ rs_CNAME rs = NormalizeFQDN "@" (MustFQDN (zf_Zone zoneWww)).
Proof.
  apply (ToIndex_cname_target zoneWww (indexOf zoneWww)
           (rawRecord "www" "CNAME" 60 "@" JNull)).
  - by vm_compute.
  - by right; left.
  - by vm_compute.
Defined.

(** The theorem at a zone file with an A record whose [values] field is
    a string. *)
Lemma ToIndex_bad_record_rejected_witness : ∃ e, ToIndex zoneValuesNoArray = Err e.
Proof.
  apply (ToIndex_bad_record_rejected zoneValuesNoArray
           (rawRecord "www" "A" 300 "" (JString "203.0.113.10"))).
  - by left.
  - right; right. split; [by vm_compute | done].
Defined.

(** The theorem at a zone file with two aliases at [www.example.com.]. *)
Lemma ToIndex_second_cname_rejected_witness : ∃ e, ToIndex zoneTwoCnames = Err e.
Proof.
  apply (ToIndex_second_cname_rejected zoneTwoCnames
           (rawRecord "www" "CNAME" 300 "a" JNull)
           (rawRecord "WWW" "cname" 300 "b" JNull)
           [] [rawRecord "a" "A" 300 "" (strs ["203.0.113.10"])] []).
  - reflexivity.
  - by vm_compute.
  - by vm_compute.
  - by vm_compute.
Defined.

(** The theorem at the address RRset of the apex of the zone with the alias www. *)
Lemma ToIndex_rrsets_well_formed_witness :
  rs_Type (rrsetAt (indexOf zoneWww) "example.com." TypeA) = TypeA
  ∧ TypeA ∈ zoneTypes
  ∧ Forall (λ ip, length ip = 4%nat)
           (rs_A (rrsetAt (indexOf zoneWww) "example.com." TypeA))
  ∧ Forall (λ ip, length ip = 16%nat ∧ To4 ip = None)
           (rs_AAAA (rrsetAt (indexOf zoneWww) "example.com." TypeA)).
Proof.
  apply (ToIndex_rrsets_well_formed zoneWww (indexOf zoneWww) "example.com." TypeA
           (namesAt (indexOf zoneWww) "example.com.")).
  - by vm_compute.
  - by vm_compute.
  - by vm_compute.
Defined.

End LoaderPropertyExamples.

Section StorePropertyExamples.
#[local] Existing Instance plainLibs.

(** The theorem at the directory with the two zone files. *)
Lemma LoadZonesDir_result_witness :
  ∃ ents, Ok zonesDir = Ok ents
    ∧ loadedOf (LoadZonesDir (Ok zonesDir) zonesDirFiles) ≠ ∅
    ∧ (∀ k zi, loadedOf (LoadZonesDir (Ok zonesDir) zonesDirFiles) !! k = Some zi →
         ZoneFQDN zi = k
         ∧ ∃ f zf, f ∈ dnsEntries ents ∧ zonesDirFiles f = Ok zf
                   ∧ ToIndex zf = Ok zi)
    ∧ (∀ f, f ∈ dnsEntries ents →
         ∃ zf zi, zonesDirFiles f = Ok zf ∧ ToIndex zf = Ok zi
                  ∧ is_Some (loadedOf (LoadZonesDir (Ok zonesDir) zonesDirFiles)
                             !! ZoneFQDN zi)).
Proof.
  apply (LoadZonesDir_result (Ok zonesDir) zonesDirFiles).
  assert (Hok : match LoadZonesDir (Ok zonesDir) zonesDirFiles with
                | Ok _ => True
                | Err _ => False
                end) by (vm_compute; exact I).
  by destruct (LoadZonesDir (Ok zonesDir) zonesDirFiles).
Defined.

(** The theorem at the same directory with a zone file that the loader rejects. *)
Lemma LoadZonesDir_all_or_nothing_witness :
  ∃ e, LoadZonesDir (Ok zonesDir) zonesDirBroken = Err e.
Proof.
  apply (LoadZonesDir_all_or_nothing zonesDir zonesDirBroken
           "dns/sub.example.com.DNS").
  - assert (dnsEntries zonesDir
            = ["dns/sub.example.com.DNS"; "dns/example.com.dns"]) as ->
      by (by vm_compute).
    by left.
  - intros zf [= <-]. vm_compute. eauto.
Defined.

(** The theorem at the same directory, the loaded map enumerated backwards. *)
Lemma initialStore_is_loaded_map_witness :
  initialStore
    (reverse (map_to_list (loadedOf (LoadZonesDir (Ok zonesDir) zonesDirFiles))))
  = loadedOf (LoadZonesDir (Ok zonesDir) zonesDirFiles).
Proof.
  apply (initialStore_is_loaded_map (Ok zonesDir) zonesDirFiles).
  - assert (Hok : match LoadZonesDir (Ok zonesDir) zonesDirFiles with
                  | Ok _ => True
                  | Err _ => False
                  end) by (vm_compute; exact I).
    by destruct (LoadZonesDir (Ok zonesDir) zonesDirFiles).
  - apply reverse_Permutation.
Defined.

(** The theorem at the zone with the alias www, asked in capitals. *)
Lemma SwapZone_then_GetZoneForName_witness :
  GetZoneForName (SwapZone NewStore (indexOf zoneWww)) "EXAMPLE.Com."
  = (Some (indexOf zoneWww), ZoneFQDN (indexOf zoneWww)).
Proof.
  apply (SwapZone_then_GetZoneForName NewStore zoneWww).
  - by vm_compute.
  - by vm_compute.
Defined.

(** The theorem at a reload of [example.com.] with a file of a lower serial. *)
Lemma OnZoneUpdated_serial_monotone_witness :
  ∃ new,
    store (OnZoneUpdated
             {| store := SwapZone NewStore (indexOf zoneParent);
                cache := emptyCaches |} (Ok zoneWww)) !! "example.com."
    = Some new
    ∧ Serial (indexOf zoneParent) ≤ Serial new.
Proof.
  apply (OnZoneUpdated_serial_monotone
           {| store := SwapZone NewStore (indexOf zoneParent);
              cache := emptyCaches |} (Ok zoneWww) "example.com."
           (indexOf zoneParent)).
  by vm_compute.
Defined.

(** The theorem at a reload of [example.com.] with a file of a greater serial. *)
Lemma OnZoneUpdated_installs_witness :
  let z' := OnZoneUpdated {| store := SwapZone NewStore (indexOf zoneWww);
                             cache := emptyCaches |} (Ok zoneParent) in
  GetZoneForName (store z') (ZoneFQDN (indexOf zoneParent))
  = (Some (indexOf zoneParent), ZoneFQDN (indexOf zoneParent))
  ∧ (∀ name qtype rcode, HasSuffix name (ZoneFQDN (indexOf zoneParent)) = true →
       lru.find (name, qtype) (lru.items (pos (cache z'))) = None
       ∧ lru.find (name, qtype, rcode) (lru.items (neg (cache z'))) = None).
Proof.
  apply (OnZoneUpdated_installs
           {| store := SwapZone NewStore (indexOf zoneWww); cache := emptyCaches |}
           zoneParent (indexOf zoneParent)).
  - by vm_compute.
  - left. exists (indexOf zoneWww). split; by vm_compute.
Defined.

End StorePropertyExamples.

Section CachePropertyExamples.
#[local] Existing Instance plainLibs.

(** An answer stored for [WWW.Example.com.] for 60 s is read one
    second before its expiry under [www.example.COM.]. *)
Lemma PutPositive_GetPositive_witness :
  (GetPositive
     (PutPositive emptyCaches "WWW.Example.com." dns.TypeA
        (query "www.example.com." dns.TypeA) (60 * Second) 1000)
     "www.example.COM." dns.TypeA (1000 + 59 * Second)).1
  = Some (query "www.example.com." dns.TypeA).
Proof.
  apply (PutPositive_GetPositive emptyCaches "WWW.Example.com." "www.example.COM.").
  - by vm_compute.
  - by vm_compute.
  - by vm_compute.
Defined.

(** The same for a negative entry. *)
Lemma PutNegative_GetNegative_witness :
  (GetNegative
     (PutNegative emptyCaches "Nope.Example.com." dns.TypeA dns.RcodeNameError
        (300 * Second) 1000)
     "nope.example.COM." dns.TypeA dns.RcodeNameError (1000 + 299 * Second)).1
  = true.
Proof.
  apply (PutNegative_GetNegative emptyCaches "Nope.Example.com." "nope.example.COM.").
  - by vm_compute.
  - by vm_compute.
  - by vm_compute.
Defined.

(** An answer stored for [www.example.com.] is gone after
    [InvalidateZone("Example.com.")]. *)
Lemma InvalidateZone_then_Get_witness :
  (GetPositive
     (InvalidateZone
        (PutPositive emptyCaches "www.example.com." dns.TypeA
           (query "www.example.com." dns.TypeA) (60 * Second) 1000)
        "Example.com.")
     "WWW.example.com." dns.TypeA 1001).1 = None
  ∧ (GetNegative
       (InvalidateZone
          (PutPositive emptyCaches "www.example.com." dns.TypeA
             (query "www.example.com." dns.TypeA) (60 * Second) 1000)
          "Example.com.")
       "WWW.example.com." dns.TypeA dns.RcodeNameError 1001).1 = false.
Proof.
  apply (InvalidateZone_then_Get
           (PutPositive emptyCaches "www.example.com." dns.TypeA
              (query "www.example.com." dns.TypeA) (60 * Second) 1000)
           "Example.com." "WWW.example.com.").
  by vm_compute.
Defined.

(** An answer stored for [www.example.net.] is still read after
    [InvalidateZone("example.com.")]. *)
Lemma InvalidateZone_frame_witness :
  (GetPositive
     (InvalidateZone
        (PutPositive emptyCaches "www.example.net." dns.TypeA
           (query "www.example.net." dns.TypeA) (60 * Second) 1000)
        "example.com.")
     "www.example.net." dns.TypeA 1001).1
  = (GetPositive
       (PutPositive emptyCaches "www.example.net." dns.TypeA
          (query "www.example.net." dns.TypeA) (60 * Second) 1000)
       "www.example.net." dns.TypeA 1001).1
  ∧ (GetNegative
       (InvalidateZone
          (PutPositive emptyCaches "www.example.net." dns.TypeA
             (query "www.example.net." dns.TypeA) (60 * Second) 1000)
          "example.com.")
       "www.example.net." dns.TypeA dns.RcodeNameError 1001).1
    = (GetNegative
         (PutPositive emptyCaches "www.example.net." dns.TypeA
            (query "www.example.net." dns.TypeA) (60 * Second) 1000)
         "www.example.net." dns.TypeA dns.RcodeNameError 1001).1.
Proof.
  apply (InvalidateZone_frame
           (PutPositive emptyCaches "www.example.net." dns.TypeA
              (query "www.example.net." dns.TypeA) (60 * Second) 1000)
           "example.com." "www.example.net.").
  by vm_compute.
Defined.

(** The theorem at the empty caches of capacity 100 and 10. *)
Lemma caches_stay_bounded_witness :
  caches_bounded (PutPositive emptyCaches "www.example.com." dns.TypeA
                    (query "www.example.com." dns.TypeA) (60 * Second) 1000)
  ∧ caches_bounded (PutNegative emptyCaches "www.example.com." dns.TypeA
                      dns.RcodeNameError (60 * Second) 1000)
  ∧ caches_bounded (GetPositive emptyCaches "www.example.com." dns.TypeA 1000).2
  ∧ caches_bounded (GetNegative emptyCaches "www.example.com." dns.TypeA
                      dns.RcodeNameError 1000).2
  ∧ caches_bounded (InvalidateZone emptyCaches "example.com.")
  ∧ (∀ N c0, NewRRCaches (T := dns.Msg) N = Ok c0 → caches_bounded c0).
Proof.
  apply (caches_stay_bounded emptyCaches "www.example.com." "example.com."
           dns.TypeA dns.RcodeNameError (60 * Second) 1000
           (query "www.example.com." dns.TypeA)).
  split; by vm_compute.
Defined.

End CachePropertyExamples.

Section EnginePropertyExamples.
#[local] Existing Instance plainLibs.

(** The theorem at the zone with the alias www and a query for the alias. *)
Lemma ServeDNS_never_panics_witness :
  ∃ resp r',
    ServeDNS noNet (resolverFor zoneWww) (query "www.example.com." dns.TypeA) 1000
    = Returns (resp, r').
Proof.
  apply (ServeDNS_never_panics noNet (resolverFor zoneWww)).
  intros k zi Hk. exists zoneWww.
  unfold resolverFor, SwapZone, NewStore in Hk. simpl in Hk.
  apply lookup_insert_Some in Hk as [[_ <-] | [_ Hk]]; [by vm_compute|].
  by rewrite lookup_empty in Hk.
Defined.


(** The theorem at a query for a name that the zone does not have. *)
Lemma ServeDNS_nxdomain_witness :
  ∃ resp r',
    ServeDNS noNet (resolverFor zoneWww) (query "nope.example.com." dns.TypeA) 1000
    = Returns (resp, r')
    ∧ dns.Rcode resp = dns.RcodeNameError ∧ dns.Authoritative resp = true
    ∧ dns.Answer resp = [] ∧ dns.Ns_ resp = [makeSOA (indexOf zoneWww)]
    ∧ ∀ now', now' < 1000 + NegativeTTL (zi_SOA (indexOf zoneWww)) * Second →
        (GetNegative (Cache r') (Fqdn "nope.example.com.") dns.TypeA
           dns.RcodeNameError now').1 = true.
Proof.
  apply (ServeDNS_nxdomain noNet (resolverFor zoneWww)
           (query "nope.example.com." dns.TypeA) 1000
           {| dns.qName := "nope.example.com."; dns.Qtype := dns.TypeA;
              dns.Qclass := dns.ClassINET |} [] emptyCaches (indexOf zoneWww)).
  all: by vm_compute.
Defined.

(** The theorem at the apex address of the zone with the alias www, asked as
    [Example.COM]. *)
Lemma lookup_exact_match_witness :
  lookup (indexOf zoneWww) "Example.COM" dns.TypeA
  = Returns (toRR (ToLower (Fqdn "Example.COM"))
               (rrsetAt (indexOf zoneWww) "example.com." TypeA),
             addAdditionals (indexOf zoneWww)
               (toRR (ToLower (Fqdn "Example.COM"))
                  (rrsetAt (indexOf zoneWww) "example.com." TypeA)),
             dns.RcodeSuccess,
             rs_TTL (rrsetAt (indexOf zoneWww) "example.com." TypeA))
  ∧ ∀ rr, rr ∈ toRR (ToLower (Fqdn "Example.COM"))
                 (rrsetAt (indexOf zoneWww) "example.com." TypeA) →
      dns.Name (dns.Header rr) = ToLower (Fqdn "Example.COM")
      ∧ dns.Ttl (dns.Header rr)
        = rs_TTL (rrsetAt (indexOf zoneWww) "example.com." TypeA)
      ∧ dns.Class (dns.Header rr) = dns.ClassINET.
Proof.
  apply (lookup_exact_match (indexOf zoneWww) "Example.COM" dns.TypeA
           (namesAt (indexOf zoneWww) "example.com.")).
  - by vm_compute.
  - by vm_compute.
Defined.

(** The theorem at the zone with the wildcards [*.example.com.] and
    [*.apps.example.com.], asked for [a.b.apps.example.com.]: the owner
    [*.b.apps.example.com.] is not in the zone, [*.apps.example.com.]
    answers. *)
Lemma lookup_wildcard_match_witness :
  lookup (indexOf zoneWild) "a.b.apps.example.com." dns.TypeA
  = Returns (toRR (ToLower (Fqdn "a.b.apps.example.com."))
               (rrsetAt (indexOf zoneWild) "*.apps.example.com." TypeA),
             addAdditionals (indexOf zoneWild)
               (toRR (ToLower (Fqdn "a.b.apps.example.com."))
                  (rrsetAt (indexOf zoneWild) "*.apps.example.com." TypeA)),
             dns.RcodeSuccess,
             rs_TTL (rrsetAt (indexOf zoneWild) "*.apps.example.com." TypeA))
  ∧ ∀ rr, rr ∈ toRR (ToLower (Fqdn "a.b.apps.example.com."))
                 (rrsetAt (indexOf zoneWild) "*.apps.example.com." TypeA) →
      dns.Name (dns.Header rr) = ToLower (Fqdn "a.b.apps.example.com.").
Proof.
  apply (lookup_wildcard_match (indexOf zoneWild) "a.b.apps.example.com." dns.TypeA
           ["*.b.apps.example.com."] ["*.example.com."; "*.com."]
           "*.apps.example.com."
           (namesAt (indexOf zoneWild) "*.apps.example.com.")).
  - by vm_compute.
  - by vm_compute.
  - intros w m' ->%list_elem_of_singleton Hm'. by vm_compute in Hm'.
  - by vm_compute.
  - by vm_compute.
Defined.


(** The theorem at the apex of the zone with the alias www, asked for TXT. *)
Lemma ServeDNS_nodata_witness :
  ∃ resp,
    ServeDNS noNet (resolverFor zoneWww) (query "example.com." dns.TypeTXT) 1000
    = Returns (resp, set_Cache (resolverFor zoneWww) emptyCaches)
    ∧ dns.Rcode resp = dns.RcodeSuccess ∧ dns.Answer resp = []
    ∧ dns.Ns_ resp = [] ∧ dns.Extra resp = [].
Proof.
  apply (ServeDNS_nodata noNet (resolverFor zoneWww)
           (query "example.com." dns.TypeTXT) 1000
           {| dns.qName := "example.com."; dns.Qtype := dns.TypeTXT;
              dns.Qclass := dns.ClassINET |} [] emptyCaches (indexOf zoneWww)
           (namesAt (indexOf zoneWww) "example.com.")).
  all: by vm_compute.
Defined.

End EnginePropertyExamples.
